(** * trpc-openapi: the request-routing and input-reconciliation core

    A shallow embedding of
      - [src/adapters/node-http/core.ts]       ([createOpenApiNodeHttpHandler]),
      - [src/adapters/node-http/procedures.ts] ([createProcedureCache]),
      - [src/adapters/node-http/errors.ts]     ([getErrorFromUnknown]),
      - [src/adapters/aws-lambda.ts]           ([createOpenApiAwsLambdaHandler]),
      - [src/utils/procedure.ts]               ([forEachOpenApiProcedure]),
      - the error table [TRPC_ERROR_CODE_HTTP_STATUS],
      - the schema functions of the generator   ([getParameterObjects],
        [getRequestBodyObject], [getResponsesObject]),
    followed by the properties the design document states about them
    and by further properties of the handlers, the lookup, the errors
    and the generated schemas.

    JavaScript objects are finite maps from property names to values,
    [Map]s are insertion-ordered association lists, exceptions and the
    mutable locals of a handler are threaded through a small state and
    exception monad, and every call to a collaborator is recorded in a
    trace of events. *)

From Stdlib Require Import ZArith Ascii String.
From stdpp Require Import gmap strings list fin_maps pretty.

#[local] Set Warnings "-register-all".
#[local] Open Scope string_scope.
#[local] Open Scope Z_scope.

(** ** JavaScript values *)

Inductive JsValue : Type :=
| JUndefined
| JNull
| JBool (b : bool)
| JNum (n : Z)
| JStr (s : string)
| JArr (items : list JsValue)
| JObj (props : gmap string JsValue).

(** [Array.isArray]. *)
Definition Array_isArray (v : JsValue) : bool :=
  match v with JArr _ => true | _ => false end.

(** The truthiness of a value. *)
Definition value_truthy (v : JsValue) : bool :=
  match v with
  | JUndefined | JNull => false
  | JBool b => b
  | JNum n => negb (n =? 0)
  | JStr s => negb (String.eqb s EmptyString)
  | JArr _ | JObj _ => true
  end.

(** The characters of a string, as the one-character strings that
    indexing a JavaScript string yields. *)
Fixpoint string_chars (s : string) : list JsValue :=
  match s with
  | EmptyString => []
  | String c rest => JStr (String c EmptyString) :: string_chars rest
  end.

(** Index-named properties ["0"], ["1"], ... of an array-like. *)
Definition indexed_props (l : list JsValue) : gmap string JsValue :=
  list_to_map (imap (λ (i : nat) v, (pretty i, v)) l).

(** The own enumerable properties an object spread [{...v}] copies:
    those of an object, the index properties of an array or a string,
    and none for [undefined], [null], booleans and numbers. *)
Definition own_properties (v : JsValue) : gmap string JsValue :=
  match v with
  | JObj props => props
  | JArr items => indexed_props items
  | JStr s => indexed_props (string_chars s)
  | JUndefined | JNull | JBool _ | JNum _ => ∅
  end.

(** The object literal [{...v1, ..., ...vn}]: sources are copied left to
    right, a later source overwriting the properties of an earlier one. *)
Definition object_spread (sources : list JsValue) : JsValue :=
  JObj (foldl (λ acc v, own_properties v ∪ acc) ∅ sources).

(** ** Strings *)

Definition ascii_upper (c : ascii) : ascii :=
  let n := nat_of_ascii c in
  if (Nat.leb 97 n && Nat.leb n 122)%bool then ascii_of_nat (n - 32) else c.

Definition ascii_lower (c : ascii) : ascii :=
  let n := nat_of_ascii c in
  if (Nat.leb 65 n && Nat.leb n 90)%bool then ascii_of_nat (n + 32) else c.

Fixpoint map_string (f : ascii → ascii) (s : string) : string :=
  match s with
  | EmptyString => EmptyString
  | String c rest => String (f c) (map_string f rest)
  end.

(** [String.prototype.toUpperCase] and [toLowerCase] on ASCII text. *)
Definition toUpperCase : string → string := map_string ascii_upper.
Definition toLowerCase : string → string := map_string ascii_lower.

(** [s.startsWith(p)]. *)
Fixpoint startsWith (p s : string) : bool :=
  match p, s with
  | EmptyString, _ => true
  | String a p', String b s' => if Ascii.eqb a b then startsWith p' s' else false
  | String _ _, EmptyString => false
  end.

(** [s.split(sep)] for a one-character separator; the result is never
    empty: [''.split('.')] is [['']]. *)
Fixpoint split (sep : ascii) (s : string) : list string :=
  match s with
  | EmptyString => [EmptyString]
  | String c rest =>
      if Ascii.eqb c sep then EmptyString :: split sep rest
      else match split sep rest with
           | [] => [String c EmptyString]
           | seg :: segs => String c seg :: segs
           end
  end.

(** A value is falsy as a string operand of [||] and [?:] when it is
    [undefined] or the empty string. *)
Definition truthy (s : option string) : bool :=
  match s with
  | Some EmptyString | None => false
  | Some _ => true
  end.

(** [a || b] on optional strings. *)
Definition or_else (a b : option string) : option string :=
  if truthy a then a else b.

(** ** Errors *)

(** The keys of [TRPCError['code']]. *)
Inductive TRPC_ERROR_CODE_KEY : Set :=
| PARSE_ERROR
| BAD_REQUEST
| NOT_FOUND
| INTERNAL_SERVER_ERROR
| UNAUTHORIZED
| FORBIDDEN
| TIMEOUT
| CONFLICT
| CLIENT_CLOSED_REQUEST
| NOT_IMPLEMENTED
| BAD_GATEWAY
| SERVICE_UNAVAILABLE
| GATEWAY_TIMEOUT
| UNSUPPORTED_MEDIA_TYPE
| METHOD_NOT_SUPPORTED
| PRECONDITION_FAILED
| PAYLOAD_TOO_LARGE
| UNPROCESSABLE_CONTENT
| TOO_MANY_REQUESTS.

#[global] Instance TRPC_ERROR_CODE_KEY_eq_dec : EqDecision TRPC_ERROR_CODE_KEY.
Proof. solve_decision. Defined.

Definition all_codes : list TRPC_ERROR_CODE_KEY :=
  [PARSE_ERROR; BAD_REQUEST; NOT_FOUND; INTERNAL_SERVER_ERROR; UNAUTHORIZED;
   FORBIDDEN; TIMEOUT; CONFLICT; CLIENT_CLOSED_REQUEST; NOT_IMPLEMENTED;
   BAD_GATEWAY; SERVICE_UNAVAILABLE; GATEWAY_TIMEOUT; UNSUPPORTED_MEDIA_TYPE;
   METHOD_NOT_SUPPORTED; PRECONDITION_FAILED; PAYLOAD_TOO_LARGE;
   UNPROCESSABLE_CONTENT; TOO_MANY_REQUESTS].

(** The key as the string that is sent in the [code] field. *)
Definition code_name (c : TRPC_ERROR_CODE_KEY) : string :=
  match c with
  | PARSE_ERROR => "PARSE_ERROR"
  | BAD_REQUEST => "BAD_REQUEST"
  | NOT_FOUND => "NOT_FOUND"
  | INTERNAL_SERVER_ERROR => "INTERNAL_SERVER_ERROR"
  | UNAUTHORIZED => "UNAUTHORIZED"
  | FORBIDDEN => "FORBIDDEN"
  | TIMEOUT => "TIMEOUT"
  | CONFLICT => "CONFLICT"
  | CLIENT_CLOSED_REQUEST => "CLIENT_CLOSED_REQUEST"
  | NOT_IMPLEMENTED => "NOT_IMPLEMENTED"
  | BAD_GATEWAY => "BAD_GATEWAY"
  | SERVICE_UNAVAILABLE => "SERVICE_UNAVAILABLE"
  | GATEWAY_TIMEOUT => "GATEWAY_TIMEOUT"
  | UNSUPPORTED_MEDIA_TYPE => "UNSUPPORTED_MEDIA_TYPE"
  | METHOD_NOT_SUPPORTED => "METHOD_NOT_SUPPORTED"
  | PRECONDITION_FAILED => "PRECONDITION_FAILED"
  | PAYLOAD_TOO_LARGE => "PAYLOAD_TOO_LARGE"
  | UNPROCESSABLE_CONTENT => "UNPROCESSABLE_CONTENT"
  | TOO_MANY_REQUESTS => "TOO_MANY_REQUESTS"
  end.

(** [TRPC_ERROR_CODES_BY_KEY[code]], read for its truthiness only: the
    key when [code] names one, nothing otherwise. The source indexes a
    plain object, which also answers, with a truthy value, to the names
    of the properties that every object inherits ([inherited_names]
    below): such a name is then kept as the code of the error, which
    is no key of the table. This definition, and [getErrorFromUnknown]
    with it, stand for the source on the other names only; the
    properties about the code or the status that comes of it say so
    ([inherited], [own_code]). *)
Definition TRPC_ERROR_CODES_BY_KEY (code : string) : option TRPC_ERROR_CODE_KEY :=
  find (λ c, String.eqb (code_name c) code) all_codes.

(** The names of the properties that an object inherits from
    [Object.prototype]. *)
Definition inherited_names : list string :=
  ["constructor"; "__defineGetter__"; "__defineSetter__"; "hasOwnProperty";
   "__lookupGetter__"; "__lookupSetter__"; "isPrototypeOf"; "propertyIsEnumerable";
   "toString"; "valueOf"; "__proto__"; "toLocaleString"].

(** The [code] property is such a name. *)
Definition inherited (code : option string) : bool :=
  if code is Some name then existsb (String.eqb name) inherited_names else false.

(** The table [TRPC_ERROR_CODE_HTTP_STATUS]. *)
Definition TRPC_ERROR_CODE_HTTP_STATUS (c : TRPC_ERROR_CODE_KEY) : Z :=
  match c with
  | PARSE_ERROR => 400
  | BAD_REQUEST => 400
  | NOT_FOUND => 404
  | INTERNAL_SERVER_ERROR => 500
  | UNAUTHORIZED => 401
  | FORBIDDEN => 403
  | TIMEOUT => 408
  | CONFLICT => 409
  | CLIENT_CLOSED_REQUEST => 499
  | NOT_IMPLEMENTED => 501
  | BAD_GATEWAY => 502
  | SERVICE_UNAVAILABLE => 503
  | GATEWAY_TIMEOUT => 504
  | UNSUPPORTED_MEDIA_TYPE => 415
  | METHOD_NOT_SUPPORTED => 405
  | PRECONDITION_FAILED => 412
  | PAYLOAD_TOO_LARGE => 413
  | UNPROCESSABLE_CONTENT => 422
  | TOO_MANY_REQUESTS => 429
  end.

(** A JavaScript [Error] object: its [name] and [message], the [code]
    property some errors carry, and the [errors] array of a [ZodError]. *)
Record JsError : Type := {
  error_name : string;
  error_message : string;
  error_code : option string;
  error_errors : option (list JsValue);
}.

(** A [TRPCError]. [trpc_cause] is the [cause] when it is an instance of
    [Error], and nothing when it is absent or any other value. *)
Record TRPCError : Type := {
  trpc_code : TRPC_ERROR_CODE_KEY;
  trpc_message : string;
  trpc_cause : option JsError;
}.

(** What a [throw] can carry. *)
Inductive Thrown : Type :=
| ThrownTRPCError (e : TRPCError)
    (* an [Error] whose [name] is ['TRPCError'] *)
| ThrownError (e : JsError)
    (* any other [Error] *)
| ThrownValue (code : option string) (toString : option string).
    (* a value that is not an [Error]: its [code] property and the
       result of its [toString()], when it has one *)

(** [new TRPCError({ code, message })]. *)
Definition new_TRPCError (code : TRPC_ERROR_CODE_KEY) (message : string) : TRPCError :=
  {| trpc_code := code; trpc_message := message; trpc_cause := None |}.

(** [getErrorFromUnknown] of the node-http adapter. *)
Definition getErrorFromUnknown (error : Thrown) : TRPCError :=
  match error with
  | ThrownTRPCError e => e
  | ThrownError e =>
      let code := default EmptyString (error_code e) in
      new_TRPCError
        (if TRPC_ERROR_CODES_BY_KEY code is Some c then c else INTERNAL_SERVER_ERROR)
        (error_message e)
  | ThrownValue code toString =>
      let code := default EmptyString code in
      new_TRPCError
        (if TRPC_ERROR_CODES_BY_KEY code is Some c then c else INTERNAL_SERVER_ERROR)
        (if truthy toString then default EmptyString toString else "Unknown error occurred")
  end.

(** What is thrown is a [TRPCError], or its [code] property is absent
    or is not the name of an inherited property: the values on which
    [getErrorFromUnknown] stands for the source. *)
Definition own_code (cause : Thrown) : Prop :=
  match cause with
  | ThrownTRPCError _ => True
  | ThrownError e => inherited (error_code e) = false
  | ThrownValue code _ => inherited code = false
  end.

(** The second [getErrorFromUnknown], next to the status table. Its
    test is [error instanceof TRPCError], not a test of the name:
    [instanceofTRPCError] tells whether what is thrown is an instance of
    the class that this module imports. An instance is returned as the
    object it is, whatever its name, so the result is given as a
    [Thrown]; anything else becomes a new INTERNAL_SERVER_ERROR. *)
Definition getErrorFromUnknown_table (instanceofTRPCError : Thrown → bool)
    (error : Thrown) : Thrown :=
  if instanceofTRPCError error then error
  else
    ThrownTRPCError
      (new_TRPCError INTERNAL_SERVER_ERROR
         match error with
         | ThrownTRPCError e => trpc_message e
         | ThrownError e => error_message e
         | ThrownValue _ _ => "Unknown error occurred"
         end).

(** Modelled from the spec: [getHTTPStatusCodeFromError] is imported from
    [@trpc/server/http] and is not part of the sources; section 6 gives
    its fixed table, which is the table [TRPC_ERROR_CODE_HTTP_STATUS] of
    the sources. The result is optional because the callers guard it
    with [?? 500]. *)
Definition getHTTPStatusCodeFromError (error : TRPCError) : option Z :=
  Some (TRPC_ERROR_CODE_HTTP_STATUS (trpc_code error)).

(** The value of [getErrorShape(...)?.message]: the router's error
    formatter is handed the default shape, whose message is the error's
    own, and may return a shape with another message or with none. *)
Definition ErrorFormatter : Type := TRPCError → option string → option string.

(** The formatter of a router created without [errorFormatter]: the
    default shape is returned as it is. *)
Definition defaultFormatter : ErrorFormatter := λ error _, Some (trpc_message error).

(** ** Routers and procedures *)

(** [OpenApiMethod]. *)
Inductive OpenApiMethod : Set := GET | POST | PATCH | PUT | DELETE.

Definition method_name (m : OpenApiMethod) : string :=
  match m with
  | GET => "GET"
  | POST => "POST"
  | PATCH => "PATCH"
  | PUT => "PUT"
  | DELETE => "DELETE"
  end.

Inductive ProcedureType : Set := query | mutation | subscription.

(** The classes of unwrapped input schemas that the handler tells apart
    with [instanceofZodTypeLikeVoid], [instanceofZodTypeArray] and
    [instanceofZodTypeObject]; [utils/zod] itself is not in the sources. *)
Inductive ZodType : Set := ZodLikeVoid | ZodArray | ZodObject | ZodOther.

Definition instanceofZodTypeLikeVoid (t : option ZodType) : bool :=
  if t is Some ZodLikeVoid then true else false.
Definition instanceofZodTypeArray (t : option ZodType) : bool :=
  if t is Some ZodArray then true else false.
Definition instanceofZodTypeObject (t : option ZodType) : bool :=
  if t is Some ZodObject then true else false.

(** The fields of [meta.openapi] that routing reads. *)
Record OpenApi : Type := {
  openapi_enabled : option bool;
  openapi_method : OpenApiMethod;
  openapi_path : string;
}.

(** A procedure: [_def.meta.openapi], [_def.type] and [_def.inputs]. *)
Record OpenApiProcedure : Type := {
  def_openapi : option OpenApi;
  def_type : option ProcedureType;
  def_inputs : list ZodType;
}.

(** The outcome of a call that may throw. *)
Inductive Completion (A : Type) : Type :=
| Return (a : A)
| Throw (t : Thrown).
Arguments Return {A} a.
Arguments Throw {A} t.

(** A router: [_def.procedures] in [Object.entries] order, the error
    formatter of [_def._config], and [createCaller(ctx)] followed by the
    walk along the segments of a procedure path, which yields the
    function to call, if any. *)
Record OpenApiRouter : Type := {
  router_procedures : list (string * OpenApiProcedure);
  router_errorFormatter : ErrorFormatter;
  router_createCaller : JsValue → list string → option (JsValue → Completion JsValue);
}.

(** [mergeInputs] always builds an object schema. *)
Definition mergeInputs (inputParsers : list ZodType) : ZodType := ZodObject.

(** [getInputOutputParsers(procedure).inputParser]; [inputs[0]] is
    [undefined] when the procedure declares no input. *)
Definition getInputOutputParsers (procedure : OpenApiProcedure) : option ZodType :=
  let inputs := def_inputs procedure in
  if Nat.leb 2 (length inputs) then Some (mergeInputs inputs) else head inputs.

Definition getProcedureType (procedure : OpenApiProcedure) : option ProcedureType :=
  def_type procedure.

Record CallbackValues : Type := {
  cb_path : string;
  cb_type : ProcedureType;
  cb_procedure : OpenApiProcedure;
  cb_openapi : OpenApi;
}.

(** [forEachOpenApiProcedure]: the callback runs, in the order of the
    record's entries, on every procedure that carries [openapi]
    metadata which is not disabled and that has a type. The state [S]
    is whatever the callback mutates. *)
Definition forEachOpenApiProcedure {S : Type}
    (procedureRecord : list (string * OpenApiProcedure))
    (callback : CallbackValues → S → S) (s : S) : S :=
  foldl (λ s '(path, procedure),
    match def_openapi procedure with
    | Some openapi =>
        if openapi_enabled openapi is Some false then s
        else match getProcedureType procedure with
             | Some type =>
                 callback {| cb_path := path; cb_type := type;
                             cb_procedure := procedure; cb_openapi := openapi |} s
             | None => s
             end
    | None => s
    end) s procedureRecord.

(** ** JavaScript [Map]s

    A [Map] keeps its entries in insertion order; [set] on a key that is
    present replaces the value in place. Keys are compared by [same]:
    string equality for method names, identity for objects. *)

Section JsMap.
Context {K V : Type} (same : K → K → bool).

Fixpoint Map_get (k : K) (m : list (K * V)) : option V :=
  match m with
  | [] => None
  | (k', v) :: m' => if same k k' then Some v else Map_get k m'
  end.

Definition Map_has (k : K) (m : list (K * V)) : bool :=
  if Map_get k m is Some _ then true else false.

Fixpoint Map_set (k : K) (v : V) (m : list (K * V)) : list (K * V) :=
  match m with
  | [] => [(k, v)]
  | (k', v') :: m' => if same k k' then (k', v) :: m' else (k', v') :: Map_set k v m'
  end.

Definition Map_keys (m : list (K * V)) : list K := m.*1.
End JsMap.

(** A [RegExp] object: the address that gives it its identity and the
    normalized path template it was compiled from. *)
Record RegExp : Type := {
  re_ref : nat;
  re_source : string;
}.

Definition same_RegExp (a b : RegExp) : bool := Nat.eqb (re_ref a) (re_ref b).

Definition same_method (a b : string) : bool := String.eqb a b.

Record CacheEntry : Type := {
  entry_type : ProcedureType;
  entry_path : string;
  entry_procedure : OpenApiProcedure;
}.

(** [Map<OpenApiMethod, Map<RegExp, ...>>]; method keys are kept as the
    strings they are at run time. *)
Definition ProcedureCache : Type := list (string * list (RegExp * CacheEntry)).

(** What [getProcedure] returns when a pattern matched. *)
Record Found : Type := {
  found_procedure : option CacheEntry;
  found_pathInput : gmap string JsValue;
}.

(** ** Requests, responses and the options of the handlers *)

(** A parsed [URL]. *)
Record URL : Type := {
  pathname : string;
  search : string;
}.

(** A node-http request: what the handler and its helpers read of it.
    [req_stream] is the unread request stream of a request that came
    over the wire; [req_query] and [req_body] are the properties a mock
    request is created with, [req_body] being [None] on a request that
    has no [body] property. *)
Record NodeHTTPRequest : Type := {
  req_method : string;
  req_url : string;
  req_headers : list (string * string);
  req_query : JsValue;
  req_body : option JsValue;
  req_stream : string;
}.

(** [OpenApiResponse]: the procedure's data, or an [OpenApiErrorResponse]. *)
Inductive OpenApiResponse : Type :=
| OpenApiSuccessResponse (data : JsValue)
| OpenApiErrorResponse (message : string) (code : TRPC_ERROR_CODE_KEY)
                       (issues : option (list JsValue)).

(** What was written to the response: the status, the headers, and the
    value handed to [JSON.stringify] ([None] for [undefined], which
    ends the response with an empty body). *)
Record HttpResponse : Type := {
  statusCode : Z;
  headers : list (string * string);
  body : option OpenApiResponse;
}.

Inductive Outcome : Type :=
| CalledNext
| Sent (res : HttpResponse).

(** The value a [responseMeta] hook returns. *)
Record ResponseMeta : Type := {
  meta_status : option Z;
  meta_headers : option (list (string * string));
}.

(** The argument of a [responseMeta] hook; [rm_type] is [None] for
    ['unknown']. *)
Record ResponseMetaOpts : Type := {
  rm_type : option ProcedureType;
  rm_paths : option (list (option string));
  rm_ctx : JsValue;
  rm_data : list JsValue;
  rm_errors : list TRPCError;
}.

(** [CreateOpenApiNodeHttpHandlerOptions]. The hooks [responseMeta] and
    [onError] are taken to return normally; [onError] returns nothing,
    so only its presence is kept and its calls are traced. *)
Record CreateOpenApiNodeHttpHandlerOptions : Type := {
  opts_router : OpenApiRouter;
  opts_createContext : option (NodeHTTPRequest → Completion JsValue);
  opts_responseMeta : option (ResponseMetaOpts → ResponseMeta);
  opts_onError : bool;
  opts_maxBodySize : option nat;
}.

(** A gateway event, in either payload format. Reading
    [requestContext.http.method] throws a [TypeError] when
    [requestContext.http] is missing, which is [None] here. *)
Record LambdaEvent : Type := {
  event_version : option string;
  event_path : option string;
  event_rawPath : option string;
  event_httpMethod : option string;
  event_requestContext_http_method : option (option string);
  event_headers : list (string * string);
  event_body : option string;
  event_queryStringParameters : option JsValue;
}.

(** [CreateOpenApiAwsLambdaHandlerOptions]: the type picks [router],
    [createContext], [responseMeta] and [onError], and nothing else. *)
Record CreateOpenApiAwsLambdaHandlerOptions : Type := {
  lambda_router : OpenApiRouter;
  lambda_createContext : option (LambdaEvent → Completion JsValue);
  lambda_responseMeta : option (ResponseMetaOpts → ResponseMeta);
  lambda_onError : bool;
}.

(** ** Effects *)

(** The decoding of a body or of a query string: a call of
    [JSON.parse] or of [querystring.parse] on a text. *)
Inductive Decoding : Type :=
| JSONParse (text : string)
| QuerystringParse (text : string).

(** The calls a handler makes to its collaborators. *)
Inductive Event : Type :=
| EvGetProcedure (method path : string)
| EvDecode (d : Decoding)
| EvCreateContext
| EvCall (path : string) (input : JsValue)
| EvOnError (error : TRPCError) (input ctx : JsValue)
| EvNext.

(** The result of a helper that reads the request, together with the
    decodings it performed. *)
Definition Eff (A : Type) : Type := list Decoding * Completion A.

(** A computation over mutable locals [L]: it extends the trace and
    either returns or throws, leaving the locals as they were at that
    point. *)
Record Result (L A : Type) : Type := {
  final : L;
  trace : list Event;
  completion : Completion A;
}.
Arguments final {L A} r.
Arguments trace {L A} r.
Arguments completion {L A} r.

Definition Exec (L A : Type) : Type := L → list Event → Result L A.

Definition ret {L A} (a : A) : Exec L A :=
  λ l t, {| final := l; trace := t; completion := Return a |}.

Definition throw {L A} (e : Thrown) : Exec L A :=
  λ l t, {| final := l; trace := t; completion := Throw e |}.

Definition bind {L A B} (m : Exec L A) (k : A → Exec L B) : Exec L B :=
  λ l t,
    let r := m l t in
    match completion r with
    | Return a => k a (final r) (trace r)
    | Throw e => {| final := final r; trace := trace r; completion := Throw e |}
    end.

Notation "'let*' x ':=' m 'in' k" := (bind m (λ x, k))
  (at level 10, x name, m at level 100, k at level 200).

(** [try { m } catch (cause) { handler cause }]. *)
Definition try_catch {L A} (m : Exec L A) (handler : Thrown → Exec L A) : Exec L A :=
  λ l t,
    let r := m l t in
    match completion r with
    | Return a => r
    | Throw cause => handler cause (final r) (trace r)
    end.

Definition emit {L} (ev : Event) : Exec L () :=
  λ l t, {| final := l; trace := t ++ [ev]; completion := Return () |}.

Definition get_locals {L} : Exec L L :=
  λ l t, {| final := l; trace := t; completion := Return l |}.

Definition modify_locals {L} (f : L → L) : Exec L () :=
  λ l t, {| final := f l; trace := t; completion := Return () |}.

Definition of_completion {L A} (c : Completion A) : Exec L A :=
  λ l t, {| final := l; trace := t; completion := c |}.

Definition of_eff {L A} (e : Eff A) : Exec L A :=
  λ l t, {| final := l; trace := t ++ (EvDecode <$> e.1); completion := e.2 |}.

(** Runs a computation with locals of its own inside another one. *)
Definition call {L L' A} (m : Exec L' A) (init : L') : Exec L A :=
  λ l t,
    let r := m init t in
    {| final := l; trace := trace r; completion := completion r |}.

(** A computation only ever adds to the trace. *)
Definition extends {L A} (m : Exec L A) : Prop :=
  ∀ l t, ∃ suffix, trace (m l t) = (t ++ suffix)%list.

(** [a ?? b]. *)
Definition nullish {A} (a b : option A) : option A :=
  if a is Some _ then a else b.

(** ** The environment

    The platform functions and the modules of the repository that the
    sources import but do not contain. *)
Class Environment : Type := {
  (** [new URL(s).pathname] and [.search]; [None] when the constructor
      throws its [TypeError]. *)
  new_URL : string → option URL;
  (** [JSON.parse] and [querystring.parse]. *)
  JSON_parse : string → Completion JsValue;
  querystring_parse : string → Completion JsValue;
  (** [process.env.NODE_ENV === 'production']. *)
  NODE_ENV_production : bool;
  (** [utils/path]: [normalizePath], and what [getPathRegExp(template)
      .exec(path)] yields: nothing when the path does not match, else
      the [groups] of the match, which are [undefined] for a template
      without parameters. The expression has no [g] or [y] flag, so
      [exec] and [test] do not depend on earlier calls. *)
  normalizePath : string → string;
  path_exec : string → string → option (option (gmap string JsValue));
  (** [utils/method]. *)
  acceptsRequestBody : string → bool;
  (** [adapters/node-http/input]. *)
  getBody : NodeHTTPRequest → option nat → Eff JsValue;
  getQuery : NodeHTTPRequest → URL → Eff JsValue;
  (** [generator]: the validation of the router, which throws on a
      router it rejects. *)
  generateOpenApiDocument : OpenApiRouter → option Thrown;
}.

(** ** The procedure cache ([createProcedureCache]) *)

Section Procedures.
Context {env : Environment}.

(** [getPathRegExp(path)] allocates a new [RegExp]; [ref] is the next
    free address. *)
Definition getPathRegExp (ref : nat) (path : string) : RegExp :=
  {| re_ref := ref; re_source := path |}.

Definition RegExp_exec (re : RegExp) (path : string) :
    option (option (gmap string JsValue)) :=
  path_exec (re_source re) path.

Definition RegExp_test (re : RegExp) (path : string) : bool :=
  if RegExp_exec re path is Some _ then true else false.

(** The cache under construction and the next free address. *)
Record CacheState : Type := {
  procedureCache : ProcedureCache;
  next_ref : nat;
}.

(** The callback that [createProcedureCache] passes to
    [forEachOpenApiProcedure]. *)
Definition register (values : CallbackValues) (st : CacheState) : CacheState :=
  let queryPath := cb_path values in
  let procedure := cb_procedure values in
  let method := method_name (openapi_method (cb_openapi values)) in
  let cache := procedureCache st in
  let cache :=
    if negb (Map_has same_method method cache)
    then Map_set same_method method [] cache
    else cache in
  let path := normalizePath (openapi_path (cb_openapi values)) in
  let pathRegExp := getPathRegExp (next_ref st) path in
  let cache :=
    match def_type procedure with
    | Some ((mutation | query) as type) =>
        match Map_get same_method method cache with
        | Some procedureMethodCache =>
            Map_set same_method method
              (Map_set same_RegExp pathRegExp
                 {| entry_type := type; entry_path := queryPath;
                    entry_procedure := procedure |}
                 procedureMethodCache)
              cache
        | None => cache
        end
    | Some subscription | None => cache
    end in
  {| procedureCache := cache; next_ref := S (next_ref st) |}.

Definition build_cache (router : OpenApiRouter) : CacheState :=
  forEachOpenApiProcedure (router_procedures router) register
    {| procedureCache := []; next_ref := 0 |}.

(** The function [createProcedureCache] returns. *)
Definition getProcedure (cache : ProcedureCache) (method path : string) : option Found :=
  match Map_get same_method method cache with
  | None => None
  | Some procedureMethodCache =>
      match find (λ re, RegExp_test re path) (Map_keys procedureMethodCache) with
      | None => None
      | Some procedureRegExp =>
          let procedure := Map_get same_RegExp procedureRegExp procedureMethodCache in
          let pathInput :=
            match RegExp_exec procedureRegExp path with
            | Some (Some groups) => groups
            | Some None | None => ∅
            end in
          Some {| found_procedure := procedure; found_pathInput := pathInput |}
      end
  end.

Definition createProcedureCache (router : OpenApiRouter) : string → string → option Found :=
  getProcedure (procedureCache (build_cache router)).
End Procedures.

(** ** The node-http handler ([createOpenApiNodeHttpHandler]) *)

(** The [let] variables of the handler that its [catch] block reads. *)
Record Locals : Type := {
  var_input : JsValue;
  var_ctx : JsValue;
  var_data : JsValue;
}.

Definition initial_locals : Locals :=
  {| var_input := JUndefined; var_ctx := JUndefined; var_data := JUndefined |}.

Definition set_input (v : JsValue) : Exec Locals () :=
  modify_locals (λ l, {| var_input := v; var_ctx := var_ctx l; var_data := var_data l |}).
Definition set_ctx (v : JsValue) : Exec Locals () :=
  modify_locals (λ l, {| var_input := var_input l; var_ctx := v; var_data := var_data l |}).
Definition set_data (v : JsValue) : Exec Locals () :=
  modify_locals (λ l, {| var_input := var_input l; var_ctx := var_ctx l; var_data := v |}).

(** [res.setHeader]: header names are case-insensitive and are kept in
    lower case, as [getHeaders()] reports them. *)
Definition setHeader (name value : string) (hs : list (string * string)) :
    list (string * string) :=
  Map_set String.eqb (toLowerCase name) value hs.

(** [headersToRecord]: both kinds of headers are held as a list of
    entries here, so the copy is the list itself. *)
Definition headersToRecord (hs : list (string * string)) : list (string * string) :=
  foldl (λ result '(key, value), Map_set String.eqb key value result) [] hs.

Definition sendResponse (status : Z) (hs : list (string * string))
    (b : option OpenApiResponse) : HttpResponse :=
  {| statusCode := status;
     headers := foldl (λ acc '(key, value), setHeader key value acc)
                  (setHeader "Content-Type" "application/json" []) hs;
     body := b |}.

(** What [sendResponse(204, {}, undefined)] writes. *)
Definition no_content : HttpResponse :=
  {| statusCode := 204; headers := [("content-type", "application/json")]; body := None |}.

(** [error.code === 'BAD_REQUEST' && error.cause instanceof Error &&
    error.cause.name === 'ZodError']. *)
Definition isInputValidationError (error : TRPCError) : bool :=
  match trpc_code error, trpc_cause error with
  | BAD_REQUEST, Some cause => String.eqb (error_name cause) "ZodError"
  | _, _ => false
  end.

(** [reqUrl.startsWith('/') ? `http://127.0.0.1${reqUrl}` : reqUrl]. *)
Definition request_target (reqUrl : string) : string :=
  if startsWith "/" reqUrl then "http://127.0.0.1" ++ reqUrl else reqUrl.

Section NodeHttp.
Context {env : Environment}.

(** The first half of the [try] block for a matched procedure: the
    input is read and reconciled with the path parameters. *)
Definition reconcile_input (opts : CreateOpenApiNodeHttpHandlerOptions)
    (req : NodeHTTPRequest) (method : string) (url : URL)
    (procedure : CacheEntry) (pathInput : gmap string JsValue) : Exec Locals () :=
  let useBody := acceptsRequestBody method in
  let schema := getInputOutputParsers (entry_procedure procedure) in
  let unwrappedSchema := schema in
  if negb (instanceofZodTypeLikeVoid unwrappedSchema) then
    let* bodyOrQuery :=
      of_eff (if useBody then getBody req (opts_maxBodySize opts)
              else getQuery req url) in
    if instanceofZodTypeArray unwrappedSchema then
      if negb (Array_isArray bodyOrQuery) then
        throw (ThrownTRPCError
                 (new_TRPCError BAD_REQUEST "Expected array in request body"))
      else set_input bodyOrQuery
    else
      set_input (object_spread [bodyOrQuery; JObj pathInput])
  else ret ().

(** [await createContext?.({ req, res, info })]. *)
Definition build_context (opts : CreateOpenApiNodeHttpHandlerOptions)
    (req : NodeHTTPRequest) : Exec Locals JsValue :=
  match opts_createContext opts with
  | Some createContext =>
      let* _ := emit EvCreateContext in of_completion (createContext req)
  | None => ret JUndefined
  end.

(** The second half: the context is built, the procedure is called with
    the input and its result is sent. *)
Definition invoke_procedure (opts : CreateOpenApiNodeHttpHandlerOptions)
    (req : NodeHTTPRequest) (procedure : CacheEntry) : Exec Locals Outcome :=
  let* ctx := build_context opts req in
  let* _ := set_ctx ctx in
  let segments := split "." (entry_path procedure) in
  match router_createCaller (opts_router opts) ctx segments with
  | None =>
      throw (ThrownTRPCError
               (new_TRPCError INTERNAL_SERVER_ERROR "Procedure not found"))
  | Some procedureFn =>
      let* l := get_locals in
      let input := var_input l in
      let* _ := emit (EvCall (entry_path procedure) input) in
      let* data := of_completion (procedureFn input) in
      let* _ := set_data data in
      let meta :=
        (λ responseMeta, responseMeta
           {| rm_type := Some (entry_type procedure);
              rm_paths := Some [Some (entry_path procedure)];
              rm_ctx := ctx; rm_data := [data]; rm_errors := [] |})
        <$> opts_responseMeta opts in
      let status := default 200 (meta ≫= meta_status) in
      let hs := default [] (meta ≫= meta_headers) in
      ret (Sent (sendResponse status (headersToRecord hs)
                   (Some (OpenApiSuccessResponse data))))
  end.

(** The [try] block. *)
Definition try_block (opts : CreateOpenApiNodeHttpHandlerOptions)
    (req : NodeHTTPRequest) (next : bool) (method : string) (url : URL)
    (procedure : option CacheEntry) (pathInput : gmap string JsValue) :
    Exec Locals Outcome :=
  match procedure with
  | None =>
      if next then
        let* _ := emit EvNext in ret CalledNext
      else if String.eqb method "HEAD" then
        ret (Sent (sendResponse 204 [] None))
      else
        throw (ThrownTRPCError (new_TRPCError NOT_FOUND "Not found"))
  | Some procedure =>
      let* _ := reconcile_input opts req method url procedure pathInput in
      invoke_procedure opts req procedure
  end.

(** [responseMeta?.({ ..., errors: [error] })] in the [catch] block. *)
Definition error_meta (opts : CreateOpenApiNodeHttpHandlerOptions)
    (procedure : option CacheEntry) (l : Locals) (error : TRPCError) :
    option ResponseMeta :=
  (λ responseMeta, responseMeta
     {| rm_type := entry_type <$> procedure;
        rm_paths := (λ p, [Some (entry_path p)]) <$> procedure;
        rm_ctx := var_ctx l; rm_data := [var_data l]; rm_errors := [error] |})
  <$> opts_responseMeta opts.

(** The [catch] block. *)
Definition catch_block (opts : CreateOpenApiNodeHttpHandlerOptions)
    (path : string) (procedure : option CacheEntry) (cause : Thrown) :
    Exec Locals Outcome :=
  let error := getErrorFromUnknown cause in
  let* l := get_locals in
  let* _ := if opts_onError opts then emit (EvOnError error (var_input l) (var_ctx l))
            else ret () in
  let meta := error_meta opts procedure l error in
  let errorShape_message :=
    router_errorFormatter (opts_router opts) error (Some path) in
  let validation := isInputValidationError error in
  let status :=
    default 500 (nullish (meta ≫= meta_status) (getHTTPStatusCodeFromError error)) in
  let hs := default [] (meta ≫= meta_headers) in
  let b :=
    OpenApiErrorResponse
      (if validation then "Input validation failed"
       else default "An error occurred"
              (nullish errorShape_message (Some (trpc_message error))))
      (trpc_code error)
      (if validation then trpc_cause error ≫= error_errors else None) in
  ret (Sent (sendResponse status (headersToRecord hs) (Some b))).

(** The function that [createOpenApiNodeHttpHandler(opts)] returns;
    [next] tells whether a [next] callback was passed. The URL is
    parsed before the [try], so its [TypeError] is not caught. *)
Definition openApiHttpHandler (opts : CreateOpenApiNodeHttpHandlerOptions)
    (req : NodeHTTPRequest) (next : bool) : Exec Locals Outcome :=
  let router := opts_router opts in
  let getProcedure := createProcedureCache router in
  let method := req_method req in
  let reqUrl := req_url req in
  match new_URL (request_target reqUrl) with
  | None =>
      throw (ThrownError {| error_name := "TypeError"; error_message := "Invalid URL";
                            error_code := Some "ERR_INVALID_URL";
                            error_errors := None |})
  | Some url =>
      let path := normalizePath (pathname url) in
      let* _ := emit (EvGetProcedure method path) in
      let found := getProcedure method path in
      let procedure := found ≫= found_procedure in
      let pathInput := default ∅ (found_pathInput <$> found) in
      try_catch (try_block opts req next method url procedure pathInput)
                (catch_block opts path procedure)
  end.

(** [createOpenApiNodeHttpHandler]: outside production the router is
    validated first, and a rejected router makes the construction
    throw. *)
Definition createOpenApiNodeHttpHandler (opts : CreateOpenApiNodeHttpHandlerOptions) :
    Completion (NodeHTTPRequest → bool → Exec Locals Outcome) :=
  match (if NODE_ENV_production then None
         else generateOpenApiDocument (opts_router opts)) with
  | Some t => Throw t
  | None => Return (openApiHttpHandler opts)
  end.
End NodeHttp.

(** The construction of the handler does not throw: the router passes
    the validation, or the validation is skipped. *)
Definition router_accepted {env : Environment} (router : OpenApiRouter) : Prop :=
  (if NODE_ENV_production then None else generateOpenApiDocument router) = None.

(** ** The AWS Lambda handler ([createOpenApiAwsLambdaHandler]) *)

(** The [Error] a [TRPCError] keeps as its [cause]. *)
Definition cause_of (t : Thrown) : option JsError :=
  match t with
  | ThrownError e => Some e
  | ThrownTRPCError e =>
      Some {| error_name := "TRPCError"; error_message := trpc_message e;
              error_code := Some (code_name (trpc_code e)); error_errors := None |}
  | ThrownValue _ _ => None
  end.

(** [new TRPCError({ message: 'Failed to parse request body', code:
    'PARSE_ERROR', cause })]. *)
Definition parse_error (cause : Thrown) : TRPCError :=
  {| trpc_code := PARSE_ERROR; trpc_message := "Failed to parse request body";
     trpc_cause := cause_of cause |}.

(** [{ ...opts, createContext }], where the new [createContext] calls
    the one of the Lambda options, if any, on the event. The Lambda
    options have no [maxBodySize] to pass on. *)
Definition lambda_node_opts (opts : CreateOpenApiAwsLambdaHandlerOptions)
    (event : LambdaEvent) : CreateOpenApiNodeHttpHandlerOptions :=
  {| opts_router := lambda_router opts;
     opts_createContext :=
       Some (λ _, match lambda_createContext opts with
                  | Some f => f event
                  | None => Return JUndefined
                  end);
     opts_responseMeta := lambda_responseMeta opts;
     opts_onError := lambda_onError opts;
     opts_maxBodySize := None |}.

(** [determinePayloadFormat]. *)
Definition determinePayloadFormat (event : LambdaEvent) : string :=
  match event_version event with
  | None => "1.0"
  | Some version => version
  end.

(** [utils.convertKeysToLowerCase] of node-mocks-http: the headers
    under their names in lower case, a later header replacing an
    earlier one of the same name. *)
Definition convertKeysToLowerCase (hs : list (string * string)) :
    list (string * string) :=
  foldl (λ acc '(key, value), Map_set String.eqb (toLowerCase key) value acc) [] hs.

(** The response the mock starts as, before anything is written to it. *)
Definition createMockNodeHTTPResponse : HttpResponse :=
  {| statusCode := 200; headers := []; body := None |}.

(** [event.headers[Object.keys(event.headers).find((key) =>
    key.toLowerCase() === 'content-type') ?? '']]. *)
Definition event_contentType (event : LambdaEvent) : option string :=
  Map_get String.eqb
    (default EmptyString
       (find (λ key, String.eqb (toLowerCase key) "content-type")
          (Map_keys (event_headers event))))
    (event_headers event).

(** The payload format is one of the two that the handler supports. *)
Definition supported_version (event : LambdaEvent) : Prop :=
  determinePayloadFormat event = "1.0" ∨ determinePayloadFormat event = "2.0".

(** The method of the event can be read: [httpMethod] is set, or
    [requestContext.http] is there to look the method up in. *)
Definition has_method (event : LambdaEvent) : Prop :=
  truthy (event_httpMethod event) = true
  ∨ is_Some (event_requestContext_http_method event).

(** [event.path || event.rawPath || '/']. *)
Definition event_url (event : LambdaEvent) : string :=
  default "/" (or_else (event_path event) (or_else (event_rawPath event) (Some "/"))).

Section AwsLambda.
Context {env : Environment}.

(** [try { body = event.body ? parse(event.body) : undefined } catch
    (cause) { throw new TRPCError({ ..., code: 'PARSE_ERROR', cause }) }]. *)
Definition parse_body {L} (parse : string → Completion JsValue)
    (decoding : string → Decoding) (event : LambdaEvent) : Exec L JsValue :=
  if truthy (event_body event) then
    let text := default EmptyString (event_body event) in
    let* _ := emit (EvDecode (decoding text)) in
    match parse text with
    | Return v => ret v
    | Throw cause => throw (ThrownTRPCError (parse_error cause))
    end
  else ret JUndefined.

(** [createRequest] of node-mocks-http. The library is not among the
    sources: this is a model of what it does with the options that the
    Lambda handler passes, and the properties of the mock request hold
    of the library as far as the model does. The method defaults
    to GET, the names of the headers are put in lower case, a falsy
    [body] or [query] becomes the empty object, and a query without
    keys is replaced by what [querystring.parse] makes of the text
    after the first [?] of the URL. *)
Definition createRequest (url method : string) (q : JsValue)
    (hs : list (string * string)) (b : JsValue) : Completion NodeHTTPRequest :=
  let query := if value_truthy q then q else JObj ∅ in
  let request (query : JsValue) :=
    {| req_method := if String.eqb method EmptyString then "GET" else method;
       req_url := url;
       req_headers := convertKeysToLowerCase hs;
       req_query := query;
       req_body := Some (if value_truthy b then b else JObj ∅);
       req_stream := EmptyString |} in
  if Nat.eqb (size (own_properties query)) 0 then
    match split "?" url with
    | _ :: text :: _ =>
        match querystring_parse text with
        | Return parsed => Return (request parsed)
        | Throw t => Throw t
        end
    | _ => Return (request (JObj ∅))
    end
  else Return (request query).

Definition createMockNodeHTTPRequest {L} (path : string) (event : LambdaEvent) :
    Exec L NodeHTTPRequest :=
  let url := event_url event in
  let* method :=
    if truthy (event_httpMethod event) then ret (event_httpMethod event)
    else match event_requestContext_http_method event with
         | None =>
             throw (ThrownError
                      {| error_name := "TypeError";
                         error_message := "Cannot read properties of undefined";
                         error_code := None; error_errors := None |})
         | Some m => ret (or_else m (Some "GET"))
         end in
  let method := toUpperCase (default "GET" method) in
  let contentType := event_contentType event in
  let* b :=
    if bool_decide (contentType = Some "application/json") then
      parse_body JSON_parse JSONParse event
    else if bool_decide (contentType = Some "application/x-www-form-urlencoded") then
      parse_body querystring_parse QuerystringParse event
    else ret JUndefined in
  of_completion
    (createRequest url method
       (default JUndefined (event_queryStringParameters event))
       (event_headers event) b).

(** The [try] block of the handler; the local is its variable [path]. *)
Definition lambda_try (opts : CreateOpenApiAwsLambdaHandlerOptions)
    (event : LambdaEvent) : Exec (option string) HttpResponse :=
  let version := determinePayloadFormat event in
  if (negb (String.eqb version "1.0") && negb (String.eqb version "2.0"))%bool then
    throw (ThrownTRPCError
             (new_TRPCError INTERNAL_SERVER_ERROR
                ("Unsupported payload format version: " ++ version)))
  else
    let* openApiHttpHandler :=
      of_completion (createOpenApiNodeHttpHandler (lambda_node_opts opts event)) in
    let path := event_url event in
    let* _ := modify_locals (λ _, Some path) in
    let* req := createMockNodeHTTPRequest path event in
    let res := createMockNodeHTTPResponse in
    let* outcome := call (openApiHttpHandler req false) initial_locals in
    ret (if outcome is Sent written then written else res).

(** [opts.responseMeta?.({ ..., errors: [error] })] in the [catch]
    block of the handler. *)
Definition lambda_error_meta (opts : CreateOpenApiAwsLambdaHandlerOptions)
    (path : option string) (error : TRPCError) : option ResponseMeta :=
  (λ responseMeta, responseMeta
     {| rm_type := None; rm_paths := Some [path]; rm_ctx := JUndefined;
        rm_data := [JUndefined]; rm_errors := [error] |})
  <$> lambda_responseMeta opts.

(** The [catch] block of the handler. *)
Definition lambda_catch (opts : CreateOpenApiAwsLambdaHandlerOptions)
    (cause : Thrown) : Exec (option string) HttpResponse :=
  let error := getErrorFromUnknown cause in
  let* path := get_locals in
  let* _ := if lambda_onError opts then emit (EvOnError error JUndefined JUndefined)
            else ret () in
  let meta := lambda_error_meta opts path error in
  let errorShape_message := router_errorFormatter (lambda_router opts) error path in
  let status :=
    default 500 (nullish (meta ≫= meta_status) (getHTTPStatusCodeFromError error)) in
  let hs :=
    foldl (λ acc '(key, value), Map_set String.eqb key value acc)
      [("content-type", "application/json")] (default [] (meta ≫= meta_headers)) in
  let b :=
    OpenApiErrorResponse
      (default "An error occurred"
         (nullish errorShape_message (Some (trpc_message error))))
      (trpc_code error) None in
  ret {| statusCode := status; headers := hs; body := Some b |}.

Definition createOpenApiAwsLambdaHandler (opts : CreateOpenApiAwsLambdaHandlerOptions)
    (event : LambdaEvent) : Exec (option string) HttpResponse :=
  try_catch (lambda_try opts event) (lambda_catch opts).

(** One invocation of the Lambda handler, from an empty trace. *)
Definition invoke_lambda (opts : CreateOpenApiAwsLambdaHandlerOptions)
    (event : LambdaEvent) : Result (option string) HttpResponse :=
  createOpenApiAwsLambdaHandler opts event None [].

(** One request to the node-http handler, from an empty trace. *)
Definition handle (opts : CreateOpenApiNodeHttpHandlerOptions)
    (req : NodeHTTPRequest) (next : bool) : Result Locals Outcome :=
  openApiHttpHandler opts req next initial_locals [].
End AwsLambda.

(** ** The body limit, as the design document words it

    Section 4.4: the limit is enforced before the body is decoded, and a
    body that exceeds it fails the request, as BAD_REQUEST or
    PAYLOAD_TOO_LARGE. *)

(** The response a run ended with, if it sent one. *)
Definition sent_response (c : Completion Outcome) : option HttpResponse :=
  match c with
  | Return (Sent res) => Some res
  | Return CalledNext | Throw _ => None
  end.

Definition returned_response (c : Completion HttpResponse) : option HttpResponse :=
  match c with
  | Return res => Some res
  | Throw _ => None
  end.

(** Nothing was decoded, and the response is a failure with one of the
    two codes. *)
Definition rejected_for_size (t : list Event) (response : option HttpResponse) : Prop :=
  (∀ d, EvDecode d ∉ t)
  ∧ ∃ res message code issues,
      response = Some res
      ∧ body res = Some (OpenApiErrorResponse message code issues)
      ∧ (code = BAD_REQUEST ∨ code = PAYLOAD_TOO_LARGE).

(** ** The malformed body, as the design document words it

    Section 4.4: a request that carries the content type
    [application/json] and whose body is not valid JSON fails with
    PARSE_ERROR, status 400 and the message "Failed to parse request
    body", and no procedure is invoked. *)

(** The header names the media type [application/json], with or
    without parameters. *)
Definition carries_json (contentType : option string) : bool :=
  if contentType is Some value then
    String.eqb value "application/json" || startsWith "application/json;" value
  else false.

(** No procedure was called, and the response is the PARSE_ERROR
    envelope with status 400. *)
Definition rejected_as_malformed (t : list Event) (response : option HttpResponse) :
    Prop :=
  (∀ p input, EvCall p input ∉ t)
  ∧ ∃ res,
      response = Some res
      ∧ statusCode res = 400
      ∧ body res = Some (OpenApiErrorResponse "Failed to parse request body"
                           PARSE_ERROR None).

(** ** The lookup, as the design document words it

    Section 4.2: every enabled procedure of a recognized kind is
    registered under its declared method with its compiled pattern, and
    a lookup scans the patterns registered for the method, in
    registration order, for the first that matches. *)

(** One registration: the method, the normalized template and the
    descriptor. *)
Record Registration : Type := {
  reg_method : OpenApiMethod;
  reg_template : string;
  reg_entry : CacheEntry;
}.

(** The argument of the callback of [forEachOpenApiProcedure], for an
    entry of the router that gets one. *)
Definition callback_values (entry : string * OpenApiProcedure) : option CallbackValues :=
  let '(path, procedure) := entry in
  match def_openapi procedure with
  | Some openapi =>
      if openapi_enabled openapi is Some false then None
      else (λ type, {| cb_path := path; cb_type := type;
                       cb_procedure := procedure; cb_openapi := openapi |})
           <$> getProcedureType procedure
  | None => None
  end.

Definition is_method_name (key : string) : Prop := ∃ m, key = method_name m.

Section Lookup.
Context {env : Environment}.

Definition registration_of (entry : string * OpenApiProcedure) : option Registration :=
  let '(path, procedure) := entry in
  match def_openapi procedure, def_type procedure with
  | Some openapi, Some ((query | mutation) as type) =>
      if openapi_enabled openapi is Some false then None
      else Some {| reg_method := openapi_method openapi;
                   reg_template := normalizePath (openapi_path openapi);
                   reg_entry := {| entry_type := type; entry_path := path;
                                   entry_procedure := procedure |} |}
  | _, _ => None
  end.

(** The registrations of a router, in registration order. *)
Definition registrations (router : OpenApiRouter) : list Registration :=
  omap registration_of (router_procedures router).

(** The registration is under [method] and its pattern matches [path]. *)
Definition reg_matches (method path : string) (r : Registration) : bool :=
  String.eqb (method_name (reg_method r)) method
  && bool_decide (is_Some (path_exec (reg_template r) path)).

Definition found_of (path : string) (r : Registration) : Found :=
  {| found_procedure := Some (reg_entry r);
     found_pathInput := default ∅ (mjoin (path_exec (reg_template r) path)) |}.

Definition first_match (regs : list Registration) (method path : string) : option Found :=
  found_of path <$> find (reg_matches method path) regs.

(** The registration that a call of the callback makes, if any. *)
Definition reg_of_values (values : CallbackValues) : option Registration :=
  match def_type (cb_procedure values) with
  | Some ((query | mutation) as type) =>
      Some {| reg_method := openapi_method (cb_openapi values);
              reg_template := normalizePath (openapi_path (cb_openapi values));
              reg_entry := {| entry_type := type; entry_path := cb_path values;
                              entry_procedure := cb_procedure values |} |}
  | Some subscription | None => None
  end.

(** The patterns registered under a method, in the order of the [Map]. *)
Definition entries_for (cache : ProcedureCache) (method : string) :
    list (RegExp * CacheEntry) :=
  default [] (Map_get same_method method cache).

(** The cache under construction holds the registrations [regs]: under
    every method, the patterns of the registrations for that method, in
    their order, each in a [RegExp] of its own that was allocated
    before the next free address. *)
Definition cache_holds (st : CacheState) (regs : list Registration) : Prop :=
  ∀ method,
    (λ '(re, entry), (re_source re, entry)) <$> entries_for (procedureCache st) method
    = (λ r, (reg_template r, reg_entry r))
        <$> filter (λ r, method_name (reg_method r) = method) regs
    ∧ Forall (λ re, (re_ref re < next_ref st)%nat)
        (Map_keys (entries_for (procedureCache st) method))
    ∧ NoDup (re_ref <$> Map_keys (entries_for (procedureCache st) method)).
End Lookup.

(** ** An environment to run the handlers in

    The platform functions on the inputs used below, and the helper
    modules that the sources import but do not contain, after the
    design document. *)

Module Sample.

Definition quote : ascii := ascii_of_nat 34.

Definition is_digit (c : ascii) : bool :=
  let n := nat_of_ascii c in (Nat.leb 48 n && Nat.leb n 57)%bool.

Fixpoint read_digits (s : string) (acc : Z) : Z * string :=
  match s with
  | String c rest =>
      if is_digit c then read_digits rest (acc * 10 + Z.of_nat (nat_of_ascii c - 48))
      else (acc, s)
  | EmptyString => (acc, s)
  end.

(** The characters up to the closing quote of a string literal that
    has no escape sequence. *)
Fixpoint read_string (s : string) : option (string * string) :=
  match s with
  | EmptyString => None
  | String c rest =>
      if Ascii.eqb c quote then Some (EmptyString, rest)
      else if Ascii.eqb c "\" then None
      else '(text, rest') ← read_string rest; Some (String c text, rest')
  end.

Fixpoint drop_chars (n : nat) (s : string) : string :=
  match n, s with
  | S n', String _ rest => drop_chars n' rest
  | _, _ => s
  end.

(** A parser for JSON texts without white space, escape sequences,
    signs, fractions and exponents. *)
Fixpoint parse_value (fuel : nat) (s : string) : option (JsValue * string) :=
  match fuel, s with
  | S fuel, String c rest =>
      if Ascii.eqb c quote then
        '(text, rest') ← read_string rest; Some (JStr text, rest')
      else if Ascii.eqb c "[" then
        if startsWith "]" rest then Some (JArr [], drop_chars 1 rest)
        else '(items, rest') ← parse_items fuel rest; Some (JArr items, rest')
      else if Ascii.eqb c "{" then
        if startsWith "}" rest then Some (JObj ∅, drop_chars 1 rest)
        else '(members, rest') ← parse_members fuel rest;
             Some (JObj (foldl (λ o '(k, v), <[k:=v]> o) ∅ members), rest')
      else if is_digit c then
        if (Ascii.eqb c "0" && (if rest is String d _ then is_digit d else false))%bool
        then None
        else let '(n, rest') := read_digits s 0 in Some (JNum n, rest')
      else if startsWith "true" s then Some (JBool true, drop_chars 4 s)
      else if startsWith "false" s then Some (JBool false, drop_chars 5 s)
      else if startsWith "null" s then Some (JNull, drop_chars 4 s)
      else None
  | _, _ => None
  end
with parse_items (fuel : nat) (s : string) : option (list JsValue * string) :=
  match fuel with
  | S fuel =>
      match parse_value fuel s with
      | Some (v, String "," rest) =>
          '(items, rest') ← parse_items fuel rest; Some (v :: items, rest')
      | Some (v, String "]" rest) => Some ([v], rest)
      | _ => None
      end
  | O => None
  end
with parse_members (fuel : nat) (s : string) :
    option (list (string * JsValue) * string) :=
  match fuel, s with
  | S fuel, String c rest =>
      if Ascii.eqb c quote then
        match read_string rest with
        | Some (key, String ":" rest') =>
            match parse_value fuel rest' with
            | Some (v, String "," rest'') =>
                '(members, rest3) ← parse_members fuel rest'';
                Some ((key, v) :: members, rest3)
            | Some (v, String "}" rest'') => Some ([(key, v)], rest'')
            | _ => None
            end
        | _ => None
        end
      else None
  | _, _ => None
  end.

Definition SyntaxError : JsError :=
  {| error_name := "SyntaxError"; error_message := "Unexpected token";
     error_code := None; error_errors := None |}.

Definition JSON_parse (text : string) : Completion JsValue :=
  match parse_value (S (String.length text)) text with
  | Some (v, EmptyString) => Return v
  | _ => Throw (ThrownError SyntaxError)
  end.

(** [querystring.parse] on text without escapes: [k=v] pairs
    separated by [&]; a repeated key collects its values in an array. *)
Definition add_pair (o : gmap string JsValue) (pair : string) : gmap string JsValue :=
  match split "=" pair with
  | key :: rest =>
      let v := JStr (String.concat "=" rest) in
      match o !! key with
      | Some (JArr vs) => <[key := JArr (vs ++ [v])]> o
      | Some old => <[key := JArr [old; v]]> o
      | None => <[key := v]> o
      end
  | [] => o
  end.

Definition querystring_parse (text : string) : Completion JsValue :=
  Return (JObj (foldl add_pair ∅
                  (filter (λ pair, pair ≠ EmptyString) (split "&" text)))).

Fixpoint until_char (c : ascii) (s : string) : string * string :=
  match s with
  | EmptyString => (EmptyString, EmptyString)
  | String d rest =>
      if Ascii.eqb d c then (EmptyString, s)
      else let '(before, after) := until_char c rest in (String d before, after)
  end.

(** [new URL] on the URLs the handler builds from an origin-form
    request target. *)
Definition new_URL (s : string) : option URL :=
  if startsWith "http://127.0.0.1/" s then
    let '(p, q) := until_char "?" (drop_chars 16 s) in
    Some {| pathname := p; search := q |}
  else None.

Fixpoint drop_trailing_slash (s : string) : string :=
  match s with
  | EmptyString => EmptyString
  | String c EmptyString => if Ascii.eqb c "/" then EmptyString else s
  | String c rest => String c (drop_trailing_slash rest)
  end.

(** Modelled from the spec: [normalizePath] of [utils/path] is not in
    the sources. Section 4.1: normalization removes the difference
    between [/hello], [hello] and [hello/]. *)
Definition normalizePath (path : string) : string :=
  String "/" (drop_trailing_slash (if startsWith "/" path then drop_chars 1 path else path)).

(** Modelled from the spec: [getPathRegExp] of [utils/path] is not in
    the sources. Section 4.1: a template segment that starts with [:]
    captures the path segment in its place, any other segment has to
    be equal to it, and both need the same number of segments. *)
Fixpoint match_segments (template path : list string) : option (gmap string JsValue) :=
  match template, path with
  | [], [] => Some ∅
  | t :: template', p :: path' =>
      match t with
      | String ":" name =>
          groups ← match_segments template' path'; Some (<[name := JStr p]> groups)
      | _ => if String.eqb t p then match_segments template' path' else None
      end
  | _, _ => None
  end.

Definition path_exec (template path : string) : option (option (gmap string JsValue)) :=
  let segments := split "/" template in
  groups ← match_segments segments (split "/" path);
  Some (if existsb (startsWith ":") segments then Some groups else None).

(** Modelled from the spec: [acceptsRequestBody] of [utils/method] is
    not in the sources. Section 4.5: GET and HEAD carry no body; POST,
    PUT, PATCH and DELETE do. *)
Definition acceptsRequestBody (method : string) : bool :=
  bool_decide (method ∈ ["POST"; "PUT"; "PATCH"; "DELETE"]).

Definition exceeds (maxBodySize : option nat) (raw : string) : bool :=
  if maxBodySize is Some limit then Nat.ltb limit (String.length raw) else false.

Definition decoded (ev : Decoding) (c : Completion JsValue) : Eff JsValue :=
  ([ev], if c is Throw cause then Throw (ThrownTRPCError (parse_error cause)) else c).

(** Modelled from the spec: [getBody] of [adapters/node-http/input]
    is not in the sources. Section 4.4: the size limit is enforced
    before the body is decoded; [application/json] is parsed as JSON
    and fails with PARSE_ERROR when malformed;
    [application/x-www-form-urlencoded] is parsed as key/value pairs;
    a body of another content type passes through undecoded; no body
    and no content type yield [undefined]. A request that already has
    a [body] property, as the mock request of the gateway normalizer
    has, yields that property, which is what the Lambda tests of the
    sources observe. *)
Definition getBody (req : NodeHTTPRequest) (maxBodySize : option nat) : Eff JsValue :=
  match req_body req with
  | Some b => ([], Return b)
  | None =>
      let raw := req_stream req in
      if exceeds maxBodySize raw then
        ([], Throw (ThrownTRPCError
                      (new_TRPCError PAYLOAD_TOO_LARGE "Request body too large")))
      else
        match Map_get String.eqb "content-type" (req_headers req) with
        | Some contentType =>
            if String.eqb contentType "application/json" then
              decoded (JSONParse raw) (JSON_parse raw)
            else if String.eqb contentType "application/x-www-form-urlencoded" then
              decoded (QuerystringParse raw) (querystring_parse raw)
            else ([], Return (JStr raw))
        | None => ([], Return (if raw is EmptyString then JUndefined else JStr raw))
        end
  end.

(** Modelled from the spec: [getQuery] of [adapters/node-http/input]
    is not in the sources. Section 3: the query parameters of the
    request, a mapping from names to strings or arrays of strings;
    they are the [query] property of a request that has one and are
    parsed from the URL otherwise. *)
Definition getQuery (req : NodeHTTPRequest) (url : URL) : Eff JsValue :=
  match req_query req with
  | JUndefined =>
      let text := drop_chars 1 (search url) in
      ([QuerystringParse text],
       if querystring_parse text is Return v then Return v else Return (JObj ∅))
  | q => ([], Return q)
  end.

#[export] Instance env : Environment :=
  Build_Environment new_URL JSON_parse querystring_parse false normalizePath
    path_exec acceptsRequestBody getBody getQuery (λ _, None).

(** *** A router, after the one of the Lambda tests *)

Definition procedure_of (method : OpenApiMethod) (path : string)
    (type : ProcedureType) (inputs : list ZodType) : OpenApiProcedure :=
  {| def_openapi := Some {| openapi_enabled := None; openapi_method := method;
                            openapi_path := path |};
     def_type := Some type; def_inputs := inputs |}.

Definition greeting (name : string) : JsValue :=
  JObj {[ "greeting" := JStr ("Hello " ++ name) ]}.

(** The issue zod reports for a missing required string [name]. *)
Definition required_name : JsValue :=
  JObj (<["code" := JStr "invalid_type"]>
       (<["expected" := JStr "string"]>
       (<["message" := JStr "Required"]>
       (<["path" := JArr [JStr "name"]]>
       (<["received" := JStr "undefined"]> ∅))))).

Definition ZodError (issues : list JsValue) : JsError :=
  {| error_name := "ZodError"; error_message := "Invalid input";
     error_code := None; error_errors := Some issues |}.

(** The input parser of [postHello], [z.object({ name: z.string() })],
    followed by its resolver. *)
Definition postHello (input : JsValue) : Completion JsValue :=
  match own_properties input !! "name" with
  | Some (JStr name) => Return (greeting name)
  | _ => Throw (ThrownTRPCError
                  {| trpc_code := BAD_REQUEST; trpc_message := "Invalid input";
                     trpc_cause :=
                       Some {| error_name := "ZodError"; error_message := "Invalid input";
                               error_code := None;
                               error_errors := Some [required_name] |} |})
  end.

Definition getHello (input : JsValue) : Completion JsValue :=
  match own_properties input !! "name" with
  | Some (JStr name) => Return (greeting name)
  | _ => Return (greeting "world")
  end.

(** A resolver that rejects its caller with a plain BAD_REQUEST. *)
Definition rejectAll (input : JsValue) : Completion JsValue :=
  Throw (ThrownTRPCError (new_TRPCError BAD_REQUEST "No more greetings")).

(** A resolver that returns its input. *)
Definition echo (input : JsValue) : Completion JsValue := Return input.

Definition router : OpenApiRouter :=
  {| router_procedures :=
       [("getHello", procedure_of GET "/hello" query [ZodObject]);
        ("postHello", procedure_of POST "/hello" mutation [ZodObject]);
        ("getHelloArray", procedure_of POST "/array" query [ZodArray]);
        ("getUser", procedure_of GET "/users/:id" query [ZodObject]);
        ("getMe", procedure_of GET "/users/me" query [ZodObject]);
        ("reject", procedure_of PUT "/hello" mutation [ZodObject]);
        ("ping", procedure_of POST "/ping" mutation [ZodLikeVoid])];
     router_errorFormatter := defaultFormatter;
     router_createCaller := λ ctx segments,
       match segments with
       | ["getHello"] => Some getHello
       | ["postHello"] => Some postHello
       | ["getHelloArray"] | ["getUser"] | ["getMe"] => Some echo
       | ["reject"] => Some rejectAll
       | ["ping"] => Some (λ _, Return (JStr "pong"))
       | _ => None
       end |}.

Definition node_opts : CreateOpenApiNodeHttpHandlerOptions :=
  {| opts_router := router; opts_createContext := None; opts_responseMeta := None;
     opts_onError := false; opts_maxBodySize := None |}.

(** The same handler with a body limit of ten bytes. *)
Definition limited_opts : CreateOpenApiNodeHttpHandlerOptions :=
  {| opts_router := router; opts_createContext := None; opts_responseMeta := None;
     opts_onError := false; opts_maxBodySize := Some 10%nat |}.

Definition lambda_opts : CreateOpenApiAwsLambdaHandlerOptions :=
  {| lambda_router := router; lambda_createContext := None;
     lambda_responseMeta := None; lambda_onError := false |}.

(** A request that came over the wire. *)
Definition wire_request (method url : string) (hs : list (string * string))
    (raw : string) : NodeHTTPRequest :=
  {| req_method := method; req_url := url; req_headers := hs;
     req_query := JUndefined; req_body := None; req_stream := raw |}.

(** A version 1 gateway event. *)
Definition event_v1 (method path : string) (hs : list (string * string))
    (raw : option string) : LambdaEvent :=
  {| event_version := None; event_path := Some path; event_rawPath := None;
     event_httpMethod := Some method; event_requestContext_http_method := None;
     event_headers := hs; event_body := raw;
     event_queryStringParameters := None |}.

Definition json : list (string * string) := [("content-type", "application/json")].

(** The text [["Steve","Mary"]], of 16 characters. *)
Definition steve_mary : string :=
  "[" ++ String quote "Steve" ++ String quote "," ++ String quote "Mary"
      ++ String quote "]".

(** The text [{"a":1}]. *)
Definition a_is_1 : string := "{" ++ String quote "a" ++ String quote ":1}".

(** The event [{ version: 'asdf' }] of the Lambda tests. *)
Definition bad_event : LambdaEvent :=
  {| event_version := Some "asdf"; event_path := None; event_rawPath := None;
     event_httpMethod := None; event_requestContext_http_method := None;
     event_headers := []; event_body := None;
     event_queryStringParameters := None |}.

(** What [postHello] throws on an input without [name]. *)
Definition missing_name : Thrown :=
  ThrownTRPCError {| trpc_code := BAD_REQUEST; trpc_message := "Invalid input";
                     trpc_cause := Some (ZodError [required_name]) |}.

(** The cache entries of [getUser] and [getHelloArray]. *)
Definition getUser_entry : CacheEntry :=
  {| entry_type := query; entry_path := "getUser";
     entry_procedure := procedure_of GET "/users/:id" query [ZodObject] |}.

Definition getHelloArray_entry : CacheEntry :=
  {| entry_type := query; entry_path := "getHelloArray";
     entry_procedure := procedure_of POST "/array" query [ZodArray] |}.

End Sample.

(** ** Further notions about a request *)

(** What [createContext] returns or throws for a request; [undefined]
    when the options have no [createContext]. *)
Definition context_of (opts : CreateOpenApiNodeHttpHandlerOptions)
    (req : NodeHTTPRequest) : Completion JsValue :=
  match opts_createContext opts with
  | Some createContext => createContext req
  | None => Return JUndefined
  end.

(** The events of [createContext]: one when the hook is configured. *)
Definition context_events (opts : CreateOpenApiNodeHttpHandlerOptions) : list Event :=
  if opts_createContext opts is Some _ then [EvCreateContext] else [].

(** [responseMeta?.({ ..., data: [data], errors: [] })] after a call
    that returned. *)
Definition success_meta (opts : CreateOpenApiNodeHttpHandlerOptions)
    (procedure : CacheEntry) (ctx data : JsValue) : option ResponseMeta :=
  (λ responseMeta, responseMeta
     {| rm_type := Some (entry_type procedure);
        rm_paths := Some [Some (entry_path procedure)];
        rm_ctx := ctx; rm_data := [data]; rm_errors := [] |})
  <$> opts_responseMeta opts.

Definition is_call (ev : Event) : bool :=
  if ev is EvCall _ _ then true else false.

Definition is_report (ev : Event) : bool :=
  if ev is EvOnError _ _ _ then true else false.

Definition is_decoding (ev : Event) : bool :=
  if ev is EvDecode _ then true else false.

(** The locals after the context was stored. *)
Definition with_ctx (l : Locals) (ctx : JsValue) : Locals :=
  {| var_input := var_input l; var_ctx := ctx; var_data := var_data l |}.

(** The envelope that the [catch] block of the node-http handler sends
    for an error, given the locals at the time of the throw. *)
Definition error_envelope (opts : CreateOpenApiNodeHttpHandlerOptions)
    (path : string) (procedure : option CacheEntry) (l : Locals)
    (error : TRPCError) : HttpResponse :=
  sendResponse
    (default (TRPC_ERROR_CODE_HTTP_STATUS (trpc_code error))
       (error_meta opts procedure l error ≫= meta_status))
    (headersToRecord (default [] (error_meta opts procedure l error ≫= meta_headers)))
    (Some (OpenApiErrorResponse
       (if isInputValidationError error then "Input validation failed"
        else default (trpc_message error)
               (router_errorFormatter (opts_router opts) error (Some path)))
       (trpc_code error)
       (if isInputValidationError error then trpc_cause error ≫= error_errors
        else None))).


(** What the node-http handler does with a matched procedure once the
    input is reconciled, by the outcome of [createContext], of the
    caller and of the procedure: [l0] and [t0] are the locals and the
    trace after the reconciliation. *)
Definition dispatch (opts : CreateOpenApiNodeHttpHandlerOptions) (req : NodeHTTPRequest)
    (path : string) (entry : CacheEntry) (l0 : Locals) (t0 : list Event) :
    Result Locals Outcome :=
  let not_found := new_TRPCError INTERNAL_SERVER_ERROR "Procedure not found" in
  let called := [EvCall (entry_path entry) (var_input l0)] in
  match context_of opts req with
  | Throw cause =>
      catch_block opts path (Some entry) cause l0 (t0 ++ context_events opts)
  | Return ctx =>
      match router_createCaller (opts_router opts) ctx (split "." (entry_path entry)) with
      | None =>
          catch_block opts path (Some entry) (ThrownTRPCError not_found)
            (with_ctx l0 ctx) (t0 ++ context_events opts)
      | Some procedureFn =>
          match procedureFn (var_input l0) with
          | Throw cause =>
              catch_block opts path (Some entry) cause (with_ctx l0 ctx)
                (t0 ++ context_events opts ++ called)
          | Return data =>
              {| final := {| var_input := var_input l0; var_ctx := ctx;
                             var_data := data |};
                 trace := t0 ++ context_events opts ++ called;
                 completion :=
                   Return (Sent (sendResponse
                     (default 200 (success_meta opts entry ctx data ≫= meta_status))
                     (headersToRecord
                        (default [] (success_meta opts entry ctx data ≫= meta_headers)))
                     (Some (OpenApiSuccessResponse data)))) |}
          end
      end
  end%list.

(** The request is matched to [entry], and the reconciliation of its
    input returned, leaving the locals [l0] and the trace [t0]. *)
Definition reconciled {env : Environment} (opts : CreateOpenApiNodeHttpHandlerOptions)
    (req : NodeHTTPRequest) (url : URL) (entry : CacheEntry)
    (pathInput : gmap string JsValue) (l0 : Locals) (t0 : list Event) : Prop :=
  new_URL (request_target (req_url req)) = Some url
  ∧ createProcedureCache (opts_router opts) (req_method req)
      (normalizePath (pathname url))
    = Some {| found_procedure := Some entry; found_pathInput := pathInput |}
  ∧ reconcile_input opts req (req_method req) url entry pathInput initial_locals
      [EvGetProcedure (req_method req) (normalizePath (pathname url))]
    = {| final := l0; trace := t0; completion := Return () |}.


(** The response is a failure envelope. *)
Definition is_error_response (res : HttpResponse) : bool :=
  if body res is Some (OpenApiErrorResponse _ _ _) then true else false.

(** *** Further routers and requests to run the handlers on *)

Module Cases.
Import Sample.

(** A resolver that rejects a caller named Steve, as [throwUnauthorized]
    of the Lambda tests does. *)
Definition throwUnauthorized (input : JsValue) : Completion JsValue :=
  match own_properties input !! "name" with
  | Some (JStr "Steve") =>
      Throw (ThrownTRPCError (new_TRPCError UNAUTHORIZED "UNAUTHORIZED"))
  | Some (JStr name) => Return (greeting name)
  | _ => Return (greeting "world")
  end.

(** A router with [getHello], [throwUnauthorized], a subscription and a
    disabled procedure; its caller has no function for [lost]. *)
Definition router : OpenApiRouter :=
  {| router_procedures :=
       [("getHello", procedure_of GET "/hello" query [ZodObject]);
        ("throwUnauthorized", procedure_of GET "/unauthorized" query [ZodObject]);
        ("onHello",
         {| def_openapi := Some {| openapi_enabled := None; openapi_method := GET;
                                   openapi_path := "/events" |};
            def_type := Some subscription; def_inputs := [ZodObject] |});
        ("hidden",
         {| def_openapi := Some {| openapi_enabled := Some false; openapi_method := GET;
                                   openapi_path := "/hidden" |};
            def_type := Some query; def_inputs := [ZodObject] |});
        ("lost", procedure_of GET "/lost" query [ZodLikeVoid]);
        ("ping", procedure_of POST "/ping/:id" mutation [ZodLikeVoid])];
     router_errorFormatter := defaultFormatter;
     router_createCaller := λ ctx segments,
       match segments with
       | ["getHello"] => Some getHello
       | ["throwUnauthorized"] => Some throwUnauthorized
       | ["ping"] => Some (λ input, Return (JArr [input]))
       | _ => None
       end |}.

Definition opts : CreateOpenApiNodeHttpHandlerOptions :=
  {| opts_router := router; opts_createContext := None; opts_responseMeta := None;
     opts_onError := true; opts_maxBodySize := None |}.

(** The same handler with a [createContext] that throws. *)
Definition no_session : JsError :=
  {| error_name := "Error"; error_message := "no session"; error_code := None;
     error_errors := None |}.

Definition guarded_opts : CreateOpenApiNodeHttpHandlerOptions :=
  {| opts_router := router; opts_createContext := Some (λ _, Throw (ThrownError no_session));
     opts_responseMeta := None; opts_onError := true; opts_maxBodySize := None |}.



Definition get (url : string) : NodeHTTPRequest := wire_request "GET" url [] EmptyString.

Definition entry_of (path : string) (procedure : OpenApiProcedure) : CacheEntry :=
  {| entry_type := default query (def_type procedure); entry_path := path;
     entry_procedure := procedure |}.

Definition getHello_entry : CacheEntry :=
  entry_of "getHello" (procedure_of GET "/hello" query [ZodObject]).
Definition throwUnauthorized_entry : CacheEntry :=
  entry_of "throwUnauthorized" (procedure_of GET "/unauthorized" query [ZodObject]).
Definition lost_entry : CacheEntry :=
  entry_of "lost" (procedure_of GET "/lost" query [ZodLikeVoid]).
Definition ping_entry : CacheEntry :=
  entry_of "ping" (procedure_of POST "/ping/:id" mutation [ZodLikeVoid]).

Definition url_of (path query : string) : URL := {| pathname := path; search := query |}.

Definition looked_up (method path : string) : list Event := [EvGetProcedure method path].
End Cases.

(** ** Runs from a trace that is not empty *)

(** The result of a run, had the run started after the events [t]. *)
Definition shift {L A} (t : list Event) (r : Result L A) : Result L A :=
  {| final := final r; trace := t ++ trace r; completion := completion r |}.

(** A computation does not look at the trace: started after [t] it does
    what it does from the empty trace, after [t]. *)
Definition uniform {L A} (m : Exec L A) : Prop :=
  ∀ l t, m l t = shift t (m l []).

(** The method of the event cannot be read: [httpMethod] is not set and
    there is no [requestContext.http]. *)
Definition lacks_method (event : LambdaEvent) : Prop :=
  truthy (event_httpMethod event) = false
  ∧ event_requestContext_http_method event = None.

(** The body of the event is parsed: it is not empty and the content
    type is one of the two that the mock request decodes. *)
Definition body_is_parsed (event : LambdaEvent) : bool :=
  truthy (event_body event)
  && (bool_decide (event_contentType event = Some "application/json")
      || bool_decide (event_contentType event = Some "application/x-www-form-urlencoded")).

(** What a decoding yields: the result of the call it stands for. *)
Definition run_decoding {env : Environment} (d : Decoding) : Completion JsValue :=
  match d with
  | JSONParse text => JSON_parse text
  | QuerystringParse text => querystring_parse text
  end.

(** The decoding of the body of an event by the parser of its content
    type. *)
Definition decodes_body (event : LambdaEvent) (d : Decoding) : Prop :=
  ∃ text, event_body event = Some text
    ∧ (d = JSONParse text ∧ event_contentType event = Some "application/json"
       ∨ d = QuerystringParse text
         ∧ event_contentType event = Some "application/x-www-form-urlencoded").

(** *** An environment whose validation rejects every router *)

Module Strict.
Definition rejection : Thrown :=
  ThrownTRPCError
    (new_TRPCError INTERNAL_SERVER_ERROR
       "[query.getHello] - Input parser expects a Zod validator").

Definition env : Environment :=
  Build_Environment Sample.new_URL Sample.JSON_parse Sample.querystring_parse false
    Sample.normalizePath Sample.path_exec Sample.acceptsRequestBody Sample.getBody
    Sample.getQuery (λ _, Some rejection).
End Strict.

(** *** Events to run the Lambda handler on *)

Module Events.
Import Sample.

Definition opts : CreateOpenApiAwsLambdaHandlerOptions :=
  {| lambda_router := Cases.router; lambda_createContext := None;
     lambda_responseMeta := None; lambda_onError := true |}.

(** [GET /hello?name=Steve], with the method in lower case. *)
Definition hello : LambdaEvent :=
  {| event_version := Some "2.0"; event_path := None; event_rawPath := Some "/hello";
     event_httpMethod := None; event_requestContext_http_method := Some (Some "get");
     event_headers := [];
     event_body := None;
     event_queryStringParameters := Some (JObj {[ "name" := JStr "Steve" ]}) |}.

(** An event without [httpMethod] and without [requestContext.http]. *)
Definition no_method : LambdaEvent :=
  {| event_version := None; event_path := Some "/hello"; event_rawPath := None;
     event_httpMethod := None; event_requestContext_http_method := None;
     event_headers := json; event_body := Some "{}";
     event_queryStringParameters := None |}.

(** A body that is not JSON, under a content type with a parameter. *)
Definition charset : LambdaEvent :=
  event_v1 "POST" "/hello" [("Content-Type", "application/json; charset=utf-8")]
    (Some "asdfasd").

(** A path without its leading slash. *)
Definition relative : LambdaEvent := event_v1 "GET" "hello" [] None.
End Events.

(** ** The schemas of the generated document ([getParameterObjects],
    [getRequestBodyObject], [getResponsesObject]) *)

Module Generator.

(** What the generator reads of Zod, of [zod-to-json-schema] and of
    [utils/zod], none of which is in the sources. [Schema] holds the
    values that are handed over as a schema, Zod validators or not;
    [shape] lists the entries of [schema.shape] in the order of
    [Object.keys]; the mask of [omit] is given by its keys; [property]
    is the property access [value[key]]. *)
Class Zod : Type := {
  Schema : Type;
  instanceofZodType : Schema → bool;
  instanceofZodTypeLikeVoid : Schema → bool;
  instanceofZodTypeObject : Schema → bool;
  instanceofZodTypeArray : Schema → bool;
  instanceofZodTypeOptional : Schema → bool;
  unwrapZodType : Schema → bool → Schema;
  isOptional : Schema → bool;
  shape : Schema → list (string * Schema);
  unwrap : Schema → Schema;
  omit : Schema → gset string → Schema;
  element : Schema → Schema;
  z_array : Schema → Schema;
  zodToJsonSchema : Schema → JsValue;
  property : JsValue → string → JsValue;
}.

(** The argument [inType]. *)
Inductive InType : Set := in_all | in_path | in_query.

#[global] Instance InType_eq_dec : EqDecision InType.
Proof. solve_decision. Defined.

(** An [OpenAPIV3.ParameterObject], with the fields that the generator
    sets; [style] and [explode] are set for an array parameter only. *)
Record ParameterObject : Type := {
  param_name : string;
  param_in : string;
  param_required : bool;
  param_schema : JsValue;
  param_description : JsValue;
  param_example : JsValue;
  param_style : option string;
  param_explode : option bool;
}.

(** An entry of [content], and an [OpenAPIV3.RequestBodyObject]. *)
Record MediaTypeObject : Type := {
  media_schema : JsValue;
  media_example : JsValue;
}.

Record RequestBodyObject : Type := {
  body_required : bool;
  body_content : gmap string MediaTypeObject;
}.

(** The [200] entry of an [OpenAPIV3.ResponsesObject]; the [default]
    entry is the fixed reference to the error response. *)
Record ResponsesObject : Type := {
  responses_200_description : string;
  responses_200_headers : JsValue;
  responses_200_content : gmap string MediaTypeObject;
  responses_default_ref : string;
}.

(** [throw new TRPCError({ message, code: 'INTERNAL_SERVER_ERROR' })]. *)
Definition internal_error {A} (message : string) : Completion A :=
  Throw (ThrownTRPCError (new_TRPCError INTERNAL_SERVER_ERROR message)).

(** [array.includes(s)] on strings. *)
Definition includes (l : list string) (s : string) : bool :=
  existsb (String.eqb s) l.

(** The text [s] between double quotes. *)
Definition quoted (s : string) : string :=
  String (ascii_of_nat 34) (s ++ String (ascii_of_nat 34) EmptyString).

(** [array.map(f)] for an [f] that may throw: the first throw ends the
    traversal. *)
Fixpoint map_throwing {A B} (f : A → Completion B) (l : list A) : Completion (list B) :=
  match l with
  | [] => Return []
  | a :: l' =>
      match f a with
      | Throw t => Throw t
      | Return b =>
          match map_throwing f l' with
          | Throw t => Throw t
          | Return bs => Return (b :: bs)
          end
      end
  end.

(** [delete value[key]] on an object. *)
Definition delete_property (v : JsValue) (key : string) : JsValue :=
  match v with
  | JObj props => JObj (delete key props)
  | _ => v
  end.

(** [const { description, ...openApiSchemaObject } = object]. *)
Definition description_of (object : JsValue) : JsValue :=
  default JUndefined (own_properties object !! "description").

Definition without_description (object : JsValue) : JsValue :=
  JObj (delete "description" (own_properties object)).

(** The filter of [getParameterObjects] on the keys of the shape. *)
Definition selects (inType : InType) (pathParameters : list string)
    (shapeKey : string) : bool :=
  let isPathParameter := includes pathParameters shapeKey in
  match inType with
  | in_path => isPathParameter
  | in_query => negb isPathParameter
  | in_all => true
  end.

Section Schema.
Context {zod : Zod}.

Definition zodSchemaToOpenApiSchemaObject (zodSchema : Schema) : JsValue :=
  zodToJsonSchema zodSchema.

(** [example?.[key]]. *)
Definition example_of (example : JsValue) (key : string) : JsValue :=
  match example with
  | JUndefined | JNull => JUndefined
  | _ => property example key
  end.

(** The callback of the [map] in [getParameterObjects]. The key comes
    from [Object.keys(shape)], so [shape[shapeKey]] is there; reading
    [isOptional] of [undefined] would throw a [TypeError]. *)
Definition parameter_of (isRequired : bool) (pathParameters : list string)
    (example : JsValue) (shape : list (string * Schema)) (shapeKey : string) :
    Completion ParameterObject :=
  match Map_get String.eqb shapeKey shape with
  | None =>
      Throw (ThrownError {| error_name := "TypeError";
                            error_message := "Cannot read properties of undefined";
                            error_code := None; error_errors := None |})
  | Some shapeSchema =>
      let isShapeRequired := negb (isOptional shapeSchema) in
      let isPathParameter := includes pathParameters shapeKey in
      if instanceofZodTypeOptional shapeSchema then
        if isPathParameter then
          internal_error ("Path parameter: " ++ quoted shapeKey ++ " must not be optional")
        else
          let object := zodSchemaToOpenApiSchemaObject (unwrap shapeSchema) in
          Return {| param_name := shapeKey;
                    param_in := if isPathParameter then "path" else "query";
                    param_required := isPathParameter || (isRequired && isShapeRequired);
                    param_schema := without_description object;
                    param_description := description_of object;
                    param_example := example_of example shapeKey;
                    param_style := None; param_explode := None |}
      else
        let object := zodSchemaToOpenApiSchemaObject shapeSchema in
        Return {| param_name := shapeKey;
                  param_in := if isPathParameter then "path" else "query";
                  param_required := isPathParameter || (isRequired && isShapeRequired);
                  param_schema := without_description object;
                  param_description := description_of object;
                  param_example := example_of example shapeKey;
                  param_style := None; param_explode := None |}
  end.

(** [getParameterObjects]; [arrayParameterName] is [None] when the
    argument is left out, and then defaults to ["parameter"]. *)
Definition getParameterObjects (schema : Schema) (pathParameters : list string)
    (inType : InType) (example : JsValue) (arrayParameterName : option string) :
    Completion (option (list ParameterObject)) :=
  let arrayParameterName := default "parameter" arrayParameterName in
  if negb (instanceofZodType schema) then
    internal_error "Input parser expects a Zod validator"
  else
    let isRequired := negb (isOptional schema) in
    let unwrappedSchema := unwrapZodType schema true in
    if (Nat.eqb (length pathParameters) 0
        && instanceofZodTypeLikeVoid unwrappedSchema)%bool then Return None
    else if instanceofZodTypeObject unwrappedSchema then
      let shape := shape unwrappedSchema in
      let shapeKeys := shape.*1 in
      match find (λ pathParameter, negb (includes shapeKeys pathParameter))
              pathParameters with
      | Some pathParameter =>
          internal_error ("Input parser expects key from path: " ++ quoted pathParameter)
      | None =>
          match map_throwing (parameter_of isRequired pathParameters example shape)
                  (List.filter (selects inType pathParameters) shapeKeys) with
          | Throw t => Throw t
          | Return parameters => Return (Some parameters)
          end
      end
    else if instanceofZodTypeArray unwrappedSchema then
      if String.eqb arrayParameterName EmptyString then
        internal_error "Array parameter name must be provided for array schemas"
      else
        let isPathParameter := includes pathParameters arrayParameterName in
        let parameterIn := if isPathParameter then "path" else "query" in
        if (isPathParameter && negb (bool_decide (inType = in_path)))%bool then
          Return None
        else if (negb isPathParameter && negb (bool_decide (inType = in_query)))%bool then
          Return None
        else if instanceofZodTypeOptional unwrappedSchema then
          if isPathParameter then
            internal_error ("Path parameter: " ++ quoted arrayParameterName
                  ++ " must not be optional")
          else
            let object := zodSchemaToOpenApiSchemaObject (unwrap unwrappedSchema) in
            Return (Some [{| param_name := arrayParameterName;
                             param_in := parameterIn;
                             param_required := isPathParameter || isRequired;
                             param_schema := without_description object;
                             param_description := description_of object;
                             param_example := example_of example arrayParameterName;
                             param_style := Some "form";
                             param_explode := Some true |}])
        else
          let object := zodSchemaToOpenApiSchemaObject unwrappedSchema in
          Return (Some [{| param_name := arrayParameterName;
                           param_in := parameterIn;
                           param_required := isPathParameter || isRequired;
                           param_schema := without_description object;
                           param_description := description_of object;
                           param_example := example_of example arrayParameterName;
                           param_style := Some "form";
                           param_explode := Some true |}])
    else
      internal_error "Input parser must be a ZodObject or ZodArray".

(** The loop that fills [content]. *)
Definition content_of (contentTypes : list string) (media : MediaTypeObject) :
    gmap string MediaTypeObject :=
  foldl (λ content contentType, <[contentType := media]> content) ∅ contentTypes.

(** The end of [getRequestBodyObject], from the deduplicated schema
    and example. *)
Definition request_body (isRequired : bool) (contentTypes : list string)
    (dedupedSchema : Schema) (dedupedExample : JsValue) : RequestBodyObject :=
  let openApiSchemaObject := zodSchemaToOpenApiSchemaObject dedupedSchema in
  {| body_required := isRequired;
     body_content :=
       content_of contentTypes
         {| media_schema := openApiSchemaObject; media_example := dedupedExample |} |}.

(** The callback that adjusts the items of an example array. *)
Definition adjust_item (pathParameters : list string) (item : JsValue) : JsValue :=
  match item with
  | JObj _ | JArr _ => foldl delete_property (object_spread [item]) pathParameters
  | _ => item
  end.

(** [getRequestBodyObject]. *)
Definition getRequestBodyObject (schema : Schema) (pathParameters : list string)
    (contentTypes : list string) (example : JsValue) :
    Completion (option RequestBodyObject) :=
  if negb (instanceofZodType schema) then
    internal_error "Input parser expects a Zod validator"
  else
    let isRequired := negb (isOptional schema) in
    let unwrappedSchema := unwrapZodType schema true in
    if (Nat.eqb (length pathParameters) 0
        && instanceofZodTypeLikeVoid unwrappedSchema)%bool then Return None
    else if (negb (instanceofZodTypeObject unwrappedSchema)
             && negb (instanceofZodTypeArray unwrappedSchema))%bool then
      internal_error "Input parser must be a ZodObject or ZodArray"
    else
      let dedupedExample :=
        if value_truthy example then object_spread [example] else example in
      let mask : gset string := list_to_set pathParameters in
      if instanceofZodTypeObject unwrappedSchema then
        let dedupedExample :=
          foldl (λ dedupedExample pathParameter,
                   if value_truthy dedupedExample
                   then delete_property dedupedExample pathParameter
                   else dedupedExample)
            dedupedExample pathParameters in
        let dedupedObjectSchema := omit unwrappedSchema mask in
        if (Nat.ltb 0 (length pathParameters)
            && Nat.eqb (length (shape dedupedObjectSchema)) 0)%bool then Return None
        else
          Return (Some (request_body isRequired contentTypes dedupedObjectSchema
                          dedupedExample))
      else if instanceofZodTypeArray unwrappedSchema then
        let elementSchema := element unwrappedSchema in
        if instanceofZodTypeObject elementSchema then
          let dedupedElementSchema := omit elementSchema mask in
          if (Nat.ltb 0 (length pathParameters)
              && Nat.eqb (length (shape dedupedElementSchema)) 0)%bool then Return None
          else
            let dedupedExample :=
              match dedupedExample with
              | JArr items => JArr (adjust_item pathParameters <$> items)
              | _ => dedupedExample
              end in
            Return (Some (request_body isRequired contentTypes
                            (z_array dedupedElementSchema) dedupedExample))
        else
          Return (Some (request_body isRequired contentTypes
                          (z_array elementSchema) dedupedExample))
      else
        internal_error "Input parser must be a ZodObject or ZodArray".

(** [getResponsesObject]. *)
Definition getResponsesObject (schema : Schema) (example headers : JsValue) :
    Completion ResponsesObject :=
  if negb (instanceofZodType schema) then
    internal_error "Output parser expects a Zod validator"
  else
    Return {| responses_200_description := "Successful response";
              responses_200_headers := headers;
              responses_200_content :=
                {[ "application/json" :=
                     {| media_schema := zodSchemaToOpenApiSchemaObject schema;
                        media_example := example |} ]};
              responses_default_ref := "#/components/responses/error" |}.
End Schema.

(** The result is a failure of the generator: a [TRPCError] with the
    code INTERNAL_SERVER_ERROR and no cause. *)
Definition is_generator_failure {A} (c : Completion A) : Prop :=
  ∃ message, c = internal_error message.

(** *** A small model of Zod to run the generator on *)

Inductive Sketch : Type :=
| NotZod
| ZVoid
| ZString
| ZNumber
| ZOptional (inner : Sketch)
| ZArray (items : Sketch)
| ZObject (fields : list (string * Sketch)).

Fixpoint unwrapped (s : Sketch) : Sketch :=
  match s with
  | ZOptional inner => unwrapped inner
  | _ => s
  end.

Definition json_schema (s : Sketch) : JsValue :=
  match s with
  | ZString => JObj {[ "type" := JStr "string" ]}
  | ZNumber => JObj {[ "type" := JStr "number" ]}
  | ZArray _ => JObj {[ "type" := JStr "array" ]}
  | ZObject _ => JObj {[ "type" := JStr "object" ]}
  | NotZod | ZVoid | ZOptional _ => JObj ∅
  end.

Definition sketch : Zod :=
  {| Schema := Sketch;
     instanceofZodType := λ s, if s is NotZod then false else true;
     instanceofZodTypeLikeVoid := λ s, if s is ZVoid then true else false;
     instanceofZodTypeObject := λ s, if s is ZObject _ then true else false;
     instanceofZodTypeArray := λ s, if s is ZArray _ then true else false;
     instanceofZodTypeOptional := λ s, if s is ZOptional _ then true else false;
     unwrapZodType := λ s _, unwrapped s;
     isOptional := λ s, match s with ZOptional _ | ZVoid => true | _ => false end;
     shape := λ s, if s is ZObject fields then fields else [];
     unwrap := λ s, if s is ZOptional inner then inner else s;
     omit := λ s mask,
       if s is ZObject fields
       then ZObject (List.filter (λ field, bool_decide (field.1 ∉ mask)) fields)
       else s;
     element := λ s, if s is ZArray items then items else s;
     z_array := ZArray;
     zodToJsonSchema := json_schema;
     property := λ v key, default JUndefined (own_properties v !! key) |}.

(** [z.object({ id: z.string(), name: z.string(), nick:
    z.string().optional() })] and an example for it. *)
Definition user : Sketch :=
  ZObject [("id", ZString); ("name", ZString); ("nick", ZOptional ZString)].

Definition user_example : JsValue :=
  JObj (<["id" := JStr "7"]> (<["name" := JStr "Steve"]> ∅)).

(** The same with an optional [id]. *)
Definition loose_user : Sketch :=
  ZObject [("id", ZOptional ZString); ("name", ZString)].
End Generator.

(** * Properties *)

(** ** The failure envelope *)

Section Envelope.
Context {env : Environment}.

(** What the [catch] block of the node-http handler does, in full. *)
Lemma catch_block_run opts path procedure cause l t :
  let error := getErrorFromUnknown cause in
  let validation := isInputValidationError error in
  catch_block opts path procedure cause l t =
    {| final := l;
       trace := if opts_onError opts
                then t ++ [EvOnError error (var_input l) (var_ctx l)] else t;
       completion :=
         Return (Sent (sendResponse
           (default (TRPC_ERROR_CODE_HTTP_STATUS (trpc_code error))
              (error_meta opts procedure l error ≫= meta_status))
           (headersToRecord (default [] (error_meta opts procedure l error ≫= meta_headers)))
           (Some (OpenApiErrorResponse
              (if validation then "Input validation failed"
               else default (trpc_message error)
                      (router_errorFormatter (opts_router opts) error (Some path)))
              (trpc_code error)
              (if validation then trpc_cause error ≫= error_errors else None))))) |}.
Proof.
  intros error validation. unfold catch_block, bind, get_locals, emit, ret.
  fold error. fold validation. cbn.
  destruct (opts_onError opts); cbn;
    destruct (error_meta opts procedure l error ≫= meta_status);
    destruct (router_errorFormatter (opts_router opts) error (Some path));
    reflexivity.
Qed.

(** What the [catch] block of the Lambda handler does, in full. *)
Lemma lambda_catch_run opts cause path t :
  let error := getErrorFromUnknown cause in
  lambda_catch opts cause path t =
    {| final := path;
       trace := if lambda_onError opts
                then t ++ [EvOnError error JUndefined JUndefined] else t;
       completion :=
         Return
           {| statusCode :=
                default (TRPC_ERROR_CODE_HTTP_STATUS (trpc_code error))
                  (lambda_error_meta opts path error ≫= meta_status);
              headers :=
                foldl (λ acc '(key, value), Map_set String.eqb key value acc)
                  [("content-type", "application/json")]
                  (default [] (lambda_error_meta opts path error ≫= meta_headers));
              body :=
                Some (OpenApiErrorResponse
                        (default (trpc_message error)
                           (router_errorFormatter (lambda_router opts) error path))
                        (trpc_code error) None) |} |}.
Proof.
  intros error. unfold lambda_catch, bind, get_locals, emit, ret.
  fold error. cbn.
  destruct (lambda_onError opts); cbn;
    destruct (lambda_error_meta opts path error ≫= meta_status);
    destruct (router_errorFormatter (lambda_router opts) error path);
    reflexivity.
Qed.
End Envelope.

(** ** The error table and the error messages *)

Section Failures.
Context {env : Environment}.


(** C5. A failure whose error has code BAD_REQUEST is answered with
    status 400 (unless [responseMeta] overrides the status) and code
    BAD_REQUEST. When the cause of the error is a [ZodError], the
    message is exactly "Input validation failed" and the issues are
    the [errors] of the [ZodError]. When the cause is no [ZodError],
    no issues are attached and the message is the one of the error
    shape, which is the error's own message unless the router's error
    formatter replaces it. *)
Theorem bad_request_envelope opts path procedure cause l t :
  let error := getErrorFromUnknown cause in
  trpc_code error = BAD_REQUEST →
  ∃ res,
    completion (catch_block opts path procedure cause l t) = Return (Sent res)
    ∧ statusCode res = default 400 (error_meta opts procedure l error ≫= meta_status)
    ∧ (∀ zod, trpc_cause error = Some zod → error_name zod = "ZodError" →
         body res = Some (OpenApiErrorResponse "Input validation failed" BAD_REQUEST
                            (error_errors zod)))
    ∧ ((∀ zod, trpc_cause error = Some zod → error_name zod ≠ "ZodError") →
         body res = Some (OpenApiErrorResponse
                            (default (trpc_message error)
                               (router_errorFormatter (opts_router opts) error (Some path)))
                            BAD_REQUEST None)
         ∧ (router_errorFormatter (opts_router opts) = defaultFormatter →
            body res = Some (OpenApiErrorResponse (trpc_message error) BAD_REQUEST None))).
Proof.
  intros error Hcode. rewrite catch_block_run. fold error.
  eexists. split; [reflexivity|]. cbn. rewrite Hcode. split; [reflexivity|].
  unfold isInputValidationError. rewrite Hcode. split.
  - intros zod -> ->. reflexivity.
  - intros Hother. destruct (trpc_cause error) as [c|] eqn:Hc.
    + specialize (Hother c eq_refl).
      destruct (String.eqb_spec (error_name c) "ZodError") as [Heq|_]; [done|].
      split; [reflexivity|]. by intros ->.
    + split; [reflexivity|]. by intros ->.
Qed.
End Failures.

(** ** [Map]s and the traversal of the router *)

Section MapFacts.
Context {K V : Type} (same : K → K → bool).

Lemma Map_get_None (k : K) (m : list (K * V)) :
  Forall (λ k', same k k' = false) (Map_keys m) → Map_get same k m = None.
Proof.
  induction m as [|[k' v] m IH]; [done|]. cbn. intros Hall.
  apply Forall_cons in Hall as [-> Hall]. by apply IH.
Qed.

Lemma Map_keys_set (P : K → Prop) (k : K) (v : V) (m : list (K * V)) :
  P k → Forall P (Map_keys m) → Forall P (Map_keys (Map_set same k v m)).
Proof.
  intros Hk. induction m as [|[k' v'] m IH]; cbn.
  - intros _. by repeat constructor.
  - intros Hall. apply Forall_cons in Hall as [Hk' Hall].
    destruct (same k k'); cbn; constructor; auto.
Qed.

(** [set] on a key that is not there adds the entry at the end. *)
Lemma Map_set_fresh (k : K) (v : V) (m : list (K * V)) :
  Forall (λ k', same k k' = false) (Map_keys m) → Map_set same k v m = (m ++ [(k, v)])%list.
Proof.
  induction m as [|[k' v'] m IH]; [done|]. cbn. intros Hall.
  apply Forall_cons in Hall as [-> Hall]. by rewrite IH.
Qed.
End MapFacts.

Section Traversal.
Context {env : Environment}.

Lemma forEachOpenApiProcedure_foldl {S} record (callback : CallbackValues → S → S) s :
  forEachOpenApiProcedure record callback s
  = foldl (λ s values, callback values s) s (omap callback_values record).
Proof.
  unfold forEachOpenApiProcedure. revert s.
  induction record as [|[path procedure] record IH]; intros s; [done|].
  cbn [foldl omap list_omap]. rewrite IH. unfold callback_values at 2.
  destruct (def_openapi procedure) as [openapi|]; [|done].
  destruct (openapi_enabled openapi) as [[]|];
    destruct (getProcedureType procedure); done.
Qed.

(** A property of the state that every call of the callback keeps
    holds after the traversal. *)
Lemma forEachOpenApiProcedure_invariant {S} (P : S → Prop) record
    (callback : CallbackValues → S → S) s :
  P s → (∀ values s, P s → P (callback values s)) →
  P (forEachOpenApiProcedure record callback s).
Proof.
  intros Hs Hstep. rewrite forEachOpenApiProcedure_foldl.
  revert s Hs. induction (omap callback_values record) as [|v vs IH]; intros s Hs; [done|].
  cbn. apply IH. by apply Hstep.
Qed.

Lemma register_keys values st :
  Forall is_method_name (Map_keys (procedureCache st)) →
  Forall is_method_name (Map_keys (procedureCache (register values st))).
Proof.
  intros Hkeys. unfold register. cbn.
  set (method := method_name (openapi_method (cb_openapi values))).
  assert (is_method_name method) as Hm by (by eexists).
  set (cache := if negb _ then _ else _).
  assert (Forall is_method_name (Map_keys cache)) as Hcache.
  { subst cache. destruct (negb _); [|done]. by apply Map_keys_set. }
  destruct (def_type (cb_procedure values)) as [[]|]; try done;
    destruct (Map_get same_method method cache); try done; by apply Map_keys_set.
Qed.

(** Every key of the cache is the name of an [OpenApiMethod]. *)
Lemma build_cache_keys router :
  Forall is_method_name (Map_keys (procedureCache (build_cache router))).
Proof.
  unfold build_cache.
  apply (forEachOpenApiProcedure_invariant
           (λ st, Forall is_method_name (Map_keys (procedureCache st)))).
  - constructor.
  - intros values st. apply register_keys.
Qed.

(** No pattern is registered under HEAD. *)
Lemma no_procedure_for_HEAD router path :
  createProcedureCache router "HEAD" path = None.
Proof.
  unfold createProcedureCache, getProcedure.
  rewrite Map_get_None; [done|].
  eapply Forall_impl; [apply build_cache_keys|].
  intros key [m ->]. by destruct m.
Qed.
End Traversal.

(** ** The stages of the node-http handler *)

(** Membership in a trace that is written out. *)
Ltac has_event := repeat first [apply list_elem_of_here | apply list_elem_of_further].
Ltac one_of_events :=
  let ev := fresh "ev" in
  let Hev := fresh "Hev" in
  intros ev Hev;
  repeat (apply elem_of_cons in Hev as [->|Hev]; [by eauto|]);
  by apply elem_of_nil in Hev.

Section Stages.
Context {env : Environment}.

(** The handler, once the URL of the request is parsed. *)
Lemma handle_run opts req next url found :
  new_URL (request_target (req_url req)) = Some url →
  createProcedureCache (opts_router opts) (req_method req) (normalizePath (pathname url))
    = found →
  handle opts req next
  = try_catch
      (try_block opts req next (req_method req) url (found ≫= found_procedure)
         (default ∅ (found_pathInput <$> found)))
      (catch_block opts (normalizePath (pathname url)) (found ≫= found_procedure))
      initial_locals [EvGetProcedure (req_method req) (normalizePath (pathname url))].
Proof. intros Hurl <-. unfold handle, openApiHttpHandler. by rewrite Hurl. Qed.

(** A request that matches no procedure and has no [next] callback. *)
Lemma handle_unmatched opts req url :
  new_URL (request_target (req_url req)) = Some url →
  createProcedureCache (opts_router opts) (req_method req)
    (normalizePath (pathname url)) = None →
  let path := normalizePath (pathname url) in
  let not_found := new_TRPCError NOT_FOUND "Not found" in
  handle opts req false
  = if String.eqb (req_method req) "HEAD" then
      {| final := initial_locals; trace := [EvGetProcedure (req_method req) path];
         completion := Return (Sent no_content) |}
    else
      catch_block opts path None (ThrownTRPCError not_found) initial_locals
        [EvGetProcedure (req_method req) path].
Proof.
  intros Hurl Hnone path not_found.
  rewrite (handle_run _ _ _ _ _ Hurl Hnone).
  unfold try_catch, try_block. cbn -[catch_block].
  by destruct (String.eqb (req_method req) "HEAD").
Qed.

(** [{...bodyOrQuery, ...pathInput}]. *)
Lemma object_spread_two (bodyOrQuery : JsValue) (pathInput : gmap string JsValue) :
  object_spread [bodyOrQuery; JObj pathInput]
  = JObj (pathInput ∪ own_properties bodyOrQuery).
Proof. unfold object_spread. cbn. by rewrite (right_id_L ∅ (∪)). Qed.

(** In a left-biased union the left map wins on the keys of both. *)
Lemma lookup_spread (pathInput fields : gmap string JsValue) (key : string) :
  (pathInput ∪ fields) !! key
  = match pathInput !! key with
    | Some v => Some v
    | None => fields !! key
    end.
Proof.
  rewrite lookup_union.
  by destruct (pathInput !! key), (fields !! key).
Qed.

(** The second half of the [try] block leaves the input alone, extends
    the trace by the creation of the context and by at most one call,
    which is a call of the matched procedure on the input, and does
    make that call when the context is built and the caller has a
    function for the procedure. *)
Lemma invoke_procedure_run opts req entry l t :
  let r := invoke_procedure opts req entry l t in
  var_input (final r) = var_input l
  ∧ ∃ suffix,
      trace r = (t ++ suffix)%list
      ∧ (∀ ev, ev ∈ suffix →
           ev = EvCreateContext ∨ ev = EvCall (entry_path entry) (var_input l))
      ∧ (∀ ctx procedureFn,
           (if opts_createContext opts is Some createContext then createContext req
            else Return JUndefined) = Return ctx →
           router_createCaller (opts_router opts) ctx (split "." (entry_path entry))
             = Some procedureFn →
           EvCall (entry_path entry) (var_input l) ∈ suffix).
Proof.
  unfold invoke_procedure, build_context, bind, emit, of_completion, set_ctx,
    set_data, modify_locals, get_locals, throw, ret.
  destruct (opts_createContext opts) as [createContext|]; cbn.
  - destruct (createContext req) as [ctx|thrown]; cbn.
    + destruct (router_createCaller _ ctx _) as [procedureFn|] eqn:Hfn; cbn.
      * destruct (procedureFn (var_input l)); cbn; (split; [done|]);
          exists [EvCreateContext; EvCall (entry_path entry) (var_input l)];
          (split; [by rewrite <- app_assoc|]);
          (split; [one_of_events|intros; has_event]).
      * split; [done|]. exists [EvCreateContext]. split; [done|].
        split; [one_of_events|]. intros ctx' fn [= <-]. congruence.
    + split; [done|]. exists [EvCreateContext]. split; [done|].
      split; [one_of_events|]. intros; discriminate.
  - destruct (router_createCaller _ JUndefined _) as [procedureFn|] eqn:Hfn; cbn.
    + destruct (procedureFn (var_input l)); cbn; (split; [done|]);
        exists [EvCall (entry_path entry) (var_input l)];
        (split; [done|]); (split; [one_of_events|intros; has_event]).
    + split; [done|]. exists []. split; [by rewrite app_nil_r|].
      split; [one_of_events|]. intros ctx' fn [= <-]. congruence.
Qed.

(** A [try] whose [catch] is the handler's: the locals stay those of the
    block, the trace is extended by a report to [onError] at most, and a
    response is sent whatever the block threw. *)
Lemma try_catch_run (m : Exec Locals Outcome) opts path procedure l t :
  let r := m l t in
  let r' := try_catch m (catch_block opts path procedure) l t in
  final r' = final r
  ∧ (∃ suffix, trace r' = (trace r ++ suffix)%list
       ∧ ∀ ev, ev ∈ suffix → ∃ error input ctx, ev = EvOnError error input ctx)
  ∧ (∀ out, completion r = Return out → r' = r)
  ∧ (∀ cause, completion r = Throw cause →
       r' = catch_block opts path procedure cause (final r) (trace r)).
Proof.
  unfold try_catch. destruct (completion (m l t)) as [out|cause] eqn:Hm.
  - split; [done|]. split; [|split; [done|discriminate]].
    exists []. split; [by rewrite app_nil_r|one_of_events].
  - split; [by rewrite catch_block_run|].
    split; [|split; [discriminate|by intros ? [= <-]]].
    rewrite catch_block_run. cbn.
    destruct (opts_onError opts); [|exists []; split; [by rewrite app_nil_r|one_of_events]].
    eexists. split; [done|]. intros ev Hev. apply list_elem_of_singleton in Hev. eauto.
Qed.
End Stages.

Section Matched.
Context {env : Environment}.

(** The handler on a matched procedure whose input was reconciled: the
    input stays what the reconciliation made it, and the trace is
    extended by the creation of the context, by calls of the matched
    procedure on that input, and by reports to [onError], only. *)
Lemma handle_reconciled opts req next url entry pathInput l0 t0 :
  new_URL (request_target (req_url req)) = Some url →
  let path := normalizePath (pathname url) in
  createProcedureCache (opts_router opts) (req_method req) path
    = Some {| found_procedure := Some entry; found_pathInput := pathInput |} →
  reconcile_input opts req (req_method req) url entry pathInput initial_locals
      [EvGetProcedure (req_method req) path]
    = {| final := l0; trace := t0; completion := Return () |} →
  let r := handle opts req next in
  var_input (final r) = var_input l0
  ∧ ∃ suffix,
      trace r = (t0 ++ suffix)%list
      ∧ (∀ p input, EvCall p input ∈ suffix →
           p = entry_path entry ∧ input = var_input l0)
      ∧ (∀ ctx procedureFn,
           (if opts_createContext opts is Some createContext then createContext req
            else Return JUndefined) = Return ctx →
           router_createCaller (opts_router opts) ctx (split "." (entry_path entry))
             = Some procedureFn →
           EvCall (entry_path entry) (var_input l0) ∈ suffix).
Proof.
  intros Hurl path Hfound Hinput r. subst r path.
  rewrite (handle_run _ _ _ _ _ Hurl Hfound).
  cbn [mbind option_bind fmap option_fmap option_map default from_option
       found_procedure found_pathInput].
  unfold id.
  set (path := normalizePath (pathname url)) in *.
  match goal with |- context [try_catch ?m _ _ _] => set (block := m) end.
  destruct (try_catch_run block opts path (Some entry) initial_locals
              [EvGetProcedure (req_method req) path])
    as (Hfinal & (suffix' & Htrace & Hsuffix') & _).
  assert (block initial_locals [EvGetProcedure (req_method req) path]
          = invoke_procedure opts req entry l0 t0) as Hblock.
  { subst block. unfold try_block, bind. by rewrite Hinput. }
  rewrite Hblock in Hfinal, Htrace.
  destruct (invoke_procedure_run opts req entry l0 t0)
    as (Hin & suffix & Hsuffix & Hcalls & Hcalled).
  split; [by rewrite Hfinal|].
  exists (suffix ++ suffix')%list. split; [by rewrite Htrace, Hsuffix, app_assoc|].
  split.
  - intros p input [Hev|Hev]%elem_of_app.
    + by destruct (Hcalls _ Hev) as [|[= -> ->]].
    + by destruct (Hsuffix' _ Hev) as (? & ? & ? & ?).
  - intros ctx procedureFn Hctx Hfn. apply elem_of_app. left. eauto.
Qed.

(** The handler on a matched procedure whose input could not be read or
    reconciled: the [catch] block answers. *)
Lemma handle_rejected opts req next url entry pathInput l0 t0 cause :
  new_URL (request_target (req_url req)) = Some url →
  let path := normalizePath (pathname url) in
  createProcedureCache (opts_router opts) (req_method req) path
    = Some {| found_procedure := Some entry; found_pathInput := pathInput |} →
  reconcile_input opts req (req_method req) url entry pathInput initial_locals
      [EvGetProcedure (req_method req) path]
    = {| final := l0; trace := t0; completion := Throw cause |} →
  handle opts req next = catch_block opts path (Some entry) cause l0 t0.
Proof.
  intros Hurl path Hfound Hinput. subst path.
  rewrite (handle_run _ _ _ _ _ Hurl Hfound).
  cbn [mbind option_bind fmap option_fmap option_map default from_option
       found_procedure found_pathInput].
  unfold id.
  unfold try_catch, try_block, bind. by rewrite Hinput.
Qed.

(** A trace that ends with decodings holds no call of a procedure
    beyond those it held before. *)
Lemma no_call_in_decodings (t : list Event) (ds : list Decoding) p input :
  EvCall p input ∈ (t ++ (EvDecode <$> ds))%list → EvCall p input ∈ t.
Proof.
  intros [Hev|Hev]%elem_of_app; [done|].
  by apply list_elem_of_fmap in Hev as (d & [=] & _).
Qed.

(** C1. For a matched procedure whose input schema is neither void nor
    an array, as an object schema is, the input is the object
    [{...bodyOrQuery, ...pathInput}]: every property of the decoded
    body or query and every path parameter, the path parameter winning
    on a name that both have. This object is the handler's input, every
    call of a procedure that the request causes is a call of the
    matched procedure on it, and the call is made whenever the context
    is built and the caller has a function for the procedure. *)
Theorem object_input_is_merge opts req next url entry pathInput decodings bodyOrQuery :
  new_URL (request_target (req_url req)) = Some url →
  createProcedureCache (opts_router opts) (req_method req) (normalizePath (pathname url))
    = Some {| found_procedure := Some entry; found_pathInput := pathInput |} →
  instanceofZodTypeLikeVoid (getInputOutputParsers (entry_procedure entry)) = false →
  instanceofZodTypeArray (getInputOutputParsers (entry_procedure entry)) = false →
  (if acceptsRequestBody (req_method req) then getBody req (opts_maxBodySize opts)
   else getQuery req url) = (decodings, Return bodyOrQuery) →
  let r := handle opts req next in
  let merged := pathInput ∪ own_properties bodyOrQuery in
  object_spread [bodyOrQuery; JObj pathInput] = JObj merged
  ∧ (∀ key, merged !! key = match pathInput !! key with
                            | Some v => Some v
                            | None => own_properties bodyOrQuery !! key
                            end)
  ∧ var_input (final r) = JObj merged
  ∧ (∀ p input, EvCall p input ∈ trace r →
       p = entry_path entry ∧ input = JObj merged)
  ∧ (∀ ctx procedureFn,
       (if opts_createContext opts is Some createContext then createContext req
        else Return JUndefined) = Return ctx →
       router_createCaller (opts_router opts) ctx (split "." (entry_path entry))
         = Some procedureFn →
       EvCall (entry_path entry) (JObj merged) ∈ trace r).
Proof.
  intros Hurl Hfound Hvoid Harray Hread r merged.
  split; [apply object_spread_two|]. split; [intros key; apply lookup_spread|].
  set (path := normalizePath (pathname url)) in *.
  assert (reconcile_input opts req (req_method req) url entry pathInput initial_locals
            [EvGetProcedure (req_method req) path]
          = {| final := {| var_input := JObj merged; var_ctx := JUndefined;
                           var_data := JUndefined |};
               trace := [EvGetProcedure (req_method req) path] ++ (EvDecode <$> decodings);
               completion := Return () |}) as Hinput.
  { unfold reconcile_input, bind, of_eff. rewrite Hvoid, Harray, Hread. cbn.
    by rewrite object_spread_two. }
  destruct (handle_reconciled opts req next url entry pathInput _ _ Hurl Hfound Hinput)
    as (Hin & suffix & Htrace & Hcalls & Hcalled).
  fold r in Hin, Htrace. cbn in Hin, Hcalls, Hcalled.
  split; [done|]. rewrite Htrace. split.
  - intros p input [Hev|Hev]%elem_of_app; [|by apply Hcalls].
    apply no_call_in_decodings in Hev. by apply list_elem_of_singleton in Hev.
  - intros ctx procedureFn Hctx Hfn. apply elem_of_app. right. eauto.
Qed.

(** C2. For a matched procedure whose input schema is an array: when
    the decoded body or query is not an array, the handler throws the
    BAD_REQUEST error "Expected array in request body", no procedure is
    called, and the response carries the code BAD_REQUEST, the message
    of the error shape and status 400 unless [responseMeta] overrides
    it; when it is an array, that array is the input, unchanged and
    without any path parameter, of every call the request causes. *)
Theorem array_input_is_body opts req next url entry pathInput decodings bodyOrQuery :
  new_URL (request_target (req_url req)) = Some url →
  createProcedureCache (opts_router opts) (req_method req) (normalizePath (pathname url))
    = Some {| found_procedure := Some entry; found_pathInput := pathInput |} →
  instanceofZodTypeArray (getInputOutputParsers (entry_procedure entry)) = true →
  (if acceptsRequestBody (req_method req) then getBody req (opts_maxBodySize opts)
   else getQuery req url) = (decodings, Return bodyOrQuery) →
  let path := normalizePath (pathname url) in
  let r := handle opts req next in
  let expected := new_TRPCError BAD_REQUEST "Expected array in request body" in
  (Array_isArray bodyOrQuery = false →
     completion (reconcile_input opts req (req_method req) url entry pathInput
                   initial_locals [EvGetProcedure (req_method req) path])
       = Throw (ThrownTRPCError expected)
     ∧ (∀ p input, EvCall p input ∉ trace r)
     ∧ ∃ res,
         completion r = Return (Sent res)
         ∧ statusCode res =
             default 400 (error_meta opts (Some entry) initial_locals expected
                            ≫= meta_status)
         ∧ body res =
             Some (OpenApiErrorResponse
                     (default "Expected array in request body"
                        (router_errorFormatter (opts_router opts) expected (Some path)))
                     BAD_REQUEST None))
  ∧ (Array_isArray bodyOrQuery = true →
     var_input (final r) = bodyOrQuery
     ∧ (∀ p input, EvCall p input ∈ trace r →
          p = entry_path entry ∧ input = bodyOrQuery)
     ∧ (∀ ctx procedureFn,
          (if opts_createContext opts is Some createContext then createContext req
           else Return JUndefined) = Return ctx →
          router_createCaller (opts_router opts) ctx (split "." (entry_path entry))
            = Some procedureFn →
          EvCall (entry_path entry) bodyOrQuery ∈ trace r)).
Proof.
  intros Hurl Hfound Harray Hread path r expected.
  assert (instanceofZodTypeLikeVoid (getInputOutputParsers (entry_procedure entry))
          = false) as Hvoid.
  { by destruct (getInputOutputParsers (entry_procedure entry)) as [[]|]. }
  split; intros Hisarray.
  - assert (reconcile_input opts req (req_method req) url entry pathInput initial_locals
              [EvGetProcedure (req_method req) path]
            = {| final := initial_locals;
                 trace := [EvGetProcedure (req_method req) path] ++ (EvDecode <$> decodings);
                 completion := Throw (ThrownTRPCError expected) |}) as Hinput.
    { unfold reconcile_input, bind, of_eff. rewrite Hvoid, Harray, Hread. cbn.
      by rewrite Hisarray. }
    split; [by rewrite Hinput|].
    subst r. rewrite (handle_rejected opts req next url entry pathInput _ _ _
                        Hurl Hfound Hinput), catch_block_run.
    split; [|cbn; eauto].
    intros p input Hev. cbn [trace] in Hev.
    assert (EvCall p input ∈ [EvGetProcedure (req_method req) path]) as Hget.
    { destruct (opts_onError opts).
      - apply elem_of_app in Hev as [Hev|Hev].
        + by apply no_call_in_decodings in Hev.
        + by apply list_elem_of_singleton in Hev.
      - by apply no_call_in_decodings in Hev. }
    by apply list_elem_of_singleton in Hget.
  - assert (reconcile_input opts req (req_method req) url entry pathInput initial_locals
              [EvGetProcedure (req_method req) path]
            = {| final := {| var_input := bodyOrQuery; var_ctx := JUndefined;
                             var_data := JUndefined |};
                 trace := [EvGetProcedure (req_method req) path] ++ (EvDecode <$> decodings);
                 completion := Return () |}) as Hinput.
    { unfold reconcile_input, bind, of_eff. rewrite Hvoid, Harray, Hread. cbn.
      by rewrite Hisarray. }
    destruct (handle_reconciled opts req next url entry pathInput _ _ Hurl Hfound Hinput)
      as (Hin & suffix & Htrace & Hcalls & Hcalled).
    fold r in Hin, Htrace. cbn in Hin, Hcalls, Hcalled.
    split; [done|]. rewrite Htrace. split.
    + intros p input [Hev|Hev]%elem_of_app; [|by apply Hcalls].
      apply no_call_in_decodings in Hev. by apply list_elem_of_singleton in Hev.
    + intros ctx procedureFn Hctx Hfn. apply elem_of_app. right. eauto.
Qed.
End Matched.

(** ** Requests that match no procedure *)

Section Unmatched.
Context {env : Environment}.

(** C8. A request whose method and path match no registered pattern,
    handled without a [next] callback, is answered as follows: a HEAD
    request with status 204 and an empty body, without any error being
    reported; a request of any other method with the code NOT_FOUND, the
    message "Not found" of the error shape, and status 404 unless
    [responseMeta] overrides the status. *)
Theorem unmatched_request opts req url :
  new_URL (request_target (req_url req)) = Some url →
  createProcedureCache (opts_router opts) (req_method req)
    (normalizePath (pathname url)) = None →
  let r := handle opts req false in
  let not_found := new_TRPCError NOT_FOUND "Not found" in
  (req_method req = "HEAD" →
     completion r = Return (Sent no_content)
     ∧ statusCode no_content = 204 ∧ body no_content = None
     ∧ trace r = [EvGetProcedure "HEAD" (normalizePath (pathname url))])
  ∧ (req_method req ≠ "HEAD" →
     ∃ res,
       completion r = Return (Sent res)
       ∧ statusCode res =
           default 404 (error_meta opts None initial_locals not_found ≫= meta_status)
       ∧ body res =
           Some (OpenApiErrorResponse
                   (default "Not found"
                      (router_errorFormatter (opts_router opts) not_found
                         (Some (normalizePath (pathname url)))))
                   NOT_FOUND None)).
Proof.
  intros Hurl Hnone r not_found. subst r.
  rewrite (handle_unmatched _ _ _ Hurl Hnone). split.
  - by intros ->.
  - intros Hmethod. destruct (String.eqb_spec (req_method req) "HEAD") as [|_]; [done|].
    rewrite catch_block_run. cbn. eauto.
Qed.

(** C10. No pattern is ever registered under HEAD, because the cache is
    keyed by the names of the five [OpenApiMethod]s. So a HEAD request
    handled without a [next] callback is answered with status 204 and
    an empty body whatever its path and whatever the router registers
    under other methods, and no procedure is called. *)
Theorem head_request opts req url :
  req_method req = "HEAD" →
  new_URL (request_target (req_url req)) = Some url →
  let r := handle opts req false in
  (∀ path, createProcedureCache (opts_router opts) "HEAD" path = None)
  ∧ completion r = Return (Sent no_content)
  ∧ statusCode no_content = 204 ∧ body no_content = None
  ∧ (∀ p input, EvCall p input ∉ trace r).
Proof.
  intros Hmethod Hurl r.
  split; [intros path; apply no_procedure_for_HEAD|].
  subst r. rewrite (handle_unmatched _ _ _ Hurl).
  - rewrite Hmethod. cbn. repeat split.
    intros p input Hev. by apply list_elem_of_singleton in Hev.
  - rewrite Hmethod. apply no_procedure_for_HEAD.
Qed.
End Unmatched.

(** ** Traces only grow *)

Section Extends.
Context {L : Type}.

(** One step of a sequence. *)
Lemma bind_run {A B} (m : Exec L A) (k : A → Exec L B) l t :
  bind m k l t
  = match completion (m l t) with
    | Return a => k a (final (m l t)) (trace (m l t))
    | Throw e => {| final := final (m l t); trace := trace (m l t);
                    completion := Throw e |}
    end.
Proof. reflexivity. Qed.

Lemma extends_ret {A} (a : A) : extends (ret (L:=L) a).
Proof. intros l t. exists []. by rewrite app_nil_r. Qed.

Lemma extends_throw {A} (e : Thrown) : extends (throw (L:=L) (A:=A) e).
Proof. intros l t. exists []. by rewrite app_nil_r. Qed.

Lemma extends_emit (ev : Event) : extends (emit (L:=L) ev).
Proof. intros l t. by exists [ev]. Qed.

Lemma extends_get_locals : extends (get_locals (L:=L)).
Proof. intros l t. exists []. by rewrite app_nil_r. Qed.

Lemma extends_modify_locals (f : L → L) : extends (modify_locals f).
Proof. intros l t. exists []. by rewrite app_nil_r. Qed.

Lemma extends_of_completion {A} (c : Completion A) : extends (of_completion (L:=L) c).
Proof. intros l t. exists []. by rewrite app_nil_r. Qed.

Lemma extends_of_eff {A} (e : Eff A) : extends (of_eff (L:=L) e).
Proof. intros l t. by eexists. Qed.

Lemma extends_bind {A B} (m : Exec L A) (k : A → Exec L B) :
  extends m → (∀ a, extends (k a)) → extends (bind m k).
Proof.
  intros Hm Hk l t. unfold bind. destruct (Hm l t) as [s1 H1].
  destruct (completion (m l t)) as [a|e]; [|by exists s1].
  destruct (Hk a (final (m l t)) (trace (m l t))) as [s2 H2].
  exists (s1 ++ s2)%list. by rewrite H2, H1, app_assoc.
Qed.

Lemma extends_try_catch {A} (m : Exec L A) (handler : Thrown → Exec L A) :
  extends m → (∀ cause, extends (handler cause)) → extends (try_catch m handler).
Proof.
  intros Hm Hh l t. unfold try_catch. destruct (Hm l t) as [s1 H1].
  destruct (completion (m l t)) as [a|e]; [by exists s1|].
  destruct (Hh e (final (m l t)) (trace (m l t))) as [s2 H2].
  exists (s1 ++ s2)%list. by rewrite H2, H1, app_assoc.
Qed.

Lemma extends_call {L' A} (m : Exec L' A) (init : L') :
  extends m → extends (call (L:=L) m init).
Proof. intros Hm l t. unfold call. cbn. apply Hm. Qed.
End Extends.

Create HintDb trace.
#[export] Hint Resolve extends_ret extends_throw extends_emit extends_get_locals
  extends_modify_locals extends_of_completion extends_of_eff extends_call : trace.

(** Splits a computation into its steps and closes each of them. *)
Ltac extends_steps :=
  repeat first
    [ solve [auto with trace]
    | apply extends_bind; [|intros ?]
    | apply extends_try_catch; [|intros ?]
    | match goal with
      | |- extends (match ?x with _ => _ end) => destruct x
      end ].

Section HandlersExtend.
Context {env : Environment}.

Lemma extends_catch_block opts path procedure cause :
  extends (catch_block opts path procedure cause).
Proof. unfold catch_block. extends_steps. Qed.

Lemma extends_try_block opts req next method url procedure pathInput :
  extends (try_block opts req next method url procedure pathInput).
Proof.
  unfold try_block, reconcile_input, invoke_procedure, build_context, set_input,
    set_ctx, set_data.
  extends_steps.
Qed.

Lemma extends_openApiHttpHandler opts req next :
  extends (openApiHttpHandler opts req next).
Proof.
  unfold openApiHttpHandler. extends_steps.
  all: first [apply extends_try_block | apply extends_catch_block].
Qed.

Lemma extends_lambda_catch opts cause : extends (lambda_catch opts cause).
Proof. unfold lambda_catch. extends_steps. Qed.
End HandlersExtend.

(** ** The Lambda handler *)

Section Lambda.
Context {env : Environment}.

(** An event of an unsupported payload format goes from the version
    check to the [catch] block. *)
Lemma lambda_unsupported opts event version :
  event_version event = Some version → version ≠ "1.0" → version ≠ "2.0" →
  invoke_lambda opts event
  = lambda_catch opts
      (ThrownTRPCError
         (new_TRPCError INTERNAL_SERVER_ERROR
            ("Unsupported payload format version: " ++ version)))
      None [].
Proof.
  intros Hversion H1 H2.
  unfold invoke_lambda, createOpenApiAwsLambdaHandler, try_catch, lambda_try,
    determinePayloadFormat.
  rewrite Hversion.
  apply String.eqb_neq in H1, H2. by rewrite H1, H2.
Qed.

(** An event of a supported format, for a router that is accepted: the
    mock request is created and handed to the node-http handler. *)
Lemma lambda_try_run opts event :
  supported_version event → router_accepted (lambda_router opts) →
  lambda_try opts event None []
  = (let* req := createMockNodeHTTPRequest (event_url event) event in
     let* outcome :=
       call (openApiHttpHandler (lambda_node_opts opts event) req false)
         initial_locals in
     ret (if outcome is Sent written then written else createMockNodeHTTPResponse))
      (Some (event_url event)) [].
Proof.
  intros Hversion Haccepted. unfold lambda_try.
  assert ((negb (String.eqb (determinePayloadFormat event) "1.0")
           && negb (String.eqb (determinePayloadFormat event) "2.0"))%bool = false)
    as ->.
  { by destruct Hversion as [-> | ->]. }
  unfold createOpenApiNodeHttpHandler. cbn [opts_router lambda_node_opts].
  unfold router_accepted in Haccepted. rewrite Haccepted.
  reflexivity.
Qed.

(** What [createRequest] keeps of its options. *)
Lemma createRequest_Return url method q hs b req :
  createRequest url method q hs b = Return req →
  req_url req = url
  ∧ req_method req = (if String.eqb method EmptyString then "GET" else method)
  ∧ req_headers req = convertKeysToLowerCase hs
  ∧ req_body req = Some (if value_truthy b then b else JObj ∅)
  ∧ req_stream req = EmptyString.
Proof.
  unfold createRequest.
  destruct (Nat.eqb _ 0);
    [destruct (split "?" url) as [|? [|text ?]];
       [| |destruct (querystring_parse text); [|done]]|];
    by intros [= <-].
Qed.

(** The mock request of an event with a JSON body: the body is handed
    to [JSON.parse], whatever its size, and the request is created with
    the parsed value, or with the empty object when that is falsy, or
    the PARSE_ERROR is thrown. *)
Lemma mock_request_json {L} event text (l : L) t :
  has_method event →
  event_contentType event = Some "application/json" →
  event_body event = Some text → text ≠ EmptyString →
  let r := createMockNodeHTTPRequest (event_url event) event l t in
  final r = l
  ∧ trace r = (t ++ [EvDecode (JSONParse text)])%list
  ∧ match JSON_parse text with
    | Return v =>
        ∀ req, completion r = Return req →
               req_body req = Some (if value_truthy v then v else JObj ∅)
    | Throw cause => completion r = Throw (ThrownTRPCError (parse_error cause))
    end.
Proof.
  intros Hmethod Htype Hbody Htext r. subst r.
  unfold createMockNodeHTTPRequest.
  assert (∃ method,
            (if truthy (event_httpMethod event) then ret (event_httpMethod event)
             else match event_requestContext_http_method event with
                  | None =>
                      throw (ThrownError
                               {| error_name := "TypeError";
                                  error_message := "Cannot read properties of undefined";
                                  error_code := None; error_errors := None |})
                  | Some m => ret (or_else m (Some "GET"))
                  end) = ret (L:=L) method) as [method ->].
  { destruct Hmethod as [-> | [m Hm]]; [by eexists|].
    rewrite Hm. destruct (truthy (event_httpMethod event)); by eexists. }
  rewrite Htype, bool_decide_eq_true_2 by done.
  rewrite bind_run. cbn [ret completion final trace]. rewrite bind_run.
  unfold parse_body. rewrite Hbody.
  assert (truthy (Some text) = true) as -> by (by destruct text).
  rewrite bind_run. cbn [emit ret completion final trace default from_option id].
  unfold id.
  destruct (JSON_parse text) as [v|cause];
    cbn [ret throw of_completion completion final trace]; [|done].
  split; [done|]. split; [done|].
  intros req Hreq. by apply createRequest_Return in Hreq as (_ & _ & _ & ? & _).
Qed.
End Lambda.

Section LambdaClaims.
Context {env : Environment}.

(** C4. An event without a [version] field is of format "1.0". An event
    whose [version] is neither "1.0" nor "2.0" fails before any lookup
    of a procedure: the response has the code INTERNAL_SERVER_ERROR, and
    so never NOT_FOUND, the message "Unsupported payload format
    version: <value>" of the error shape, and status 500 unless
    [responseMeta] overrides the status. *)
Theorem unsupported_payload_version opts event :
  (event_version event = None → determinePayloadFormat event = "1.0")
  ∧ (∀ version,
       event_version event = Some version → version ≠ "1.0" → version ≠ "2.0" →
       let r := invoke_lambda opts event in
       let message := "Unsupported payload format version: " ++ version in
       let error := new_TRPCError INTERNAL_SERVER_ERROR message in
       (∀ method path, EvGetProcedure method path ∉ trace r)
       ∧ ∃ res,
           completion r = Return res
           ∧ statusCode res =
               default 500 (lambda_error_meta opts None error ≫= meta_status)
           ∧ body res =
               Some (OpenApiErrorResponse
                       (default message
                          (router_errorFormatter (lambda_router opts) error None))
                       INTERNAL_SERVER_ERROR None)
           ∧ ∀ text issues,
               body res ≠ Some (OpenApiErrorResponse text NOT_FOUND issues)).
Proof.
  split.
  - intros Hversion. unfold determinePayloadFormat. by rewrite Hversion.
  - intros version Hversion H1 H2 r message error. subst r.
    rewrite (lambda_unsupported _ _ _ Hversion H1 H2), lambda_catch_run.
    cbn. split.
    + intros method path Hev. destruct (lambda_onError opts).
      * by apply list_elem_of_singleton in Hev.
      * by apply elem_of_nil in Hev.
    + eexists. repeat split. intros text issues. discriminate.
Qed.

(** C7, as the code has it. On the Lambda handler, an event of a
    supported format, for an accepted router, whose method can be read,
    whose content type is exactly [application/json] and whose body is
    not empty and is rejected by [JSON.parse] fails with PARSE_ERROR:
    the response has the code PARSE_ERROR, the message "Failed to parse
    request body" of the error shape, and status 400 unless
    [responseMeta] overrides the status; no procedure is looked up or
    called. On the node-http handler the body is read only for a
    request that matches a procedure whose input schema is not void and
    whose method accepts a body; when [getBody] then throws the
    PARSE_ERROR, the response is the same and no procedure is called. *)
Theorem malformed_json_body opts event text cause
    node_opts req next url entry pathInput ds node_cause :
  (supported_version event → router_accepted (lambda_router opts) →
   has_method event →
   event_contentType event = Some "application/json" →
   event_body event = Some text → text ≠ EmptyString →
   JSON_parse text = Throw cause →
   let r := invoke_lambda opts event in
   let error := parse_error cause in
   trpc_code error = PARSE_ERROR
   ∧ trpc_message error = "Failed to parse request body"
   ∧ (∀ p input, EvCall p input ∉ trace r)
   ∧ (∀ method path, EvGetProcedure method path ∉ trace r)
   ∧ ∃ res,
       completion r = Return res
       ∧ statusCode res =
           default 400
             (lambda_error_meta opts (Some (event_url event)) error ≫= meta_status)
       ∧ body res =
           Some (OpenApiErrorResponse
                   (default "Failed to parse request body"
                      (router_errorFormatter (lambda_router opts) error
                         (Some (event_url event))))
                   PARSE_ERROR None))
  ∧ (new_URL (request_target (req_url req)) = Some url →
     createProcedureCache (opts_router node_opts) (req_method req)
       (normalizePath (pathname url))
       = Some {| found_procedure := Some entry; found_pathInput := pathInput |} →
     instanceofZodTypeLikeVoid (getInputOutputParsers (entry_procedure entry)) = false →
     acceptsRequestBody (req_method req) = true →
     getBody req (opts_maxBodySize node_opts)
       = (ds, Throw (ThrownTRPCError (parse_error node_cause))) →
     let r := handle node_opts req next in
     let error := parse_error node_cause in
     (∀ p input, EvCall p input ∉ trace r)
     ∧ ∃ res,
         completion r = Return (Sent res)
         ∧ statusCode res =
             default 400
               (error_meta node_opts (Some entry) initial_locals error ≫= meta_status)
         ∧ body res =
             Some (OpenApiErrorResponse
                     (default "Failed to parse request body"
                        (router_errorFormatter (opts_router node_opts) error
                           (Some (normalizePath (pathname url)))))
                     PARSE_ERROR None)).
Proof.
  split.
  - intros Hversion Haccepted Hmethod Htype Hbody Htext Hparse r error.
    split; [done|]. split; [done|]. subst r.
    unfold invoke_lambda, createOpenApiAwsLambdaHandler, try_catch.
    rewrite (lambda_try_run _ _ Hversion Haccepted), bind_run.
    destruct (mock_request_json event text (Some (event_url event)) []
                Hmethod Htype Hbody Htext) as (Hfinal & Htrace & Hcompletion).
    rewrite Hparse in Hcompletion. cbn zeta in Hfinal, Htrace, Hcompletion.
    destruct (createMockNodeHTTPRequest _ _ _ _) as [l t c].
    cbn in Hfinal, Htrace, Hcompletion. subst l t c.
    cbn [completion final trace]. rewrite lambda_catch_run. cbn.
    repeat split.
    + intros p input Hev. destruct (lambda_onError opts).
      * apply elem_of_cons in Hev as [?|Hev]; [done|].
        by apply list_elem_of_singleton in Hev.
      * by apply list_elem_of_singleton in Hev.
    + intros method path Hev. destruct (lambda_onError opts).
      * apply elem_of_cons in Hev as [?|Hev]; [done|].
        by apply list_elem_of_singleton in Hev.
      * by apply list_elem_of_singleton in Hev.
    + eauto.
  - intros Hurl Hfound Hvoid Hbody Hread r error. subst r.
    assert (reconcile_input node_opts req (req_method req) url entry pathInput
              initial_locals
              [EvGetProcedure (req_method req) (normalizePath (pathname url))]
            = {| final := initial_locals;
                 trace := ([EvGetProcedure (req_method req)
                              (normalizePath (pathname url))]
                           ++ (EvDecode <$> ds))%list;
                 completion := Throw (ThrownTRPCError error) |}) as Hinput.
    { unfold reconcile_input, bind, of_eff. by rewrite Hvoid, Hbody, Hread. }
    rewrite (handle_rejected node_opts req next url entry pathInput _ _ _
               Hurl Hfound Hinput), catch_block_run.
    cbn [completion final trace getErrorFromUnknown]. split.
    + assert (∀ p input,
                EvCall p input
                ∉ ([EvGetProcedure (req_method req) (normalizePath (pathname url))]
                   ++ (EvDecode <$> ds))%list) as Hquiet.
      { intros p input Hev%no_call_in_decodings.
        by apply list_elem_of_singleton in Hev. }
      intros p input Hev. destruct (opts_onError node_opts); [|by eapply Hquiet].
      apply elem_of_app in Hev as [Hev|Hev]; [by eapply Hquiet|].
      by apply list_elem_of_singleton in Hev.
    + eexists. split; [reflexivity|]. split; reflexivity.
Qed.
End LambdaClaims.

(** ** The limit on the size of a body *)

Section BodyLimit.
Context {env : Environment}.

(** The Lambda handler hands a JSON body to [JSON.parse], whatever its
    size. *)
Lemma lambda_decodes_body opts event text :
  supported_version event → router_accepted (lambda_router opts) →
  has_method event →
  event_contentType event = Some "application/json" →
  event_body event = Some text → text ≠ EmptyString →
  EvDecode (JSONParse text) ∈ trace (invoke_lambda opts event).
Proof.
  intros Hversion Haccepted Hmethod Htype Hbody Htext.
  assert (∃ suffix,
            trace (lambda_try opts event None [])
            = (EvDecode (JSONParse text) :: suffix)) as [suffix Htry].
  { rewrite (lambda_try_run _ _ Hversion Haccepted), bind_run.
    destruct (mock_request_json event text (Some (event_url event)) []
                Hmethod Htype Hbody Htext) as (_ & Htrace & _).
    cbn zeta in Htrace. cbn [app] in Htrace.
    set (mock := createMockNodeHTTPRequest _ _ _ _) in *.
    destruct (completion mock) as [req|cause]; [|by exists []].
    assert (extends (L:=option string)
              (let* outcome :=
                 call (openApiHttpHandler (lambda_node_opts opts event) req false)
                   initial_locals in
               ret (if outcome is Sent written then written
                    else createMockNodeHTTPResponse))) as Hext.
    { apply extends_bind; [|intros; apply extends_ret].
      apply extends_call, extends_openApiHttpHandler. }
    destruct (Hext (final mock) (trace mock)) as [suffix Hsuffix].
    rewrite Hsuffix, Htrace. by eexists. }
  unfold invoke_lambda, createOpenApiAwsLambdaHandler, try_catch.
  destruct (completion (lambda_try opts event None [])) as [res|cause].
  - rewrite Htry. apply list_elem_of_here.
  - destruct (extends_lambda_catch opts cause (final (lambda_try opts event None []))
                (trace (lambda_try opts event None []))) as [suffix' ->].
    rewrite Htry. apply list_elem_of_here.
Qed.
End BodyLimit.

Section BodyLimitClaim.
Context {env : Environment}.

(** The body reader modelled after the design document enforces the
    limit on a request that came over the wire, before it decodes. *)
Lemma getBody_enforces_limit wire (limit : nat) :
  req_body wire = None → (limit < String.length (req_stream wire))%nat →
  Sample.getBody wire (Some limit)
  = ([], Throw (ThrownTRPCError
                  (new_TRPCError PAYLOAD_TOO_LARGE "Request body too large"))).
Proof.
  intros Hbody Hlimit. unfold Sample.getBody, Sample.exceeds. rewrite Hbody.
  by apply Nat.ltb_lt in Hlimit as ->.
Qed.

(** C9, as the code has it. On the node-http path, for a request that
    matches a procedure whose input schema is not void and whose method
    accepts a body, the body is read by [getBody] under the configured
    [maxBodySize], and when [getBody] rejects the body without decoding
    it, the request fails with the code of that error: nothing is
    decoded, no procedure is called. The body reader of the design
    document rejects a body that exceeds the limit in this way, with
    PAYLOAD_TOO_LARGE. The Lambda handler has no [maxBodySize] to pass
    on, and hands a JSON body to [JSON.parse] whatever its size. *)
Theorem body_limit_on_node_http opts req next url entry pathInput error
    lambda_opts event text :
  (new_URL (request_target (req_url req)) = Some url →
   createProcedureCache (opts_router opts) (req_method req)
     (normalizePath (pathname url))
     = Some {| found_procedure := Some entry; found_pathInput := pathInput |} →
   instanceofZodTypeLikeVoid (getInputOutputParsers (entry_procedure entry)) = false →
   acceptsRequestBody (req_method req) = true →
   getBody req (opts_maxBodySize opts) = ([], Throw (ThrownTRPCError error)) →
   let r := handle opts req next in
   (∀ d, EvDecode d ∉ trace r)
   ∧ (∀ p input, EvCall p input ∉ trace r)
   ∧ ∃ res message issues,
       completion r = Return (Sent res)
       ∧ statusCode res =
           default (TRPC_ERROR_CODE_HTTP_STATUS (trpc_code error))
             (error_meta opts (Some entry) initial_locals error ≫= meta_status)
       ∧ body res = Some (OpenApiErrorResponse message (trpc_code error) issues))
  ∧ (∀ wire (limit : nat),
       req_body wire = None → (limit < String.length (req_stream wire))%nat →
       Sample.getBody wire (Some limit)
       = ([], Throw (ThrownTRPCError
                       (new_TRPCError PAYLOAD_TOO_LARGE "Request body too large"))))
  ∧ (supported_version event → router_accepted (lambda_router lambda_opts) →
     has_method event →
     event_contentType event = Some "application/json" →
     event_body event = Some text → text ≠ EmptyString →
     opts_maxBodySize (lambda_node_opts lambda_opts event) = None
     ∧ EvDecode (JSONParse text) ∈ trace (invoke_lambda lambda_opts event)).
Proof.
  split; [|split; [apply getBody_enforces_limit|]].
  - intros Hurl Hfound Hvoid Hbody Hread r. subst r.
    assert (reconcile_input opts req (req_method req) url entry pathInput initial_locals
              [EvGetProcedure (req_method req) (normalizePath (pathname url))]
            = {| final := initial_locals;
                 trace := [EvGetProcedure (req_method req) (normalizePath (pathname url))];
                 completion := Throw (ThrownTRPCError error) |}) as Hinput.
    { unfold reconcile_input, bind, of_eff. by rewrite Hvoid, Hbody, Hread. }
    rewrite (handle_rejected opts req next url entry pathInput _ _ _
               Hurl Hfound Hinput), catch_block_run.
    cbn. split; [|split; [|eauto 10]].
    + intros d Hev. destruct (opts_onError opts).
      * apply elem_of_cons in Hev as [?|Hev]; [done|].
        by apply list_elem_of_singleton in Hev.
      * by apply list_elem_of_singleton in Hev.
    + intros p input Hev. destruct (opts_onError opts).
      * apply elem_of_cons in Hev as [?|Hev]; [done|].
        by apply list_elem_of_singleton in Hev.
      * by apply list_elem_of_singleton in Hev.
  - intros Hversion Haccepted Hmethod Htype Hbody Htext.
    split; [done|]. by apply lambda_decodes_body.
Qed.
End BodyLimitClaim.

(** ** The lookup of a procedure *)

Section CacheFacts.
Context {env : Environment}.

Lemma Map_get_set_method {V} (k k' : string) (v : V) (m : list (string * V)) :
  Map_get same_method k' (Map_set same_method k v m)
  = if String.eqb k' k then Some v else Map_get same_method k' m.
Proof.
  unfold same_method. induction m as [|[k0 v0] m IH]; cbn; [done|].
  destruct (String.eqb_spec k k0) as [->|Hk]; cbn.
  - by destruct (String.eqb_spec k' k0).
  - rewrite IH. destruct (String.eqb_spec k' k0) as [->|], (String.eqb_spec k0 k);
      congruence.
Qed.

Lemma registration_of_values entry :
  registration_of entry = callback_values entry ≫= reg_of_values.
Proof.
  destruct entry as [path procedure].
  unfold registration_of, callback_values, reg_of_values, getProcedureType.
  destruct (def_openapi procedure) as [openapi|]; [|done].
  destruct (def_type procedure) as [[]|] eqn:Htype;
    destruct (openapi_enabled openapi) as [[]|]; cbn; by rewrite ?Htype.
Qed.

Lemma registrations_as_values router :
  registrations router
  = omap reg_of_values (omap callback_values (router_procedures router)).
Proof.
  unfold registrations.
  induction (router_procedures router) as [|entry procs IH]; [done|].
  cbn [omap list_omap]. rewrite IH, registration_of_values.
  by destruct (callback_values entry).
Qed.

(** What a call of the callback does to the patterns of a method: the
    pattern of the registration it makes, if it makes one under this
    method, is added at the end, in a new [RegExp]. *)
Lemma register_entries values st method :
  Forall (λ re, (re_ref re < next_ref st)%nat)
    (Map_keys (entries_for (procedureCache st) method)) →
  entries_for (procedureCache (register values st)) method
  = (entries_for (procedureCache st) method
     ++ match reg_of_values values with
        | Some r =>
            if String.eqb method (method_name (reg_method r))
            then [(getPathRegExp (next_ref st) (reg_template r), reg_entry r)]
            else []
        | None => []
        end)%list.
Proof.
  intros Hfresh. unfold register, reg_of_values. cbn [procedureCache].
  set (m := method_name (openapi_method (cb_openapi values))).
  set (cache := procedureCache st) in *.
  set (cache1 := if negb (Map_has same_method m cache)
                 then Map_set same_method m [] cache else cache).
  assert (∀ k, entries_for cache1 k = entries_for cache k) as Hsame.
  { intros k. subst cache1. unfold Map_has, entries_for.
    destruct (Map_get same_method m cache) as [inner|] eqn:Hm; [done|].
    cbn. rewrite Map_get_set_method.
    destruct (String.eqb_spec k m) as [->|]; [by rewrite Hm|done]. }
  assert (Map_get same_method m cache1 = Some (entries_for cache1 m)) as Hm.
  { subst cache1. unfold Map_has, entries_for.
    destruct (Map_get same_method m cache) as [inner|] eqn:Hm; cbn.
    - by rewrite Hm.
    - rewrite Map_get_set_method. by rewrite String.eqb_refl. }
  destruct (def_type (cb_procedure values)) as [[]|];
    try (by rewrite Hsame, app_nil_r).
  all: rewrite Hm; unfold entries_for at 1; rewrite Map_get_set_method; cbn;
    fold m; destruct (String.eqb_spec method m) as [->|];
    [|by rewrite <- (Hsame method), app_nil_r];
    rewrite Hsame; apply Map_set_fresh;
    eapply Forall_impl; [exact Hfresh|];
    intros re Hre; unfold same_RegExp, getPathRegExp; cbn in *;
    apply Nat.eqb_neq; lia.
Qed.

Lemma register_holds values st regs :
  cache_holds st regs →
  cache_holds (register values st) (regs ++ option_list (reg_of_values values)).
Proof.
  intros Hholds method. destruct (Hholds method) as (Hentries & Hfresh & Hnodup).
  rewrite (register_entries _ _ _ Hfresh).
  assert (next_ref (register values st) = S (next_ref st)) as -> by done.
  rewrite filter_app, !fmap_app, Hentries. unfold Map_keys in *.
  rewrite !fmap_app, Forall_app.
  destruct (reg_of_values values) as [r|].
  - change (option_list (Some r)) with [r]. rewrite filter_cons, filter_nil.
    destruct (String.eqb_spec method (method_name (reg_method r))) as [->|Hne].
    + rewrite decide_True by done. cbn. split; [done|]. split.
      * split; [|repeat constructor; lia].
        eapply Forall_impl; [exact Hfresh|]. cbn. lia.
      * apply NoDup_app. split; [done|]. split; [|repeat constructor; set_solver].
        intros ref Href [->|[]%elem_of_nil]%elem_of_cons.
        apply list_elem_of_fmap in Href as (re & Href & Hre).
        rewrite Forall_forall in Hfresh. specialize (Hfresh re Hre). cbn in Hfresh. lia.
    + rewrite decide_False by done. cbn. rewrite !app_nil_r.
      split; [done|]. split; [|done].
      split; [|constructor]. eapply Forall_impl; [exact Hfresh|]. cbn. lia.
  - change (option_list None) with (@nil Registration).
    rewrite filter_nil. cbn. rewrite !app_nil_r. split; [done|]. split; [|done].
    split; [|constructor]. eapply Forall_impl; [exact Hfresh|]. cbn. lia.
Qed.

(** The cache of a router holds its registrations. *)
Lemma build_cache_holds router :
  cache_holds (build_cache router) (registrations router).
Proof.
  unfold build_cache. rewrite forEachOpenApiProcedure_foldl, registrations_as_values.
  set (values := omap callback_values (router_procedures router)).
  assert (∀ st regs, cache_holds st regs →
            cache_holds (foldl (λ s v, register v s) st values)
              (regs ++ omap reg_of_values values)) as Hfold.
  { induction values as [|v values IH]; intros st regs Hholds; cbn.
    - by rewrite app_nil_r.
    - specialize (IH _ _ (register_holds v _ _ Hholds)).
      rewrite <- app_assoc in IH.
      by destruct (reg_of_values v). }
  apply (Hfold _ []). intros method. cbn. repeat split; constructor.
Qed.
End CacheFacts.

Section FindFacts.
Context {A B : Type}.

Lemma find_fmap (f : B → bool) (g : A → B) (l : list A) :
  find f (g <$> l) = g <$> find (f ∘ g) l.
Proof.
  induction l as [|x l IH]; [done|]. cbn. by destruct (f (g x)).
Qed.

Lemma find_filter (P : A → Prop) `{∀ x, Decision (P x)} (f : A → bool) (l : list A) :
  find f (filter P l) = find (λ x, bool_decide (P x) && f x) l.
Proof.
  induction l as [|x l IH]; [done|]. rewrite filter_cons. cbn.
  destruct (decide (P x)) as [Hx|Hx].
  - rewrite (bool_decide_eq_true_2 _ Hx). cbn. by rewrite IH.
  - by rewrite (bool_decide_eq_false_2 _ Hx).
Qed.

Lemma find_ext (f g : A → bool) (l : list A) :
  (∀ x, f x = g x) → find f l = find g l.
Proof. intros Hfg. induction l as [|x l IH]; [done|]. cbn. by rewrite Hfg, IH. Qed.

(** [find] returns the first element that passes the test. *)
Lemma find_first (f : A → bool) (l : list A) (x : A) :
  find f l = Some x ↔
  ∃ i, l !! i = Some x ∧ f x = true
       ∧ ∀ j y, (j < i)%nat → l !! j = Some y → f y = false.
Proof.
  induction l as [|a l IH]; cbn.
  - split; [done|]. by intros (i & ? & _).
  - destruct (f a) eqn:Ha.
    + split.
      * intros [= <-]. exists 0%nat. repeat split; [done|]. intros; lia.
      * intros ([|i] & Hi & Hx & Hbefore).
        -- cbn in Hi. by injection Hi as <-.
        -- specialize (Hbefore 0%nat a). cbn in Hbefore.
           rewrite Hbefore in Ha; [done|lia|done].
    + rewrite IH. split.
      * intros (i & Hi & Hx & Hbefore). exists (S i). repeat split; [done..|].
        intros [|j] y Hj Hy; cbn in Hy; [by injection Hy as <-|].
        apply (Hbefore j); [lia|done].
      * intros ([|i] & Hi & Hx & Hbefore); cbn in Hi.
        -- injection Hi as <-. congruence.
        -- exists i. repeat split; [done..|].
           intros j y Hj Hy. apply (Hbefore (S j)); [lia|done].
Qed.
End FindFacts.

Section LookupClaim.
Context {env : Environment}.

(** The scan of the patterns of one method. *)
Lemma scan_entries (inner : list (RegExp * CacheEntry)) (path : string) :
  NoDup (re_ref <$> Map_keys inner) →
  match find (λ re, RegExp_test re path) (Map_keys inner) with
  | None => None
  | Some procedureRegExp =>
      Some {| found_procedure := Map_get same_RegExp procedureRegExp inner;
              found_pathInput :=
                match RegExp_exec procedureRegExp path with
                | Some (Some groups) => groups
                | Some None | None => ∅
                end |}
  end
  = (λ '(re, entry),
       {| found_procedure := Some entry;
          found_pathInput := default ∅ (mjoin (path_exec (re_source re) path)) |})
    <$> find (λ '(re, _), RegExp_test re path) inner.
Proof.
  assert (∀ re, match RegExp_exec re path with
                | Some (Some groups) => groups
                | Some None | None => ∅
                end = default ∅ (mjoin (path_exec (re_source re) path))) as Hgroups.
  { intros re. unfold RegExp_exec. by destruct (path_exec _ _) as [[]|]. }
  unfold Map_keys. induction inner as [|[re0 entry0] inner IH]; [done|].
  rewrite !fmap_cons. intros [Hfresh Hnodup]%NoDup_cons.
  cbn [fst find Map_get].
  destruct (RegExp_test re0 path) eqn:Htest.
  - cbn. unfold same_RegExp. by rewrite Nat.eqb_refl, Hgroups.
  - specialize (IH Hnodup).
    destruct (find (λ re, RegExp_test re path) inner.*1) as [re|] eqn:Hfind;
      [|by rewrite <- IH].
    rewrite <- IH. f_equal. f_equal.
    apply find_some in Hfind as [Hin _].
    assert (same_RegExp re re0 = false) as ->; [|done].
    apply Nat.eqb_neq. intros Href. apply Hfresh. cbn [fst]. rewrite <- Href.
    apply list_elem_of_fmap. exists re. split; [done|]. by apply list_elem_of_In.
Qed.

(** The lookup reads the cache through the patterns of the method only. *)
Lemma getProcedure_entries cache method path :
  getProcedure cache method path
  = match find (λ re, RegExp_test re path) (Map_keys (entries_for cache method)) with
    | None => None
    | Some procedureRegExp =>
        Some {| found_procedure :=
                  Map_get same_RegExp procedureRegExp (entries_for cache method);
                found_pathInput :=
                  match RegExp_exec procedureRegExp path with
                  | Some (Some groups) => groups
                  | Some None | None => ∅
                  end |}
    end.
Proof.
  unfold getProcedure, entries_for.
  by destruct (Map_get same_method method cache).
Qed.

(** The lookup in the cache of a router is the first match among its
    registrations. *)
Lemma createProcedureCache_first_match router method path :
  createProcedureCache router method path
  = first_match (registrations router) method path.
Proof.
  unfold createProcedureCache, first_match.
  destruct (build_cache_holds router method) as (Hentries & _ & Hnodup).
  rewrite getProcedure_entries, (scan_entries _ _ Hnodup).
  set (inner := entries_for (procedureCache (build_cache router)) method) in *.
  set (test := λ p : string * CacheEntry,
         if path_exec p.1 path is Some _ then true else false).
  set (found := λ p : string * CacheEntry,
         {| found_procedure := Some p.2;
            found_pathInput := default ∅ (mjoin (path_exec p.1 path)) |}).
  set (source := (λ '(re, entry), (re_source re, entry))
         : RegExp * CacheEntry → string * CacheEntry) in *.
  transitivity (found <$> find test (source <$> inner)).
  { rewrite find_fmap, <- option_fmap_compose.
    assert (find (test ∘ source) inner = find (λ '(re, _), RegExp_test re path) inner)
      as -> by (apply find_ext; by intros []).
    by destruct (find _ inner) as [[]|]. }
  rewrite Hentries, find_fmap, <- option_fmap_compose, find_filter.
  assert (∀ r, (bool_decide (method_name (reg_method r) = method)
                && (test ∘ (λ r, (reg_template r, reg_entry r))) r)%bool
               = reg_matches method path r) as Htest.
  { intros r. unfold reg_matches, test. cbn. f_equal.
    - destruct (String.eqb_spec (method_name (reg_method r)) method) as [Heq|Hne].
      + by rewrite bool_decide_eq_true_2.
      + by rewrite bool_decide_eq_false_2.
    - destruct (path_exec (reg_template r) path) eqn:Hexec.
      + by rewrite bool_decide_eq_true_2.
      + rewrite bool_decide_eq_false_2; [done|]. by intros []. }
  by rewrite (find_ext _ _ _ Htest).
Qed.

(** C3. A lookup by method and path returns the first registration, in
    registration order, that is under the method and whose pattern
    matches the path, with its descriptor and the parameters of the
    match; registrations under other methods never match. So when two
    registered patterns match the path, the one registered first is
    selected, whichever is the more specific. *)
Theorem lookup_first_registered router method path :
  createProcedureCache router method path
  = found_of path <$> find (reg_matches method path) (registrations router)
  ∧ (∀ found,
       createProcedureCache router method path = Some found →
       ∃ i r,
         registrations router !! i = Some r
         ∧ method_name (reg_method r) = method
         ∧ is_Some (path_exec (reg_template r) path)
         ∧ found = found_of path r
         ∧ ∀ j r', (j < i)%nat → registrations router !! j = Some r' →
                   reg_matches method path r' = false)
  ∧ (∀ i j r1 r2,
       (i < j)%nat →
       registrations router !! i = Some r1 → registrations router !! j = Some r2 →
       reg_matches method path r1 = true → reg_matches method path r2 = true →
       (∀ k r, (k < i)%nat → registrations router !! k = Some r →
               reg_matches method path r = false) →
       createProcedureCache router method path = Some (found_of path r1)).
Proof.
  rewrite createProcedureCache_first_match. unfold first_match.
  split; [done|]. split.
  - intros found Hfound.
    destruct (find _ _) as [r|] eqn:Hfind; [|done]. injection Hfound as <-.
    apply find_first in Hfind as (i & Hi & Hr & Hbefore).
    exists i, r. split; [done|].
    unfold reg_matches in Hr. apply andb_true_iff in Hr as [Hm Hp].
    apply String.eqb_eq in Hm. apply bool_decide_eq_true in Hp. done.
  - intros i j r1 r2 Hij Hi Hj H1 H2 Hbefore.
    assert (find (reg_matches method path) (registrations router) = Some r1) as ->; [|done].
    apply find_first. by exists i.
Qed.
End LookupClaim.

(** ** The claims on the sample router *)

Section Witnesses.
Import Sample.

(** C9 as the design document has it fails. The options of the Lambda
    handler carry no limit, so whichever limit is meant, ten bytes here,
    the handler does not enforce it: a version 1 event for [POST /array]
    with the JSON body [["Steve","Mary"]] of 16 bytes is decoded by
    [createMockNodeHTTPRequest] and answered 200. On the node-http
    handler configured with a limit of ten bytes, a [POST /ping] with
    the same body is answered 200 as well: the procedure takes no
    input, so the body is never read. Both handlers run in the sample
    environment. *)
Lemma body_limit_not_on_every_path :
  ¬ (∀ (limit : nat) opts event text,
       event_body event = Some text → (limit < String.length text)%nat →
       let r := invoke_lambda opts event in
       rejected_for_size (trace r) (returned_response (completion r)))
  ∧ ¬ (∀ (limit : nat) opts req,
         opts_maxBodySize opts = Some limit →
         (limit < String.length (req_stream req))%nat →
         let r := handle opts req false in
         rejected_for_size (trace r) (sent_response (completion r))).
Proof.
  split.
  - intros Hclaim.
    destruct (Hclaim 10%nat lambda_opts (event_v1 "POST" "/array" json (Some steve_mary))
                steve_mary eq_refl) as [Hnone _].
    + vm_compute. lia.
    + apply (Hnone (JSONParse steve_mary)). vm_compute. apply list_elem_of_here.
  - intros Hclaim.
    destruct (Hclaim 10%nat limited_opts (wire_request "POST" "/ping" json steve_mary)
                eq_refl) as [_ (res & message & code & issues & Hres & Hbody & _)].
    + vm_compute. lia.
    + vm_compute in Hres. injection Hres as <-. discriminate Hbody.
Qed.
(** C1 on [GET /users/p?id=q]: the path parameter wins. *)
Lemma object_input_is_merge_witness :
  let r := handle node_opts (wire_request "GET" "/users/p?id=q" [] EmptyString) false in
  object_spread [JObj {[ "id" := JStr "q" ]}; JObj {[ "id" := JStr "p" ]}]
    = JObj {[ "id" := JStr "p" ]}
  ∧ var_input (final r) = JObj {[ "id" := JStr "p" ]}
  ∧ EvCall "getUser" (JObj {[ "id" := JStr "p" ]}) ∈ trace r.
Proof.
  destruct (object_input_is_merge (env:=Sample.env) node_opts
              (wire_request "GET" "/users/p?id=q" [] EmptyString) false
              {| pathname := "/users/p"; search := "?id=q" |}
              getUser_entry {[ "id" := JStr "p" ]}
              [QuerystringParse "id=q"] (JObj {[ "id" := JStr "q" ]})
              eq_refl eq_refl eq_refl eq_refl eq_refl)
    as (Hspread & _ & Hinput & _ & Hcalled).
  assert (({[ "id" := JStr "p" ]} : gmap string JsValue)
            ∪ own_properties (JObj {[ "id" := JStr "q" ]})
          = {[ "id" := JStr "p" ]}) as Hmerged by (vm_compute; reflexivity).
  rewrite Hmerged in Hspread, Hinput, Hcalled.
  split; [exact Hspread|]. split; [exact Hinput|].
  exact (Hcalled JUndefined echo eq_refl eq_refl).
Defined.

(** C2 on [POST /array]: the body [["Steve","Mary"]] is the input, and
    the body [{"a":1}] is rejected. *)
Lemma array_input_is_body_witness :
  let accepted := handle node_opts (wire_request "POST" "/array" json steve_mary) false in
  let rejected := handle node_opts (wire_request "POST" "/array" json a_is_1) false in
  (var_input (final accepted) = JArr [JStr "Steve"; JStr "Mary"]
   ∧ EvCall "getHelloArray" (JArr [JStr "Steve"; JStr "Mary"]) ∈ trace accepted)
  ∧ ∃ res,
      completion rejected = Return (Sent res)
      ∧ statusCode res = 400
      ∧ body res = Some (OpenApiErrorResponse "Expected array in request body"
                           BAD_REQUEST None).
Proof.
  split.
  - destruct (array_input_is_body (env:=Sample.env) node_opts
                (wire_request "POST" "/array" json steve_mary) false
                {| pathname := "/array"; search := EmptyString |}
                getHelloArray_entry ∅ [JSONParse steve_mary]
                (JArr [JStr "Steve"; JStr "Mary"])
                eq_refl eq_refl eq_refl eq_refl)
      as [_ Harray].
    destruct (Harray eq_refl) as (Hinput & _ & Hcalled).
    split; [exact Hinput|]. exact (Hcalled JUndefined echo eq_refl eq_refl).
  - destruct (array_input_is_body (env:=Sample.env) node_opts
                (wire_request "POST" "/array" json a_is_1) false
                {| pathname := "/array"; search := EmptyString |}
                getHelloArray_entry ∅ [JSONParse a_is_1]
                (JObj {[ "a" := JNum 1 ]})
                eq_refl eq_refl eq_refl eq_refl)
      as [Hother _].
    destruct (Hother eq_refl) as (_ & _ & res & Hres & Hstatus & Hbody).
    exists res. split; [exact Hres|]. split; [exact Hstatus|exact Hbody].
Defined.

(** C4 on the event [{ version: 'asdf' }]. *)
Lemma unsupported_payload_version_witness :
  let r := invoke_lambda lambda_opts bad_event in
  trace r = []
  ∧ ∃ res,
      completion r = Return res
      ∧ statusCode res = 500
      ∧ body res = Some (OpenApiErrorResponse "Unsupported payload format version: asdf"
                           INTERNAL_SERVER_ERROR None).
Proof.
  destruct (unsupported_payload_version (env:=Sample.env) lambda_opts bad_event)
    as [_ Hbad].
  destruct (Hbad "asdf" eq_refl) as (_ & res & Hres & Hstatus & Hbody & _);
    [discriminate|discriminate|].
  split; [reflexivity|].
  exists res. split; [exact Hres|]. split; [exact Hstatus|exact Hbody].
Defined.

(** C5 on what [postHello] throws for the body [{}]. *)
Lemma bad_request_envelope_witness :
  ∃ res,
    completion (catch_block node_opts "/hello" None missing_name initial_locals [])
      = Return (Sent res)
    ∧ statusCode res = 400
    ∧ body res = Some (OpenApiErrorResponse "Input validation failed" BAD_REQUEST
                         (Some [required_name])).
Proof.
  destruct (bad_request_envelope node_opts "/hello" None missing_name
              initial_locals [] eq_refl)
    as (res & Hres & Hstatus & Hzod & _).
  exists res. split; [exact Hres|]. split; [exact Hstatus|].
  exact (Hzod (ZodError [required_name]) eq_refl eq_refl).
Defined.

(** C7 as the design document has it fails. A version 1 event for
    [POST /ping] whose header reads [application/json; charset=utf-8]
    carries the body [asdfasd], which is not JSON: the test of the
    content type is an equality, so the body is not parsed, and the
    procedure is called and answered 200. On the node-http handler, a
    [POST /ping] with the header [application/json] and the same body
    is answered 200 as well: the procedure takes no input, so the body
    is never read. Both handlers run in the sample environment. *)
Lemma malformed_json_reaches_procedure :
  ¬ (∀ opts event text cause,
       carries_json (event_contentType event) = true →
       event_body event = Some text → JSON_parse text = Throw cause →
       let r := invoke_lambda opts event in
       rejected_as_malformed (trace r) (returned_response (completion r)))
  ∧ ¬ (∀ opts req cause,
         carries_json (Map_get String.eqb "content-type" (req_headers req)) = true →
         JSON_parse (req_stream req) = Throw cause →
         let r := handle opts req false in
         rejected_as_malformed (trace r) (sent_response (completion r))).
Proof.
  split.
  - intros Hclaim.
    destruct (Hclaim lambda_opts
                (event_v1 "POST" "/ping"
                   [("content-type", "application/json; charset=utf-8")]
                   (Some "asdfasd"))
                "asdfasd" (ThrownError SyntaxError) eq_refl eq_refl eq_refl)
      as [Hnone _].
    apply (Hnone "ping" JUndefined). vm_compute.
    repeat first [apply list_elem_of_here | apply list_elem_of_further].
  - intros Hclaim.
    destruct (Hclaim node_opts (wire_request "POST" "/ping" json "asdfasd")
                (ThrownError SyntaxError) eq_refl eq_refl)
      as [Hnone _].
    apply (Hnone "ping" JUndefined). vm_compute.
    repeat first [apply list_elem_of_here | apply list_elem_of_further].
Qed.


(** C7 on the body [asdfasd] of the Lambda tests, and on a
    [POST /hello] to the node-http handler whose body reader throws the
    PARSE_ERROR. *)
Lemma malformed_json_body_witness :
  let r := invoke_lambda lambda_opts (event_v1 "POST" "/hello" json (Some "asdfasd")) in
  let h := handle node_opts (wire_request "POST" "/hello" json "asdfasd") false in
  ((∀ p input, EvCall p input ∉ trace r)
   ∧ ∃ res,
       completion r = Return res
       ∧ statusCode res = 400
       ∧ body res = Some (OpenApiErrorResponse "Failed to parse request body"
                            PARSE_ERROR None))
  ∧ ((∀ p input, EvCall p input ∉ trace h)
     ∧ ∃ res,
         completion h = Return (Sent res)
         ∧ statusCode res = 400
         ∧ body res = Some (OpenApiErrorResponse "Failed to parse request body"
                              PARSE_ERROR None)).
Proof.
  destruct (malformed_json_body (env:=Sample.env) lambda_opts
              (event_v1 "POST" "/hello" json (Some "asdfasd")) "asdfasd"
              (ThrownError SyntaxError)
              node_opts (wire_request "POST" "/hello" json "asdfasd") false
              {| pathname := "/hello"; search := EmptyString |}
              {| entry_type := mutation; entry_path := "postHello";
                 entry_procedure := procedure_of POST "/hello" mutation [ZodObject] |}
              ∅ [JSONParse "asdfasd"] (ThrownError SyntaxError))
    as [Hlambda Hnode].
  split.
  - destruct Hlambda as (_ & _ & Hcalls & _ & res & Hres & Hstatus & Hbody).
    + by left.
    + reflexivity.
    + by left.
    + reflexivity.
    + reflexivity.
    + discriminate.
    + reflexivity.
    + split; [exact Hcalls|].
      exists res. split; [exact Hres|]. split; [exact Hstatus|exact Hbody].
  - destruct (Hnode eq_refl eq_refl eq_refl eq_refl eq_refl)
      as (Hcalls & res & Hres & Hstatus & Hbody).
    split; [exact Hcalls|].
    exists res. split; [exact Hres|]. split; [exact Hstatus|exact Hbody].
Defined.

(** C8 on [GET /nothing] and on [HEAD /nothing]. *)
Lemma unmatched_request_witness :
  (∃ res,
     completion (handle node_opts (wire_request "GET" "/nothing" [] EmptyString) false)
       = Return (Sent res)
     ∧ statusCode res = 404
     ∧ body res = Some (OpenApiErrorResponse "Not found" NOT_FOUND None))
  ∧ completion (handle node_opts (wire_request "HEAD" "/nothing" [] EmptyString) false)
    = Return (Sent no_content).
Proof.
  split.
  - destruct (unmatched_request (env:=Sample.env) node_opts
                (wire_request "GET" "/nothing" [] EmptyString)
                {| pathname := "/nothing"; search := EmptyString |} eq_refl eq_refl)
      as [_ Hother].
    destruct Hother as (res & Hres & Hstatus & Hbody); [discriminate|].
    exists res. split; [exact Hres|]. split; [exact Hstatus|exact Hbody].
  - destruct (unmatched_request (env:=Sample.env) node_opts
                (wire_request "HEAD" "/nothing" [] EmptyString)
                {| pathname := "/nothing"; search := EmptyString |} eq_refl eq_refl)
      as [Hhead _].
    exact (proj1 (Hhead eq_refl)).
Defined.

(** C10 on [HEAD /hello], a path that is registered under GET, POST and
    PUT. *)
Lemma head_request_witness :
  let r := handle node_opts (wire_request "HEAD" "/hello" [] EmptyString) false in
  is_Some (createProcedureCache router "GET" "/hello")
  ∧ completion r = Return (Sent no_content)
  ∧ ∀ p input, EvCall p input ∉ trace r.
Proof.
  destruct (head_request (env:=Sample.env) node_opts
              (wire_request "HEAD" "/hello" [] EmptyString)
              {| pathname := "/hello"; search := EmptyString |} eq_refl eq_refl)
    as (_ & Hres & _ & _ & Hcalls).
  split; [by eexists|]. split; [exact Hres|exact Hcalls].
Defined.

(** C9, as the code has it, on [POST /array] with a body of 16 bytes:
    the node-http handler with a limit of ten bytes answers 413 and
    decodes nothing; the Lambda handler decodes the body. *)
Lemma body_limit_on_node_http_witness :
  let r := handle limited_opts (wire_request "POST" "/array" json steve_mary) false in
  ((∀ d, EvDecode d ∉ trace r)
   ∧ ∃ res message issues,
       completion r = Return (Sent res)
       ∧ statusCode res = 413
       ∧ body res = Some (OpenApiErrorResponse message PAYLOAD_TOO_LARGE issues))
  ∧ EvDecode (JSONParse steve_mary)
      ∈ trace (invoke_lambda lambda_opts (event_v1 "POST" "/array" json (Some steve_mary))).
Proof.
  destruct (body_limit_on_node_http (env:=Sample.env) limited_opts
              (wire_request "POST" "/array" json steve_mary) false
              {| pathname := "/array"; search := EmptyString |}
              getHelloArray_entry ∅
              (new_TRPCError PAYLOAD_TOO_LARGE "Request body too large")
              lambda_opts (event_v1 "POST" "/array" json (Some steve_mary)) steve_mary)
    as (Hnode & _ & Hlambda).
  split.
  - destruct (Hnode eq_refl eq_refl eq_refl eq_refl eq_refl)
      as (Hdecode & _ & res & message & issues & Hres & Hstatus & Hbody).
    split; [exact Hdecode|].
    exists res, message, issues. split; [exact Hres|]. split; [exact Hstatus|exact Hbody].
  - apply Hlambda; [by left|reflexivity|by left|reflexivity|reflexivity|discriminate].
Defined.

(** C3 on [GET /users/me]: the patterns [/users/:id] and [/users/me]
    both match, and [/users/:id], which is registered first, is
    selected. *)
Lemma lookup_first_registered_witness :
  createProcedureCache router "GET" "/users/me"
  = Some {| found_procedure := Some getUser_entry;
            found_pathInput := {[ "id" := JStr "me" ]} |}.
Proof.
  destruct (lookup_first_registered (env:=Sample.env) router "GET" "/users/me")
    as (_ & _ & Hfirst).
  rewrite (Hfirst 3%nat 4%nat
             {| reg_method := GET; reg_template := "/users/:id";
                reg_entry := getUser_entry |}
             {| reg_method := GET; reg_template := "/users/me";
                reg_entry := {| entry_type := query; entry_path := "getMe";
                                entry_procedure :=
                                  procedure_of GET "/users/me" query [ZodObject] |} |}).
  - reflexivity.
  - lia.
  - reflexivity.
  - reflexivity.
  - reflexivity.
  - reflexivity.
  - intros [|[|[|k]]] r Hk; [intros [= <-]; reflexivity..|lia].
Defined.

End Witnesses.

(** * Further properties of the handlers

    As everywhere in this development, what is thrown is a value of
    [Thrown], an [Error] or a value with properties, and the hooks
    [onError] and [responseMeta] return. *)

(** ** The second half of the [try] block, case by case *)

Section InvokeCases.
Context {env : Environment}.

(** The [catch] block sends the error envelope. *)
Lemma catch_block_envelope opts path procedure cause l t :
  completion (catch_block opts path procedure cause l t)
  = Return (Sent (error_envelope opts path procedure l (getErrorFromUnknown cause)))
  ∧ final (catch_block opts path procedure cause l t) = l.
Proof. by rewrite catch_block_run. Qed.

(** What the second half of the [try] block does, by the outcome of
    [createContext], of the caller and of the procedure. *)
Lemma invoke_procedure_cases opts req entry l t :
  invoke_procedure opts req entry l t
  = match context_of opts req with
    | Throw cause =>
        {| final := l; trace := t ++ context_events opts; completion := Throw cause |}
    | Return ctx =>
        match router_createCaller (opts_router opts) ctx (split "." (entry_path entry)) with
        | None =>
            {| final := with_ctx l ctx; trace := t ++ context_events opts;
               completion :=
                 Throw (ThrownTRPCError
                          (new_TRPCError INTERNAL_SERVER_ERROR "Procedure not found")) |}
        | Some procedureFn =>
            match procedureFn (var_input l) with
            | Throw cause =>
                {| final := with_ctx l ctx;
                   trace := t ++ context_events opts
                              ++ [EvCall (entry_path entry) (var_input l)];
                   completion := Throw cause |}
            | Return data =>
                {| final := {| var_input := var_input l; var_ctx := ctx;
                               var_data := data |};
                   trace := t ++ context_events opts
                              ++ [EvCall (entry_path entry) (var_input l)];
                   completion :=
                     Return (Sent (sendResponse
                       (default 200 (success_meta opts entry ctx data ≫= meta_status))
                       (headersToRecord
                          (default [] (success_meta opts entry ctx data ≫= meta_headers)))
                       (Some (OpenApiSuccessResponse data)))) |}
            end
        end
    end%list.
Proof.
  unfold invoke_procedure, build_context, context_of, context_events, bind, emit,
    of_completion, set_ctx, set_data, modify_locals, get_locals, throw, ret,
    success_meta, with_ctx.
  destruct (opts_createContext opts) as [createContext|]; cbn.
  - destruct (createContext req) as [ctx|cause]; cbn; [|done].
    destruct (router_createCaller _ ctx _) as [procedureFn|]; cbn; [|done].
    destruct (procedureFn (var_input l)); cbn; by rewrite <- app_assoc.
  - rewrite app_nil_r.
    destruct (router_createCaller _ JUndefined _) as [procedureFn|]; cbn; [|done].
    by destruct (procedureFn (var_input l)).
Qed.
End InvokeCases.

Section Dispatch.
Context {env : Environment}.

(** The handler on a request whose input is reconciled. *)
Lemma handle_dispatch opts req next url entry pathInput l0 t0 :
  reconciled opts req url entry pathInput l0 t0 →
  handle opts req next = dispatch opts req (normalizePath (pathname url)) entry l0 t0.
Proof.
  intros (Hurl & Hfound & Hinput).
  rewrite (handle_run _ _ _ _ _ Hurl Hfound).
  cbn [mbind option_bind fmap option_fmap option_map default from_option
       found_procedure found_pathInput].
  unfold id, try_catch, try_block. rewrite bind_run, Hinput.
  cbn [completion final trace]. rewrite invoke_procedure_cases. unfold dispatch.
  destruct (context_of opts req) as [ctx|cause]; [|done].
  destruct (router_createCaller _ ctx _) as [procedureFn|]; [|done].
  by destruct (procedureFn (var_input l0)).
Qed.

(** Whatever happens after the reconciliation, a response is sent, the
    input is left alone, and the trace grows by the creation of the
    context, then at most one call, of the matched procedure on the
    input, then at most one report to [onError]. *)
Lemma dispatch_shape opts req path entry l0 t0 :
  let r := dispatch opts req path entry l0 t0 in
  var_input (final r) = var_input l0
  ∧ (∃ res, completion r = Return (Sent res))
  ∧ ∃ calls reports,
      trace r = (t0 ++ context_events opts ++ calls ++ reports)%list
      ∧ (calls = [] ∨ calls = [EvCall (entry_path entry) (var_input l0)])
      ∧ (reports = [] ∨ ∃ error ctx, reports = [EvOnError error (var_input l0) ctx]).
Proof.
  unfold dispatch.
  destruct (context_of opts req) as [ctx|cause];
    [destruct (router_createCaller _ ctx _) as [procedureFn|];
     [destruct (procedureFn (var_input l0)) as [data|cause]|]|];
    rewrite ?catch_block_run; cbn [final trace completion with_ctx var_input var_ctx];
    (split; [done|]); (split; [by eexists|]).
  - exists [EvCall (entry_path entry) (var_input l0)], [].
    rewrite app_nil_r. eauto.
  - destruct (opts_onError opts).
    + eexists [EvCall (entry_path entry) (var_input l0)], [_].
      rewrite <- !app_assoc. eauto 10.
    + exists [EvCall (entry_path entry) (var_input l0)], [].
      rewrite app_nil_r. eauto.
  - destruct (opts_onError opts).
    + eexists [], [_]. rewrite <- !app_assoc. eauto 10.
    + exists [], []. rewrite !app_nil_r. eauto.
  - destruct (opts_onError opts).
    + eexists [], [_]. rewrite <- !app_assoc. eauto 10.
    + exists [], []. rewrite !app_nil_r. eauto.
Qed.
End Dispatch.

Section HandlerShape.
Context {env : Environment}.

(** The reconciliation of the input only decodes: it adds decodings to
    the trace, leaves the context and the data alone, and when it throws
    it leaves the input alone as well. *)
Lemma reconcile_input_shape opts req method url entry pathInput l t :
  let r := reconcile_input opts req method url entry pathInput l t in
  (∃ ds, trace r = (t ++ (EvDecode <$> ds))%list)
  ∧ var_ctx (final r) = var_ctx l
  ∧ var_data (final r) = var_data l
  ∧ (completion r = Return () ∨ ∃ cause, completion r = Throw cause ∧ final r = l).
Proof.
  unfold reconcile_input, bind, of_eff, set_input, modify_locals, throw, ret.
  destruct (instanceofZodTypeLikeVoid _); cbn.
  { split; [exists []; by rewrite app_nil_r|]. eauto. }
  destruct (if acceptsRequestBody method then _ else _) as [ds [v|cause]]; cbn.
  - destruct (instanceofZodTypeArray _); [destruct (Array_isArray v)|]; cbn;
      (split; [by exists ds|]); eauto 10.
  - split; [by exists ds|]. eauto 10.
Qed.

(** A request that matches no procedure. *)
Lemma handle_unmatched_any opts req next url found :
  new_URL (request_target (req_url req)) = Some url →
  createProcedureCache (opts_router opts) (req_method req)
    (normalizePath (pathname url)) = found →
  found ≫= found_procedure = None →
  let path := normalizePath (pathname url) in
  handle opts req next
  = if next then
      {| final := initial_locals;
         trace := [EvGetProcedure (req_method req) path; EvNext];
         completion := Return CalledNext |}
    else if String.eqb (req_method req) "HEAD" then
      {| final := initial_locals; trace := [EvGetProcedure (req_method req) path];
         completion := Return (Sent no_content) |}
    else
      catch_block opts path None
        (ThrownTRPCError (new_TRPCError NOT_FOUND "Not found")) initial_locals
        [EvGetProcedure (req_method req) path].
Proof.
  intros Hurl Hfound Hnone path.
  rewrite (handle_run _ _ _ _ _ Hurl Hfound), Hnone.
  unfold try_catch, try_block. destruct next; [done|].
  cbn -[catch_block]. by destruct (String.eqb (req_method req) "HEAD").
Qed.

(** A request that matches a procedure: a response is sent, and the
    trace is the lookup, decodings, the creation of the context, at
    most one call, of the matched procedure on the input that the
    locals end with, and at most one report to [onError], of that
    input. *)
Lemma handle_matched_shape opts req next url entry pathInput :
  new_URL (request_target (req_url req)) = Some url →
  createProcedureCache (opts_router opts) (req_method req)
    (normalizePath (pathname url))
  = Some {| found_procedure := Some entry; found_pathInput := pathInput |} →
  let r := handle opts req next in
  (∃ res, completion r = Return (Sent res))
  ∧ ∃ ds ctxs calls reports,
      trace r = ([EvGetProcedure (req_method req) (normalizePath (pathname url))]
                 ++ (EvDecode <$> ds) ++ ctxs ++ calls ++ reports)%list
      ∧ (ctxs = [] ∨ ctxs = [EvCreateContext])
      ∧ (calls = [] ∨ calls = [EvCall (entry_path entry) (var_input (final r))])
      ∧ (reports = [] ∨ ∃ error ctx,
           reports = [EvOnError error (var_input (final r)) ctx]).
Proof.
  intros Hurl Hfound r. subst r.
  set (path := normalizePath (pathname url)) in *.
  destruct (reconcile_input_shape opts req (req_method req) url entry pathInput
              initial_locals [EvGetProcedure (req_method req) path])
    as ([ds Htrace] & _ & _ & Hcompletion).
  destruct (reconcile_input _ _ _ _ _ _ _ _) as [l0 t0 c] eqn:Hinput.
  cbn in Htrace, Hcompletion. subst t0.
  destruct Hcompletion as [-> | (cause & -> & ->)].
  - rewrite (handle_dispatch opts req next url entry pathInput l0 _
               (conj Hurl (conj Hfound Hinput))).
    destruct (dispatch_shape opts req path entry l0
                (EvGetProcedure (req_method req) path :: (EvDecode <$> ds)))
      as (Hin & Hres & calls & reports & Htrace & Hcalls & Hreports).
    fold path. split; [done|]. rewrite Hin.
    exists ds, (context_events opts), calls, reports.
    split; [by rewrite Htrace|].
    split; [|done]. unfold context_events. destruct (opts_createContext opts); eauto.
  - rewrite (handle_rejected opts req next url entry pathInput _ _ _
               Hurl Hfound Hinput), catch_block_run.
    cbn [final trace completion]. split; [by eexists|].
    destruct (opts_onError opts).
    + eexists ds, [], [], [_]. cbn [app]. eauto 10.
    + exists ds, [], [], []. cbn [app]. rewrite app_nil_r. eauto 10.
Qed.
End HandlerShape.

(** Case analysis of the membership of an event in a trace that is
    written out. *)
Ltac trace_cases H :=
  repeat first
    [ apply elem_of_app in H as [H|H]
    | apply elem_of_cons in H as [H|H]
    | apply list_elem_of_fmap in H as (? & H & _)
    | apply elem_of_nil in H; destruct H ];
  try discriminate H.

Section HandlerProperties.
Context {env : Environment}.

(** X1. Once the URL of the request is parsed, the handler never throws:
    it sends a response, or it calls [next], which it does only when a
    [next] callback was passed and no procedure matched. When the URL
    cannot be parsed the handler throws before it looks up, sends or
    reports anything. *)
Theorem handler_always_answers opts req next :
  let r := handle opts req next in
  match new_URL (request_target (req_url req)) with
  | Some url =>
      ∃ out,
        completion r = Return out
        ∧ (next = false → ∃ res, out = Sent res)
        ∧ (out = CalledNext →
             next = true
             ∧ createProcedureCache (opts_router opts) (req_method req)
                 (normalizePath (pathname url)) ≫= found_procedure = None)
  | None => (∃ cause, completion r = Throw cause) ∧ trace r = []
  end.
Proof.
  intros r. subst r.
  destruct (new_URL (request_target (req_url req))) as [url|] eqn:Hurl.
  - destruct (createProcedureCache (opts_router opts) (req_method req)
                (normalizePath (pathname url)) ≫= found_procedure)
      as [entry|] eqn:Hentry.
    + destruct (createProcedureCache _ _ _) as [[procedure pathInput]|] eqn:Hfound;
        [|done].
      cbn in Hentry. subst procedure.
      destruct (handle_matched_shape opts req next url entry pathInput Hurl Hfound)
        as ([res Hres] & _).
      exists (Sent res). split; [done|]. split; [by eexists|done].
    + rewrite (handle_unmatched_any opts req next url _ Hurl eq_refl Hentry).
      destruct next.
      * eexists. split; [done|]. split; done.
      * destruct (String.eqb (req_method req) "HEAD");
          rewrite ?catch_block_run; eexists; (split; [done|]);
          (split; [by eexists|done]).
  - unfold handle, openApiHttpHandler. rewrite Hurl. split; [by eexists|done].
Qed.

(** X2. [next] is called exactly when it was passed and no procedure
    matched, whatever the method, HEAD included; the handler then does
    nothing else: no response, no report to [onError]. *)
Theorem next_iff_unmatched opts req next url :
  new_URL (request_target (req_url req)) = Some url →
  let r := handle opts req next in
  let path := normalizePath (pathname url) in
  (EvNext ∈ trace r ↔
     next = true
     ∧ createProcedureCache (opts_router opts) (req_method req) path
         ≫= found_procedure = None)
  ∧ (EvNext ∈ trace r →
     completion r = Return CalledNext
     ∧ trace r = [EvGetProcedure (req_method req) path; EvNext]).
Proof.
  intros Hurl r path. subst r path.
  destruct (createProcedureCache (opts_router opts) (req_method req)
              (normalizePath (pathname url)) ≫= found_procedure)
    as [entry|] eqn:Hentry.
  - destruct (createProcedureCache _ _ _) as [[procedure pathInput]|] eqn:Hfound;
      [|done].
    cbn in Hentry. subst procedure.
    destruct (handle_matched_shape opts req next url entry pathInput Hurl Hfound)
      as (_ & ds & ctxs & calls & reports & -> & Hctxs & Hcalls & Hreports).
    assert (EvNext ∉ ([EvGetProcedure (req_method req) (normalizePath (pathname url))]
                      ++ (EvDecode <$> ds) ++ ctxs ++ calls ++ reports)%list) as Hno.
    { intros Hev.
      destruct Hctxs as [-> | ->], Hcalls as [-> | ->],
        Hreports as [-> | (? & ? & ->)]; trace_cases Hev. }
    split; [split; [done|by intros [_ ?]]|done].
  - rewrite (handle_unmatched_any opts req next url _ Hurl eq_refl Hentry).
    destruct next.
    + cbn. split; [|done]. split; [done|]. intros _. has_event.
    + assert (∀ t : Result Locals Outcome,
                EvNext ∉ trace t →
                (EvNext ∈ trace t ↔ false = true ∧ @None CacheEntry = None)
                ∧ (EvNext ∈ trace t → completion t = Return CalledNext
                   ∧ trace t = [EvGetProcedure (req_method req)
                                  (normalizePath (pathname url)); EvNext])) as Hno.
      { intros t Ht. split; [split; [done|by intros [? _]]|done]. }
      apply Hno. destruct (String.eqb (req_method req) "HEAD").
      * cbn. intros Hev. trace_cases Hev.
      * rewrite catch_block_run. cbn. intros Hev.
        destruct (opts_onError opts); trace_cases Hev.
Qed.

(** X3. A request causes at most one call of a procedure: none when no
    procedure matched, and otherwise none or one call of the matched
    procedure, on the input that the handler's [input] variable ends
    with, which is also the input that [onError] is given. *)
Theorem at_most_one_call opts req next url :
  new_URL (request_target (req_url req)) = Some url →
  let r := handle opts req next in
  match createProcedureCache (opts_router opts) (req_method req)
          (normalizePath (pathname url)) ≫= found_procedure with
  | None => filter is_call (trace r) = []
  | Some entry =>
      (filter is_call (trace r) = []
       ∨ filter is_call (trace r) = [EvCall (entry_path entry) (var_input (final r))])
      ∧ ∀ error input ctx,
          EvOnError error input ctx ∈ trace r → input = var_input (final r)
  end.
Proof.
  intros Hurl r. subst r.
  destruct (createProcedureCache (opts_router opts) (req_method req)
              (normalizePath (pathname url)) ≫= found_procedure)
    as [entry|] eqn:Hentry.
  - destruct (createProcedureCache _ _ _) as [[procedure pathInput]|] eqn:Hfound;
      [|done].
    cbn in Hentry. subst procedure.
    destruct (handle_matched_shape opts req next url entry pathInput Hurl Hfound)
      as (_ & ds & ctxs & calls & reports & -> & Hctxs & Hcalls & Hreports).
    assert (filter is_call (EvDecode <$> ds) = []) as Hds.
    { induction ds as [|d ds IH]; [done|]. rewrite fmap_cons, filter_cons. by cbn. }
    rewrite !filter_app, Hds. split.
    + destruct Hctxs as [-> | ->], Hcalls as [-> | ->],
        Hreports as [-> | (? & ? & ->)]; cbn; eauto.
    + intros error input ctx Hev.
      destruct Hctxs as [-> | ->], Hcalls as [-> | ->],
        Hreports as [-> | (? & ? & ->)]; trace_cases Hev; congruence.
  - rewrite (handle_unmatched_any opts req next url _ Hurl eq_refl Hentry).
    destruct next; [done|].
    destruct (String.eqb (req_method req) "HEAD"); [done|].
    rewrite catch_block_run. cbn. by destruct (opts_onError opts).
Qed.
End HandlerProperties.

(** A filter that no element passes leaves nothing. *)
Lemma filter_none (f : Event → bool) (t : list Event) :
  (∀ ev, ev ∈ t → f ev = false) → filter f t = [].
Proof.
  induction t as [|ev t IH]; [done|]. intros Hnone.
  rewrite filter_cons, (Hnone ev) by apply list_elem_of_here.
  apply IH. intros ev' Hev'. apply Hnone. by apply list_elem_of_further.
Qed.

Section MatchedProperties.
Context {env : Environment}.

(** After the reconciliation the trace holds the lookup and decodings
    only, and the context and the data are still undefined. *)
Lemma reconciled_shape opts req url entry pathInput l0 t0 :
  reconciled opts req url entry pathInput l0 t0 →
  (∃ ds, t0 = EvGetProcedure (req_method req) (normalizePath (pathname url))
               :: (EvDecode <$> ds))
  ∧ var_ctx l0 = JUndefined ∧ var_data l0 = JUndefined.
Proof.
  intros (_ & _ & Hinput).
  destruct (reconcile_input_shape opts req (req_method req) url entry pathInput
              initial_locals
              [EvGetProcedure (req_method req) (normalizePath (pathname url))])
    as ([ds Htrace] & Hctx & Hdata & _).
  rewrite Hinput in Htrace, Hctx, Hdata. cbn in Htrace, Hctx, Hdata. eauto.
Qed.

(** X4. A procedure whose input schema is void gets no input: neither
    the body nor the query is read, so nothing is decoded, the path
    parameters of the match are dropped, and every call the request
    causes is a call on [undefined]. *)
Theorem void_input_reads_nothing opts req next url entry pathInput :
  new_URL (request_target (req_url req)) = Some url →
  createProcedureCache (opts_router opts) (req_method req)
    (normalizePath (pathname url))
  = Some {| found_procedure := Some entry; found_pathInput := pathInput |} →
  instanceofZodTypeLikeVoid (getInputOutputParsers (entry_procedure entry)) = true →
  let r := handle opts req next in
  var_input (final r) = JUndefined
  ∧ (∀ d, EvDecode d ∉ trace r)
  ∧ (∀ p input, EvCall p input ∈ trace r → p = entry_path entry ∧ input = JUndefined).
Proof.
  intros Hurl Hfound Hvoid r. subst r.
  set (path := normalizePath (pathname url)) in *.
  assert (reconciled opts req url entry pathInput initial_locals
            [EvGetProcedure (req_method req) path]) as Hreconciled.
  { split; [done|]. split; [done|]. unfold reconcile_input. by rewrite Hvoid. }
  rewrite (handle_dispatch opts req next url entry pathInput _ _ Hreconciled).
  destruct (dispatch_shape opts req path entry initial_locals
              [EvGetProcedure (req_method req) path])
    as (Hin & _ & calls & reports & Htrace & Hcalls & Hreports).
  fold path. rewrite Hin, Htrace. split; [done|]. unfold context_events.
  split; [intros d Hev|intros p input Hev];
    destruct (opts_createContext opts), Hcalls as [-> | ->],
      Hreports as [-> | (? & ? & ->)]; trace_cases Hev;
    by injection Hev as -> ->.
Qed.

(** X5. When the procedure returns, its data is the body of the response,
    unchanged; the status is 200 unless [responseMeta] gives one; the
    data is kept in the handler's [data] variable, the procedure was
    called once, on the reconciled input, and [onError] is not
    called. *)
Theorem success_envelope opts req next url entry pathInput l0 t0 ctx procedureFn data :
  reconciled opts req url entry pathInput l0 t0 →
  context_of opts req = Return ctx →
  router_createCaller (opts_router opts) ctx (split "." (entry_path entry))
    = Some procedureFn →
  procedureFn (var_input l0) = Return data →
  let r := handle opts req next in
  trace r = (t0 ++ context_events opts ++ [EvCall (entry_path entry) (var_input l0)])%list
  ∧ (∀ error input c, EvOnError error input c ∉ trace r)
  ∧ var_data (final r) = data
  ∧ ∃ res,
      completion r = Return (Sent res)
      ∧ statusCode res = default 200 (success_meta opts entry ctx data ≫= meta_status)
      ∧ body res = Some (OpenApiSuccessResponse data).
Proof.
  intros Hreconciled Hctx Hfn Hdata r. subst r.
  destruct (reconciled_shape _ _ _ _ _ _ _ Hreconciled) as ([ds ->] & _).
  rewrite (handle_dispatch opts req next url entry pathInput _ _ Hreconciled).
  unfold dispatch. rewrite Hctx, Hfn, Hdata. cbn [trace final completion var_data].
  split; [done|]. split; [|split; [done|by eexists]].
  intros error input c Hev. unfold context_events in Hev.
  destruct (opts_createContext opts); trace_cases Hev.
Qed.

(** X6. When [createContext] throws, no procedure is called and the
    failure envelope is sent for what was thrown, turned into a
    [TRPCError] by [getErrorFromUnknown]; [onError], when configured, is
    given that error, the reconciled input and an undefined context. *)
Theorem context_failure opts req next url entry pathInput l0 t0 cause :
  reconciled opts req url entry pathInput l0 t0 →
  context_of opts req = Throw cause →
  let r := handle opts req next in
  let error := getErrorFromUnknown cause in
  completion r
    = Return (Sent (error_envelope opts (normalizePath (pathname url)) (Some entry)
                      l0 error))
  ∧ trace r
    = (t0 ++ context_events opts
         ++ if opts_onError opts then [EvOnError error (var_input l0) JUndefined]
            else [])%list
  ∧ ∀ p input, EvCall p input ∉ trace r.
Proof.
  intros Hreconciled Hctx r error. subst r.
  destruct (reconciled_shape _ _ _ _ _ _ _ Hreconciled) as ([ds ->] & Hundefined & _).
  rewrite (handle_dispatch opts req next url entry pathInput _ _ Hreconciled).
  unfold dispatch. rewrite Hctx, catch_block_run. cbn [completion trace].
  rewrite Hundefined. fold error. split; [done|].
  assert (∀ t : list Event,
            (if opts_onError opts
             then (t ++ [EvOnError error (var_input l0) JUndefined])%list else t)
            = (t ++ if opts_onError opts
                    then [EvOnError error (var_input l0) JUndefined] else [])%list)
    as ->.
  { intros t. destruct (opts_onError opts); [done|by rewrite app_nil_r]. }
  rewrite <- app_assoc. split; [done|].
  intros p input Hev. unfold context_events in Hev.
  destruct (opts_onError opts), (opts_createContext opts); trace_cases Hev.
Qed.

(** X7. When the walk of the caller along the path of the matched
    procedure yields no function, nothing is called and the failure is an
    INTERNAL_SERVER_ERROR: status 500 unless [responseMeta] gives
    another, and the message "Procedure not found" unless the router's
    error formatter replaces it. *)
Theorem missing_procedure_function opts req next url entry pathInput l0 t0 ctx :
  reconciled opts req url entry pathInput l0 t0 →
  context_of opts req = Return ctx →
  router_createCaller (opts_router opts) ctx (split "." (entry_path entry)) = None →
  let r := handle opts req next in
  let error := new_TRPCError INTERNAL_SERVER_ERROR "Procedure not found" in
  (∀ p input, EvCall p input ∉ trace r)
  ∧ var_ctx (final r) = ctx
  ∧ ∃ res,
      completion r = Return (Sent res)
      ∧ statusCode res
        = default 500 (error_meta opts (Some entry) (with_ctx l0 ctx) error ≫= meta_status)
      ∧ body res
        = Some (OpenApiErrorResponse
                  (default "Procedure not found"
                     (router_errorFormatter (opts_router opts) error
                        (Some (normalizePath (pathname url)))))
                  INTERNAL_SERVER_ERROR None).
Proof.
  intros Hreconciled Hctx Hfn r error. subst r.
  destruct (reconciled_shape _ _ _ _ _ _ _ Hreconciled) as ([ds ->] & _).
  rewrite (handle_dispatch opts req next url entry pathInput _ _ Hreconciled).
  unfold dispatch. rewrite Hctx, Hfn, catch_block_run.
  cbn [completion trace final with_ctx var_ctx]. split.
  - intros p input Hev. unfold context_events in Hev.
    destruct (opts_onError opts), (opts_createContext opts); trace_cases Hev.
  - split; [done|]. by eexists.
Qed.

(** X8. When the procedure throws, it was called once, on the reconciled
    input, and the failure envelope is sent for what it threw: a
    [TRPCError] keeps its code, so that the status is the one of the
    table for that code unless [responseMeta] gives another, and
    [onError], when configured, is given the error, the input and the
    context that was built. *)
Theorem procedure_failure opts req next url entry pathInput l0 t0 ctx procedureFn cause :
  reconciled opts req url entry pathInput l0 t0 →
  context_of opts req = Return ctx →
  router_createCaller (opts_router opts) ctx (split "." (entry_path entry))
    = Some procedureFn →
  procedureFn (var_input l0) = Throw cause →
  let r := handle opts req next in
  let error := getErrorFromUnknown cause in
  let path := normalizePath (pathname url) in
  filter is_call (trace r) = [EvCall (entry_path entry) (var_input l0)]
  ∧ filter is_report (trace r)
    = (if opts_onError opts then [EvOnError error (var_input l0) ctx] else [])
  ∧ completion r
    = Return (Sent (error_envelope opts path (Some entry) (with_ctx l0 ctx) error))
  ∧ ∀ e, cause = ThrownTRPCError e →
      ∃ res message issues,
        completion r = Return (Sent res)
        ∧ statusCode res
          = default (TRPC_ERROR_CODE_HTTP_STATUS (trpc_code e))
              (error_meta opts (Some entry) (with_ctx l0 ctx) e ≫= meta_status)
        ∧ body res = Some (OpenApiErrorResponse message (trpc_code e) issues).
Proof.
  intros Hreconciled Hctx Hfn Hthrow r error path. subst r path.
  destruct (reconciled_shape _ _ _ _ _ _ _ Hreconciled) as ([ds ->] & _).
  rewrite (handle_dispatch opts req next url entry pathInput _ _ Hreconciled).
  unfold dispatch. rewrite Hctx, Hfn, Hthrow, catch_block_run.
  cbn [completion trace final with_ctx var_ctx var_input]. fold error.
  split; [|split; [|split; [done|]]].
  - destruct (opts_onError opts); rewrite !filter_app;
      rewrite (filter_none is_call (_ :: _)), (filter_none is_call (context_events _));
      try done; intros ev Hev; unfold context_events in Hev;
      destruct (opts_createContext opts); trace_cases Hev; by subst.
  - destruct (opts_onError opts); rewrite !filter_app;
      rewrite (filter_none is_report (_ :: _)),
        (filter_none is_report (context_events _));
      try done; intros ev Hev; unfold context_events in Hev;
      destruct (opts_createContext opts); trace_cases Hev; by subst.
  - intros e ->. subst error. cbn [getErrorFromUnknown]. by do 3 eexists.
Qed.
End MatchedProperties.

Section Answers.
Context {env : Environment}.

(** The four ways a request ends once its URL is parsed: [next] is
    called; an unmatched HEAD request is answered without content; the
    [catch] block answers; or the procedure returned and its data is
    sent. In the last two, nothing was reported to [onError] before. *)
Lemma handle_cases opts req next url :
  new_URL (request_target (req_url req)) = Some url →
  let r := handle opts req next in
  let path := normalizePath (pathname url) in
  r = {| final := initial_locals; trace := [EvGetProcedure (req_method req) path; EvNext];
         completion := Return CalledNext |}
  ∨ (req_method req = "HEAD"
     ∧ r = {| final := initial_locals; trace := [EvGetProcedure (req_method req) path];
              completion := Return (Sent no_content) |})
  ∨ (∃ procedure cause l t,
       r = catch_block opts path procedure cause l t ∧ filter is_report t = [])
  ∨ (∃ entry ctx data l t,
       r = {| final := l; trace := t;
              completion :=
                Return (Sent (sendResponse
                  (default 200 (success_meta opts entry ctx data ≫= meta_status))
                  (headersToRecord
                     (default [] (success_meta opts entry ctx data ≫= meta_headers)))
                  (Some (OpenApiSuccessResponse data)))) |}
       ∧ filter is_report t = []).
Proof.
  intros Hurl r path. subst r path.
  set (path := normalizePath (pathname url)).
  destruct (createProcedureCache (opts_router opts) (req_method req) path
              ≫= found_procedure) as [entry|] eqn:Hentry.
  - destruct (createProcedureCache _ _ _) as [[procedure pathInput]|] eqn:Hfound;
      [|done].
    cbn in Hentry. subst procedure. right. right.
    destruct (reconcile_input_shape opts req (req_method req) url entry pathInput
                initial_locals [EvGetProcedure (req_method req) path])
      as ([ds Htrace] & _ & _ & Hcompletion).
    destruct (reconcile_input _ _ _ _ _ _ _ _) as [l0 t0 c] eqn:Hinput.
    cbn in Htrace, Hcompletion. subst t0.
    assert (∀ calls,
              (calls = [] ∨ calls = [EvCall (entry_path entry) (var_input l0)]) →
              filter is_report
                ((EvGetProcedure (req_method req) path :: (EvDecode <$> ds))
                   ++ context_events opts ++ calls)%list = []) as Hquiet.
    { intros calls Hcalls. apply filter_none. intros ev Hev.
      unfold context_events in Hev.
      destruct (opts_createContext opts), Hcalls as [-> | ->];
        trace_cases Hev; by subst. }
    destruct Hcompletion as [-> | (cause & -> & ->)].
    + rewrite (handle_dispatch opts req next url entry pathInput l0 _
                 (conj Hurl (conj Hfound Hinput))).
      fold path. unfold dispatch.
      destruct (context_of opts req) as [ctx|cause];
        [destruct (router_createCaller _ ctx _) as [procedureFn|];
         [destruct (procedureFn (var_input l0)) as [data|cause]|]|].
      * right. eexists entry, ctx, data, _, _. split; [done|].
        apply (Hquiet [_]). by right.
      * left. eexists _, _, _, _. split; [done|].
        apply (Hquiet [_]). by right.
      * left. eexists _, _, _, _. split; [done|].
        rewrite <- (app_nil_r (context_events opts)).
        apply (Hquiet []). by left.
      * left. eexists _, _, _, _. split; [done|].
        rewrite <- (app_nil_r (context_events opts)).
        apply (Hquiet []). by left.
    + rewrite (handle_rejected opts req next url entry pathInput _ _ _
                 Hurl Hfound Hinput).
      left. eexists _, _, _, _. split; [done|].
      apply filter_none. intros ev Hev. trace_cases Hev; by subst.
  - rewrite (handle_unmatched_any opts req next url _ Hurl eq_refl Hentry).
    destruct next; [by left|]. right.
    destruct (String.eqb_spec (req_method req) "HEAD") as [Hhead|_]; [by left|].
    right. left. by eexists _, _, _, _.
Qed.

(** Without a [next] callback, a request whose URL is parsed is
    answered. *)
Lemma handle_sends opts req url :
  new_URL (request_target (req_url req)) = Some url →
  ∃ res, completion (handle opts req false) = Return (Sent res).
Proof.
  intros Hurl.
  destruct (createProcedureCache (opts_router opts) (req_method req)
              (normalizePath (pathname url)) ≫= found_procedure)
    as [entry|] eqn:Hentry.
  - destruct (createProcedureCache _ _ _) as [[procedure pathInput]|] eqn:Hfound;
      [|done].
    cbn in Hentry. subst procedure.
    by destruct (handle_matched_shape opts req false url entry pathInput Hurl Hfound)
      as (Hres & _).
  - rewrite (handle_unmatched_any opts req false url _ Hurl eq_refl Hentry).
    destruct (String.eqb (req_method req) "HEAD"); rewrite ?catch_block_run;
      by eexists.
Qed.

(** X9. [onError] is called exactly when it is configured and the
    response is a failure envelope, and then once, with the error whose
    code the envelope carries and with the input and the context that
    the handler's variables end with. A success, an empty answer to
    HEAD and a call of [next] report nothing. *)
Theorem report_iff_failure opts req next url :
  new_URL (request_target (req_url req)) = Some url →
  let r := handle opts req next in
  match sent_response (completion r) with
  | Some res =>
      if is_error_response res then
        ∃ error message issues,
          body res = Some (OpenApiErrorResponse message (trpc_code error) issues)
          ∧ filter is_report (trace r)
            = if opts_onError opts
              then [EvOnError error (var_input (final r)) (var_ctx (final r))]
              else []
      else filter is_report (trace r) = []
  | None => filter is_report (trace r) = []
  end.
Proof.
  intros Hurl r. subst r.
  destruct (handle_cases opts req next url Hurl)
    as [-> | [[_ ->] | [(procedure & cause & l & t & -> & Hquiet)
                       | (entry & ctx & data & l & t & -> & Hquiet)]]];
    [done|done| |done].
  rewrite catch_block_run. cbn [completion sent_response final trace].
  cbn [is_error_response sendResponse body].
  eexists (getErrorFromUnknown cause), _, _. split; [done|].
  destruct (opts_onError opts); [|done]. by rewrite filter_app, Hquiet.
Qed.

(** X10. Without [responseMeta], the status of a response tells what
    was sent. Status 200 goes with the data that the procedure
    returned. Status 204 is sent without a body, in answer to a HEAD
    request after a lookup and nothing else. Every other response is
    built by the [catch] block, and when what was caught carries a
    [code] that is not the name of an inherited property, its status is
    the status of the table for the code of the envelope, which lies
    between 400 and 504. *)
Theorem status_by_body opts req next url res :
  new_URL (request_target (req_url req)) = Some url →
  opts_responseMeta opts = None →
  let r := handle opts req next in
  let path := normalizePath (pathname url) in
  sent_response (completion r) = Some res →
  (statusCode res = 200 ∧ ∃ data, body res = Some (OpenApiSuccessResponse data))
  ∨ (statusCode res = 204 ∧ body res = None ∧ req_method req = "HEAD"
     ∧ trace r = [EvGetProcedure "HEAD" path])
  ∨ (∃ procedure cause l t,
       r = catch_block opts path procedure cause l t
       ∧ (own_code cause →
          let error := getErrorFromUnknown cause in
          statusCode res = TRPC_ERROR_CODE_HTTP_STATUS (trpc_code error)
          ∧ 400 ≤ statusCode res ≤ 504
          ∧ ∃ message issues,
              body res = Some (OpenApiErrorResponse message (trpc_code error) issues))).
Proof.
  intros Hurl Hmeta r path. subst r path.
  destruct (handle_cases opts req next url Hurl)
    as [-> | [[Hhead ->] | [(procedure & cause & l & t & Hcatch & _)
                           | (entry & ctx & data & l & t & -> & _)]]].
  - done.
  - intros [= <-]. right. left. by rewrite Hhead.
  - intros Hres. right. right. exists procedure, cause, l, t.
    split; [done|]. intros _ error. subst error.
    rewrite Hcatch, catch_block_run in Hres.
    cbn [completion sent_response] in Hres. injection Hres as <-.
    unfold error_meta. rewrite Hmeta. cbn.
    split; [done|]. split; [|by eexists _, _].
    by destruct (trpc_code (getErrorFromUnknown cause)).
  - cbn [completion sent_response]. intros [= <-]. left.
    unfold success_meta. rewrite Hmeta. cbn. split; [done|]. by exists data.
Qed.
End Answers.

(** * Further properties of the lookup *)

Section LookupProperties.
Context {env : Environment}.

(** A registration comes from an entry of the router that has OpenAPI
    metadata which is not disabled and that is a query or a mutation. *)
Lemma registration_of_Some entry r :
  registration_of entry = Some r →
  ∃ openapi,
    def_openapi entry.2 = Some openapi
    ∧ openapi_enabled openapi ≠ Some false
    ∧ def_type entry.2 = Some (entry_type (reg_entry r))
    ∧ entry_type (reg_entry r) ≠ subscription
    ∧ reg_method r = openapi_method openapi
    ∧ reg_template r = normalizePath (openapi_path openapi)
    ∧ entry_path (reg_entry r) = entry.1
    ∧ entry_procedure (reg_entry r) = entry.2.
Proof.
  destruct entry as [path procedure]. unfold registration_of. cbn [fst snd].
  destruct (def_openapi procedure) as [openapi|]; [|done].
  destruct (def_type procedure) as [[]|]; try done;
    destruct (openapi_enabled openapi) as [[]|] eqn:Henabled; try done;
    intros [= <-]; exists openapi; cbn; repeat split; congruence.
Qed.

Lemma reg_matches_spec method path r :
  reg_matches method path r = true
  ↔ method_name (reg_method r) = method ∧ is_Some (path_exec (reg_template r) path).
Proof.
  unfold reg_matches.
  by rewrite andb_true_iff, String.eqb_eq, bool_decide_eq_true.
Qed.

(** A lookup that succeeds found a registration of the router that
    matches the method and the path. *)
Lemma lookup_registration router method path found :
  createProcedureCache router method path = Some found →
  ∃ entry r,
    entry ∈ router_procedures router
    ∧ registration_of entry = Some r
    ∧ method_name (reg_method r) = method
    ∧ is_Some (path_exec (reg_template r) path)
    ∧ found = found_of path r.
Proof.
  rewrite createProcedureCache_first_match. unfold first_match.
  destruct (find _ _) as [r|] eqn:Hfind; [|done]. intros [= <-].
  apply find_some in Hfind as [Hin Hmatches].
  apply list_elem_of_In, list_elem_of_omap in Hin as (entry & Hin & Hreg).
  apply reg_matches_spec in Hmatches as [Hmethod Hpath].
  by exists entry, r.
Qed.

(** X11. A lookup only ever returns a procedure that the router serves:
    the result always carries a procedure, which is an entry of the
    router with OpenAPI metadata that is not disabled, of type query or
    mutation, declared under the method of the request, and whose
    normalized path template matches the path; the path parameters are
    the groups of that match. *)
Theorem lookup_sound router method path found :
  createProcedureCache router method path = Some found →
  ∃ entry openapi,
    found_procedure found = Some entry
    ∧ (entry_path entry, entry_procedure entry) ∈ router_procedures router
    ∧ def_openapi (entry_procedure entry) = Some openapi
    ∧ openapi_enabled openapi ≠ Some false
    ∧ def_type (entry_procedure entry) = Some (entry_type entry)
    ∧ entry_type entry ≠ subscription
    ∧ method_name (openapi_method openapi) = method
    ∧ is_Some (path_exec (normalizePath (openapi_path openapi)) path)
    ∧ found_pathInput found
      = default ∅ (mjoin (path_exec (normalizePath (openapi_path openapi)) path)).
Proof.
  intros Hfound.
  destruct (lookup_registration _ _ _ _ Hfound)
    as ([p procedure] & r & Hin & Hreg & Hmethod & Hpath & ->).
  apply registration_of_Some in Hreg
    as (openapi & Hopenapi & Henabled & Htype & Hkind & Hm & Ht & Hp & Hproc).
  cbn [fst snd] in *. exists (reg_entry r), openapi.
  cbn [found_of found_procedure found_pathInput].
  rewrite Hp, Hproc, <- Hm, <- Ht. by repeat split.
Qed.

(** X12. A lookup finds some procedure exactly when the router has an
    entry with OpenAPI metadata that is not disabled, of type query or
    mutation, declared under the method, whose normalized path template
    matches the path. So a router that has only subscriptions, disabled
    procedures and procedures without OpenAPI metadata answers no
    lookup. The statement does not tell which procedure is found: it is
    the first registered that matches, so an enabled procedure can be
    shadowed by one registered before it. *)
Theorem lookup_succeeds_iff router method path :
  is_Some (createProcedureCache router method path)
  ↔ ∃ p procedure openapi,
      (p, procedure) ∈ router_procedures router
      ∧ def_openapi procedure = Some openapi
      ∧ openapi_enabled openapi ≠ Some false
      ∧ (def_type procedure = Some query ∨ def_type procedure = Some mutation)
      ∧ method_name (openapi_method openapi) = method
      ∧ is_Some (path_exec (normalizePath (openapi_path openapi)) path).
Proof.
  split.
  - intros [found Hfound].
    destruct (lookup_registration _ _ _ _ Hfound)
      as ([p procedure] & r & Hin & Hreg & Hmethod & Hpath & _).
    apply registration_of_Some in Hreg
      as (openapi & Hopenapi & Henabled & Htype & Hkind & Hm & Ht & _).
    cbn [fst snd] in *. exists p, procedure, openapi.
    rewrite <- Hm, <- Ht. repeat split; try done.
    rewrite Htype. destruct (entry_type (reg_entry r)); [by left|by right|done].
  - intros (p & procedure & openapi & Hin & Hopenapi & Henabled & Htype & Hm & Hp).
    rewrite createProcedureCache_first_match. unfold first_match.
    destruct (find _ _) as [r|] eqn:Hfind; [by eexists|]. exfalso.
    assert (∃ r, registration_of (p, procedure) = Some r
                 ∧ reg_method r = openapi_method openapi
                 ∧ reg_template r = normalizePath (openapi_path openapi))
      as (r & Hreg & Hmethod & Htemplate).
    { unfold registration_of. rewrite Hopenapi.
      destruct Htype as [-> | ->];
        destruct (openapi_enabled openapi) as [[]|]; try done; by eexists. }
    assert (r ∈ registrations router) as Hr.
    { apply list_elem_of_omap. by exists (p, procedure). }
    apply list_elem_of_In in Hr.
    pose proof (find_none _ _ Hfind r Hr) as Hno.
    assert (reg_matches method path r = true) as Hyes.
    { apply reg_matches_spec. by rewrite Hmethod, Htemplate. }
    congruence.
Qed.

(** X13. The methods are matched as they are written: a request whose
    method is not one of GET, POST, PATCH, PUT and DELETE, in capitals,
    matches no procedure of any router. *)
Theorem unknown_method_never_matches router method path :
  (∀ m, method ≠ method_name m) →
  createProcedureCache router method path = None.
Proof.
  intros Hunknown.
  destruct (createProcedureCache router method path) as [found|] eqn:Hfound; [|done].
  destruct (lookup_registration _ _ _ _ Hfound) as (_ & r & _ & _ & Hmethod & _).
  by destruct (Hunknown (reg_method r)).
Qed.

(** X14. Procedures added at the end of a router never change a lookup
    that succeeded: the request still reaches the same procedure with
    the same path parameters. *)
Theorem lookup_stable_under_append router more method path found :
  createProcedureCache router method path = Some found →
  createProcedureCache
    {| router_procedures := (router_procedures router ++ more)%list;
       router_errorFormatter := router_errorFormatter router;
       router_createCaller := router_createCaller router |} method path
  = Some found.
Proof.
  rewrite !createProcedureCache_first_match. unfold first_match, registrations.
  cbn [router_procedures]. rewrite omap_app.
  destruct (find _ (omap _ (router_procedures router))) as [r|] eqn:Hfind; [|done].
  intros [= <-].
  assert (∀ (l1 l2 : list Registration),
            find (reg_matches method path) l1 = Some r →
            find (reg_matches method path) (l1 ++ l2)%list = Some r) as Happ.
  { induction l1 as [|r1 l1 IH]; [done|]. intros l2. cbn.
    destruct (reg_matches method path r1); [done|]. apply IH. }
  by rewrite (Happ _ _ Hfind).
Qed.
End LookupProperties.

(** * Further properties of the Lambda handler *)

Section Uniform.
Context {L : Type}.

Lemma uniform_ret {A} (a : A) : uniform (ret (L:=L) a).
Proof. intros l t. unfold ret, shift. cbn. by rewrite app_nil_r. Qed.

Lemma uniform_throw {A} (e : Thrown) : uniform (throw (L:=L) (A:=A) e).
Proof. intros l t. unfold throw, shift. cbn. by rewrite app_nil_r. Qed.

Lemma uniform_emit (ev : Event) : uniform (emit (L:=L) ev).
Proof. by intros l t. Qed.

Lemma uniform_get_locals : uniform (get_locals (L:=L)).
Proof. intros l t. unfold get_locals, shift. cbn. by rewrite app_nil_r. Qed.

Lemma uniform_modify_locals (f : L → L) : uniform (modify_locals f).
Proof. intros l t. unfold modify_locals, shift. cbn. by rewrite app_nil_r. Qed.

Lemma uniform_of_completion {A} (c : Completion A) : uniform (of_completion (L:=L) c).
Proof. intros l t. unfold of_completion, shift. cbn. by rewrite app_nil_r. Qed.

Lemma uniform_of_eff {A} (e : Eff A) : uniform (of_eff (L:=L) e).
Proof. by intros l t. Qed.

Lemma shift_shift {A} (t1 t2 : list Event) (r : Result L A) :
  shift t1 (shift t2 r) = shift (t1 ++ t2) r.
Proof. unfold shift. cbn. by rewrite app_assoc. Qed.

Lemma uniform_bind {A B} (m : Exec L A) (k : A → Exec L B) :
  uniform m → (∀ a, uniform (k a)) → uniform (bind m k).
Proof.
  intros Hm Hk l t. rewrite !bind_run, (Hm l t). cbn [shift completion final trace].
  destruct (completion (m l [])) as [a|e]; [|done].
  by rewrite (Hk a _ (t ++ _)%list), (Hk a _ (trace (m l []))), shift_shift.
Qed.

Lemma uniform_try_catch {A} (m : Exec L A) (handler : Thrown → Exec L A) :
  uniform m → (∀ cause, uniform (handler cause)) → uniform (try_catch m handler).
Proof.
  intros Hm Hh l t. unfold try_catch. rewrite (Hm l t).
  cbn [shift completion final trace].
  destruct (completion (m l [])) as [a|e]; [done|].
  by rewrite (Hh e _ (t ++ _)%list), (Hh e _ (trace (m l []))), shift_shift.
Qed.

Lemma uniform_call {L' A} (m : Exec L' A) (init : L') :
  uniform m → uniform (call (L:=L) m init).
Proof. intros Hm l t. unfold call. by rewrite (Hm init t). Qed.
End Uniform.

Create HintDb uniform.
#[export] Hint Resolve uniform_ret uniform_throw uniform_emit uniform_get_locals
  uniform_modify_locals uniform_of_completion uniform_of_eff : uniform.

(** Splits a computation into its steps and closes each of them. *)
Ltac uniform_steps :=
  repeat first
    [ solve [auto with uniform]
    | apply uniform_bind; [|intros ?]
    | apply uniform_try_catch; [|intros ?]
    | match goal with
      | |- uniform (match ?x with _ => _ end) => destruct x
      end ].

Section HandlersUniform.
Context {env : Environment}.

Lemma uniform_catch_block opts path procedure cause :
  uniform (catch_block opts path procedure cause).
Proof. unfold catch_block. uniform_steps. Qed.

Lemma uniform_try_block opts req next method url procedure pathInput :
  uniform (try_block opts req next method url procedure pathInput).
Proof.
  unfold try_block, reconcile_input, invoke_procedure, build_context, set_input,
    set_ctx, set_data.
  uniform_steps.
Qed.

(** The node-http handler does not look at the trace. *)
Lemma uniform_openApiHttpHandler opts req next :
  uniform (openApiHttpHandler opts req next).
Proof.
  unfold openApiHttpHandler. uniform_steps.
  all: first [apply uniform_try_block | apply uniform_catch_block].
Qed.

Lemma uniform_lambda_catch opts cause : uniform (lambda_catch opts cause).
Proof. unfold lambda_catch. uniform_steps. Qed.
End HandlersUniform.

Section StringFacts.

Lemma ascii_upper_idempotent (c : ascii) : ascii_upper (ascii_upper c) = ascii_upper c.
Proof. destruct c as [[] [] [] [] [] [] [] []]; reflexivity. Qed.

Lemma toUpperCase_idempotent (s : string) : toUpperCase (toUpperCase s) = toUpperCase s.
Proof.
  unfold toUpperCase. induction s as [|c s IH]; [done|].
  cbn. by rewrite ascii_upper_idempotent, IH.
Qed.
End StringFacts.

Section MockRequest.
Context {env : Environment} {L : Type}.

(** The body of the event, parsed or not. *)
Lemma parse_body_run parse decoding event (l : L) t :
  parse_body parse decoding event l t
  = if truthy (event_body event) then
      let text := default EmptyString (event_body event) in
      {| final := l; trace := t ++ [EvDecode (decoding text)];
         completion := match parse text with
                       | Return v => Return v
                       | Throw cause => Throw (ThrownTRPCError (parse_error cause))
                       end |}
    else {| final := l; trace := t; completion := Return JUndefined |}.
Proof.
  unfold parse_body. destruct (truthy (event_body event)); [|done].
  rewrite bind_run. cbn. by destruct (parse _).
Qed.

(** When [createRequest] throws, the text after the [?] of the URL was
    rejected by [querystring.parse]. *)
Lemma createRequest_Throw url method q hs b cause :
  createRequest url method q hs b = Throw cause →
  ∃ first text rest,
    split "?" url = first :: text :: rest ∧ querystring_parse text = Throw cause.
Proof.
  unfold createRequest.
  destruct (Nat.eqb _ 0); [|done].
  destruct (split "?" url) as [|first [|text rest]]; [done|done|].
  destruct (querystring_parse text) eqn:Hparse; [done|].
  intros [= <-]. by exists first, text, rest.
Qed.

(** The method of the mock request is read or not. *)
Lemma mock_method_cases event :
  let method : Exec L (option string) :=
    if truthy (event_httpMethod event) then ret (event_httpMethod event)
    else match event_requestContext_http_method event with
         | None =>
             throw (ThrownError
                      {| error_name := "TypeError";
                         error_message := "Cannot read properties of undefined";
                         error_code := None; error_errors := None |})
         | Some m => ret (or_else m (Some "GET"))
         end in
  (lacks_method event ∧ ∃ e, method = throw e)
  ∨ (has_method event ∧ ∃ m, method = ret m).
Proof.
  unfold lacks_method, has_method.
  destruct (truthy (event_httpMethod event));
    [|destruct (event_requestContext_http_method event)]; eauto 6.
Qed.

(** The body of the mock request is decoded or not. *)
Lemma mock_body_cases event (l : L) t :
  let r :=
    (if bool_decide (event_contentType event = Some "application/json") then
       parse_body JSON_parse JSONParse event
     else if bool_decide
               (event_contentType event = Some "application/x-www-form-urlencoded") then
       parse_body querystring_parse QuerystringParse event
     else ret JUndefined) l t in
  (body_is_parsed event = false
   ∧ r = {| final := l; trace := t; completion := Return JUndefined |})
  ∨ (body_is_parsed event = true
     ∧ ∃ d, decodes_body event d
         ∧ r = {| final := l; trace := (t ++ [EvDecode d])%list;
                  completion := match run_decoding d with
                                | Return v => Return v
                                | Throw c => Throw (ThrownTRPCError (parse_error c))
                                end |}).
Proof.
  unfold body_is_parsed, decodes_body.
  repeat case_bool_decide; rewrite ?parse_body_run;
    destruct (event_body event) as [[|a text]|];
    cbn [truthy andb orb default from_option id]; eauto;
    right; (split; [done|]); eexists; (split; [eexists; split; [done|]|]);
    first [by left | by right | done].
Qed.

(** The three ways of a mock request: the method cannot be read; the
    body is rejected by its parser; the options are handed to
    [createRequest]. *)
Lemma mock_request_cases path event (l : L) t :
  let r := createMockNodeHTTPRequest path event l t in
  (lacks_method event
   ∧ ∃ e, r = {| final := l; trace := t; completion := Throw e |})
  ∨ (has_method event ∧ body_is_parsed event = true
     ∧ ∃ d c, decodes_body event d ∧ run_decoding d = Throw c
         ∧ r = {| final := l; trace := (t ++ [EvDecode d])%list;
                  completion := Throw (ThrownTRPCError (parse_error c)) |})
  ∨ (has_method event
     ∧ ∃ m b ds,
         r = {| final := l; trace := (t ++ (EvDecode <$> ds))%list;
                completion :=
                  createRequest (event_url event) (toUpperCase (default "GET" m))
                    (default JUndefined (event_queryStringParameters event))
                    (event_headers event) b |}
         ∧ (body_is_parsed event = false ∧ ds = [] ∧ b = JUndefined
            ∨ body_is_parsed event = true
              ∧ ∃ d, ds = [d] ∧ decodes_body event d ∧ run_decoding d = Return b)).
Proof.
  intros r. subst r. unfold createMockNodeHTTPRequest.
  destruct (mock_method_cases event) as [[Hlacks [e ->]] | [Hhas [m ->]]].
  { left. split; [done|]. by exists e. }
  right. rewrite bind_run. cbn [ret completion final trace]. rewrite bind_run.
  destruct (mock_body_cases event l t) as [[Hskipped ->] | [Hparsed [d [Hd ->]]]].
  - right. split; [done|]. exists m, JUndefined, [].
    cbn [completion final trace of_completion fmap list_fmap].
    rewrite app_nil_r. split; [done|]. by left.
  - cbn [completion final trace].
    destruct (run_decoding d) as [b|c] eqn:Hrun.
    + right. split; [done|]. exists m, b, [d]. split; [done|].
      right. split; [done|]. by exists d.
    + left. split; [done|]. split; [done|]. by exists d, c.
Qed.

(** The mock request leaves the locals alone and only decodes. *)
Lemma mock_request_shape path event (l : L) t :
  let r := createMockNodeHTTPRequest path event l t in
  final r = l ∧ ∃ ds, trace r = (t ++ (EvDecode <$> ds))%list.
Proof.
  intros r. subst r.
  destruct (mock_request_cases path event l t)
    as [[_ [e ->]] | [(_ & _ & d & c & _ & _ & ->) | (_ & m & b & ds & -> & _)]];
    cbn [final trace]; (split; [done|]).
  - exists []. by rewrite app_nil_r.
  - by exists [d].
  - by exists ds.
Qed.

(** X15. The mock request of an event: the locals are left alone and at
    most one decoding is added to the trace, that of the body of the
    event by the parser of its content type. When a request is created,
    its URL is the path of the event, its method is in upper case, its
    headers are those of the event under lower-case names, its stream
    is empty, and its body is the value that was decoded, or the empty
    object when that value is falsy or nothing was decoded. When the
    creation throws, either the method could not be read and nothing
    was decoded, or the parser rejected the body and a PARSE_ERROR with
    its cause is thrown, or the text after the [?] of the URL was
    rejected by [querystring.parse]. *)
Theorem mock_request_properties path event (l : L) t :
  let r := createMockNodeHTTPRequest path event l t in
  final r = l
  ∧ ∃ ds,
      trace r = (t ++ (EvDecode <$> ds))%list
      ∧ (length ds ≤ 1)%nat
      ∧ (∀ d, d ∈ ds → decodes_body event d)
      ∧ (∀ req, completion r = Return req →
           req_url req = event_url event
           ∧ toUpperCase (req_method req) = req_method req
           ∧ req_headers req = convertKeysToLowerCase (event_headers event)
           ∧ req_stream req = EmptyString
           ∧ ∃ b, req_body req = Some (if value_truthy b then b else JObj ∅)
                ∧ match ds with
                  | [] => b = JUndefined
                  | d :: _ => run_decoding d = Return b
                  end)
      ∧ (∀ cause, completion r = Throw cause →
           (ds = [] ∧ lacks_method event)
           ∨ (∃ d c, ds = [d] ∧ run_decoding d = Throw c
                ∧ cause = ThrownTRPCError (parse_error c))
           ∨ (∃ first text rest,
                split "?" (event_url event) = first :: text :: rest
                ∧ querystring_parse text = Throw cause)).
Proof.
  intros r. subst r.
  destruct (mock_request_cases path event l t)
    as [[Hlacks [e ->]]
       | [(_ & _ & d & c & Hd & Hrun & ->) | (_ & m & b & ds & -> & Hbody)]];
    cbn [final trace completion]; (split; [done|]).
  - exists []. rewrite app_nil_r. split; [done|]. split; [cbn; lia|].
    split; [by intros ? ?%elem_of_nil|]. split; [done|]. intros ? _. by left.
  - exists [d]. split; [done|]. split; [cbn; lia|].
    split; [by intros ? ->%list_elem_of_singleton|]. split; [done|].
    intros ? [= <-]. right. left. by exists d, c.
  - exists ds. split; [done|].
    assert ((length ds ≤ 1)%nat ∧ (∀ d, d ∈ ds → decodes_body event d)
            ∧ match ds with
              | [] => b = JUndefined
              | d :: _ => run_decoding d = Return b
              end) as (Hlength & Hds & Hb).
    { destruct Hbody as [(_ & -> & ->) | (_ & d & -> & Hd & Hrun)].
      - split; [cbn; lia|]. split; [by intros ? ?%elem_of_nil|done].
      - split; [cbn; lia|]. split; [by intros ? ->%list_elem_of_singleton|done]. }
    split; [done|]. split; [done|]. split.
    + intros req (Hurl & Hmethod & Hheaders & Hreq & Hstream)%createRequest_Return.
      split; [done|]. split.
      { rewrite Hmethod. destruct (String.eqb _ _); [done|].
        apply toUpperCase_idempotent. }
      split; [done|]. split; [done|]. by exists b.
    + intros cause Hcause%createRequest_Throw. by right; right.
Qed.

(** X16. The body of an event is parsed only when it is not empty and
    the content type is exactly [application/json] or
    [application/x-www-form-urlencoded]: with any other content type,
    one with a [charset] parameter for instance, or with none, nothing
    of the body is decoded, whatever its text, and the mock request is
    created with the empty object that [createRequest] puts for a
    missing body. The creation then throws only when the method cannot
    be read or the text after the [?] of the URL is rejected by
    [querystring.parse]. *)
Theorem body_ignored_unless_known_type path event (l : L) t :
  body_is_parsed event = false →
  let r := createMockNodeHTTPRequest path event l t in
  trace r = t
  ∧ (∀ cause, completion r = Throw cause →
       lacks_method event
       ∨ ∃ first text rest,
           split "?" (event_url event) = first :: text :: rest
           ∧ querystring_parse text = Throw cause)
  ∧ (∀ req, completion r = Return req → req_body req = Some (JObj ∅)).
Proof.
  intros Hskipped r. subst r.
  destruct (mock_request_cases path event l t)
    as [[Hlacks [e ->]]
       | [(_ & Hparsed & _) | (_ & m & b & ds & -> & Hbody)]];
    [|congruence|]; cbn [final trace completion].
  - split; [done|]. split; [by left|done].
  - destruct Hbody as [(_ & -> & ->) | (Hparsed & _)]; [|congruence].
    cbn [fmap list_fmap]. rewrite app_nil_r. split; [done|]. split.
    + intros cause Hcause%createRequest_Throw. by right.
    + by intros req (_ & _ & _ & Hreq & _)%createRequest_Return.
Qed.
End MockRequest.

Section LambdaProperties.
Context {env : Environment}.

(** The [try] block once the mock request is created: the node-http
    handler runs on it, and what it sends is returned. *)
Lemma lambda_handler_run opts event req l1 t1 :
  supported_version event → router_accepted (lambda_router opts) →
  createMockNodeHTTPRequest (event_url event) event (Some (event_url event)) []
    = {| final := l1; trace := t1; completion := Return req |} →
  let h := handle (lambda_node_opts opts event) req false in
  invoke_lambda opts event
  = match completion h with
    | Return out =>
        {| final := l1; trace := (t1 ++ trace h)%list;
           completion := Return (if out is Sent written then written
                                 else createMockNodeHTTPResponse) |}
    | Throw cause => lambda_catch opts cause l1 (t1 ++ trace h)%list
    end.
Proof.
  intros Hversion Haccepted Hreq h. subst h.
  unfold invoke_lambda, createOpenApiAwsLambdaHandler, try_catch.
  rewrite (lambda_try_run _ _ Hversion Haccepted), bind_run, Hreq.
  cbn [completion final trace]. rewrite bind_run. unfold call.
  cbn [completion final trace].
  rewrite (uniform_openApiHttpHandler _ _ _ initial_locals t1).
  unfold handle. cbn [shift completion final trace].
  by destruct (completion (openApiHttpHandler _ _ _ _ _)).
Qed.

(** X17. The Lambda handler answers as the node-http handler does: for
    an event of a supported format and an accepted router, once the
    mock request is created and its URL is parsed, the response is the
    one that the node-http handler sends for the mock request, with the
    options of the Lambda handler and without a body limit, and the
    events are the decodings of the mock request followed by those of
    the node-http handler. The [catch] block of the Lambda handler is
    not entered. *)
Theorem lambda_answers_as_node_handler opts event req t1 url :
  supported_version event → router_accepted (lambda_router opts) →
  createMockNodeHTTPRequest (event_url event) event (Some (event_url event)) []
    = {| final := Some (event_url event); trace := t1; completion := Return req |} →
  new_URL (request_target (req_url req)) = Some url →
  let h := handle (lambda_node_opts opts event) req false in
  let r := invoke_lambda opts event in
  opts_maxBodySize (lambda_node_opts opts event) = None
  ∧ trace r = (t1 ++ trace h)%list
  ∧ final r = Some (event_url event)
  ∧ ∃ res, completion h = Return (Sent res) ∧ completion r = Return res.
Proof.
  intros Hversion Haccepted Hreq Hurl h r. subst r.
  rewrite (lambda_handler_run _ _ _ _ _ Hversion Haccepted Hreq). fold h.
  destruct (handle_sends (lambda_node_opts opts event) req url Hurl) as [res Hres].
  fold h in Hres. rewrite Hres.
  split; [done|]. split; [done|]. split; [done|]. by exists res.
Qed.

(** Without a method to read, the mock request is not created. *)
Lemma mock_request_without_method {L} path event (l : L) t :
  lacks_method event →
  ∃ e,
    createMockNodeHTTPRequest path event l t
    = {| final := l; trace := t; completion := Throw (ThrownError e) |}
    ∧ error_code e = None.
Proof.
  intros [Hmethod Hhttp]. unfold createMockNodeHTTPRequest.
  rewrite bind_run, Hmethod, Hhttp. cbn. eauto.
Qed.

(** X18. An event whose method cannot be read, because [httpMethod] is
    not set and there is no [requestContext.http], is answered with an
    INTERNAL_SERVER_ERROR, of status 500 unless [responseMeta] gives
    another: nothing is decoded, looked up or called. *)
Theorem event_without_method opts event :
  supported_version event → router_accepted (lambda_router opts) →
  lacks_method event →
  let r := invoke_lambda opts event in
  (∀ ev, ev ∈ trace r → ∃ error, ev = EvOnError error JUndefined JUndefined)
  ∧ ∃ res error message,
      completion r = Return res
      ∧ trpc_code error = INTERNAL_SERVER_ERROR
      ∧ statusCode res
        = default 500
            (lambda_error_meta opts (Some (event_url event)) error ≫= meta_status)
      ∧ body res = Some (OpenApiErrorResponse message INTERNAL_SERVER_ERROR None).
Proof.
  intros Hversion Haccepted Hmethod r. subst r.
  unfold invoke_lambda, createOpenApiAwsLambdaHandler, try_catch.
  rewrite (lambda_try_run _ _ Hversion Haccepted), bind_run.
  destruct (mock_request_without_method (event_url event) event
              (Some (event_url event)) [] Hmethod) as (e & -> & Hcode).
  cbn [completion final trace]. rewrite lambda_catch_run.
  cbn [completion final trace getErrorFromUnknown]. rewrite Hcode.
  cbn [default from_option TRPC_ERROR_CODES_BY_KEY]. split.
  - intros ev Hev. destruct (lambda_onError opts); trace_cases Hev; subst; eauto.
  - eexists _, (new_TRPCError INTERNAL_SERVER_ERROR (error_message e)), _.
    split; [done|]. split; [done|]. split; done.
Qed.

(** X19. A router that the validation rejects fails every event: the
    handler is built anew for every event, so outside production each
    event of a supported format is answered with the failure envelope
    of the validation error, before the path is read and before
    anything is decoded, looked up or called. *)
Theorem rejected_router_fails_every_event opts event cause :
  NODE_ENV_production = false →
  generateOpenApiDocument (lambda_router opts) = Some cause →
  supported_version event →
  let r := invoke_lambda opts event in
  let error := getErrorFromUnknown cause in
  final r = None
  ∧ trace r = (if lambda_onError opts then [EvOnError error JUndefined JUndefined]
               else [])
  ∧ ∃ res,
      completion r = Return res
      ∧ statusCode res
        = default (TRPC_ERROR_CODE_HTTP_STATUS (trpc_code error))
            (lambda_error_meta opts None error ≫= meta_status)
      ∧ body res
        = Some (OpenApiErrorResponse
                  (default (trpc_message error)
                     (router_errorFormatter (lambda_router opts) error None))
                  (trpc_code error) None).
Proof.
  intros Hproduction Hrejected Hversion r error. subst r.
  unfold invoke_lambda, createOpenApiAwsLambdaHandler, try_catch, lambda_try.
  assert ((negb (String.eqb (determinePayloadFormat event) "1.0")
           && negb (String.eqb (determinePayloadFormat event) "2.0"))%bool = false)
    as ->.
  { by destruct Hversion as [-> | ->]. }
  rewrite bind_run. unfold createOpenApiNodeHttpHandler.
  cbn [opts_router lambda_node_opts]. rewrite Hproduction, Hrejected.
  cbn [of_completion completion final trace]. rewrite lambda_catch_run.
  cbn [completion final trace]. fold error.
  split; [done|]. split; [by destruct (lambda_onError opts)|]. by eexists.
Qed.

(** Once the URL is parsed, the first event of the handler is the
    lookup. *)
Lemma handle_looks_up opts req next url :
  new_URL (request_target (req_url req)) = Some url →
  ∃ suffix,
    trace (handle opts req next)
    = EvGetProcedure (req_method req) (normalizePath (pathname url)) :: suffix.
Proof.
  intros Hurl. rewrite (handle_run _ _ _ _ _ Hurl eq_refl).
  destruct (extends_try_catch _ _
              (extends_try_block opts req next (req_method req) url
                 (createProcedureCache (opts_router opts) (req_method req)
                    (normalizePath (pathname url)) ≫= found_procedure)
                 (default ∅ (found_pathInput <$>
                               createProcedureCache (opts_router opts) (req_method req)
                                 (normalizePath (pathname url)))))
              (λ cause, extends_catch_block opts (normalizePath (pathname url))
                          (createProcedureCache (opts_router opts) (req_method req)
                             (normalizePath (pathname url)) ≫= found_procedure) cause)
              initial_locals
              [EvGetProcedure (req_method req) (normalizePath (pathname url))])
    as [suffix Hsuffix].
  exists suffix. exact Hsuffix.
Qed.

(** X20. The Lambda handler never throws: every event gets a response,
    and when no procedure was looked up the response is a failure
    envelope. *)
Theorem lambda_always_responds opts event :
  let r := invoke_lambda opts event in
  ∃ res,
    completion r = Return res
    ∧ ((∀ method path, EvGetProcedure method path ∉ trace r) →
       is_error_response res = true).
Proof.
  intros r. subst r.
  assert (∀ cause l t,
            ∃ res, completion (lambda_catch opts cause l t) = Return res
                   ∧ is_error_response res = true) as Hcatch.
  { intros cause l t. rewrite lambda_catch_run. by eexists. }
  assert (∀ cause l t,
            lambda_try opts event None [] = {| final := l; trace := t;
                                               completion := Throw cause |} →
            ∃ res, completion (invoke_lambda opts event) = Return res
                   ∧ ((∀ method path,
                         EvGetProcedure method path ∉ trace (invoke_lambda opts event)) →
                      is_error_response res = true)) as Hthrown.
  { intros cause l t Htry.
    unfold invoke_lambda, createOpenApiAwsLambdaHandler, try_catch. rewrite Htry.
    cbn [completion final trace].
    destruct (Hcatch cause l t) as (res & Hres & Herror). eauto. }
  destruct (negb (String.eqb (determinePayloadFormat event) "1.0")
            && negb (String.eqb (determinePayloadFormat event) "2.0"))%bool
    eqn:Hversion.
  { eapply Hthrown. unfold lambda_try. by rewrite Hversion. }
  destruct (if NODE_ENV_production then None
            else generateOpenApiDocument (lambda_router opts))
    as [cause|] eqn:Haccepted.
  { eapply Hthrown. unfold lambda_try. rewrite Hversion, bind_run.
    unfold createOpenApiNodeHttpHandler. cbn [opts_router lambda_node_opts].
    by rewrite Haccepted. }
  assert (supported_version event) as Hsupported.
  { unfold supported_version.
    apply andb_false_iff in Hversion as [H|H]; apply negb_false_iff, String.eqb_eq in H;
      eauto. }
  destruct (createMockNodeHTTPRequest (event_url event) event
              (Some (event_url event)) []) as [l1 t1 [req|cause]] eqn:Hreq.
  2:{ eapply Hthrown. rewrite (lambda_try_run _ _ Hsupported Haccepted), bind_run, Hreq.
      done. }
  rewrite (lambda_handler_run _ _ _ _ _ Hsupported Haccepted Hreq).
  destruct (completion (handle (lambda_node_opts opts event) req false))
    as [out|cause] eqn:Hout.
  2:{ destruct (Hcatch cause l1
                  (t1 ++ trace (handle (lambda_node_opts opts event) req false))%list)
        as (res & Hres & Herror). eauto. }
  cbn [completion trace]. eexists. split; [done|]. intros Hquiet. exfalso.
  destruct (new_URL (request_target (req_url req))) as [url|] eqn:Hurl.
  - destruct (handle_looks_up (lambda_node_opts opts event) req false url Hurl)
      as [suffix Hsuffix].
    apply (Hquiet (req_method req) (normalizePath (pathname url))).
    rewrite Hsuffix. apply elem_of_app. right. apply list_elem_of_here.
  - unfold handle, openApiHttpHandler in Hout. by rewrite Hurl in Hout.
Qed.

(** X21. When the URL of the mock request cannot be parsed, as for a
    path that does not start with a slash, the [TypeError] of the
    node-http handler is answered by the Lambda handler: an
    INTERNAL_SERVER_ERROR, of status 500 unless [responseMeta] gives
    another, and no procedure is looked up. *)
Theorem unparsable_url_on_lambda opts event req t1 :
  supported_version event → router_accepted (lambda_router opts) →
  createMockNodeHTTPRequest (event_url event) event (Some (event_url event)) []
    = {| final := Some (event_url event); trace := t1; completion := Return req |} →
  new_URL (request_target (req_url req)) = None →
  let r := invoke_lambda opts event in
  (∀ method path, EvGetProcedure method path ∉ trace r)
  ∧ ∃ res error message,
      completion r = Return res
      ∧ trpc_code error = INTERNAL_SERVER_ERROR
      ∧ statusCode res
        = default 500
            (lambda_error_meta opts (Some (event_url event)) error ≫= meta_status)
      ∧ body res = Some (OpenApiErrorResponse message INTERNAL_SERVER_ERROR None).
Proof.
  intros Hversion Haccepted Hreq Hurl r. subst r.
  rewrite (lambda_handler_run _ _ _ _ _ Hversion Haccepted Hreq).
  unfold handle, openApiHttpHandler. rewrite Hurl.
  cbn [throw completion final trace]. rewrite lambda_catch_run, app_nil_r.
  cbn [completion final trace]. split.
  - intros method path Hev.
    destruct (mock_request_shape (event_url event) event
                (Some (event_url event)) []) as (_ & ds & Htrace).
    rewrite Hreq in Htrace. cbn in Htrace. subst t1.
    destruct (lambda_onError opts); trace_cases Hev.
  - eexists _, _, _. split; [done|]. split; [|split; done]. done.
Qed.
End LambdaProperties.

(** * Further properties of the errors *)

Section ErrorProperties.

Lemma TRPC_ERROR_CODES_BY_KEY_name (k : TRPC_ERROR_CODE_KEY) :
  TRPC_ERROR_CODES_BY_KEY (code_name k) = Some k.
Proof. by destruct k. Qed.

Lemma TRPC_ERROR_CODES_BY_KEY_Some (code : string) (k : TRPC_ERROR_CODE_KEY) :
  TRPC_ERROR_CODES_BY_KEY code = Some k → code = code_name k.
Proof.
  unfold TRPC_ERROR_CODES_BY_KEY. intros [_ Hname]%find_some.
  symmetry. by apply String.eqb_eq.
Qed.

(** The code that [getErrorFromUnknown] gives to a value that is not a
    [TRPCError], from its [code] property. *)
Lemma code_of_property (code : option string) (k : TRPC_ERROR_CODE_KEY) :
  (if TRPC_ERROR_CODES_BY_KEY (default EmptyString code) is Some c then c
   else INTERNAL_SERVER_ERROR) = k
  ↔ code = Some (code_name k)
    ∨ (k = INTERNAL_SERVER_ERROR ∧ ∀ k', code ≠ Some (code_name k')).
Proof.
  destruct (TRPC_ERROR_CODES_BY_KEY (default EmptyString code)) as [c|] eqn:Hkey.
  - apply TRPC_ERROR_CODES_BY_KEY_Some in Hkey.
    assert (code = Some (code_name c)) as ->.
    { destruct code as [s|]; cbn in Hkey; [by subst|by destruct c]. }
    split.
    + intros ->. by left.
    + intros [[= Hname] | [_ Hnone]]; [|by destruct (Hnone c)].
      assert (Some c = Some k) as [= ->]; [|done].
      by rewrite <- !TRPC_ERROR_CODES_BY_KEY_name, Hname.
  - split.
    + intros <-. right. split; [done|]. intros k' ->.
      change (TRPC_ERROR_CODES_BY_KEY (code_name k') = None) in Hkey.
      by rewrite TRPC_ERROR_CODES_BY_KEY_name in Hkey.
    + intros [-> | [-> _]]; [|done].
      change (TRPC_ERROR_CODES_BY_KEY (code_name k) = None) in Hkey.
      by rewrite TRPC_ERROR_CODES_BY_KEY_name in Hkey.
Qed.

(** X22. What [getErrorFromUnknown] makes of a thrown value: a
    [TRPCError] is returned as it is; any other value becomes a
    [TRPCError] without cause whose message is the one of an [Error],
    and for another value its string form, or "Unknown error occurred"
    when that is missing or empty. When the [code] property of the
    value is not the name of a property that every object inherits
    ([constructor], [toString], [__proto__] and the like), the code of
    the result is that property when it names a tRPC error code, and
    INTERNAL_SERVER_ERROR in every other case. An inherited name is
    found by the test of the source and kept as the code: such values
    are left out of the statement. *)
Theorem getErrorFromUnknown_code (cause : Thrown) :
  match cause with
  | ThrownTRPCError e => getErrorFromUnknown cause = e
  | ThrownError e =>
      trpc_message (getErrorFromUnknown cause) = error_message e
      ∧ trpc_cause (getErrorFromUnknown cause) = None
      ∧ (inherited (error_code e) = false →
         ∀ k, trpc_code (getErrorFromUnknown cause) = k
              ↔ error_code e = Some (code_name k)
                ∨ (k = INTERNAL_SERVER_ERROR
                   ∧ ∀ k', error_code e ≠ Some (code_name k')))
  | ThrownValue code toString =>
      trpc_message (getErrorFromUnknown cause)
        = (if truthy toString then default EmptyString toString
           else "Unknown error occurred")
      ∧ trpc_message (getErrorFromUnknown cause) ≠ EmptyString
      ∧ trpc_cause (getErrorFromUnknown cause) = None
      ∧ (inherited code = false →
         ∀ k, trpc_code (getErrorFromUnknown cause) = k
              ↔ code = Some (code_name k)
                ∨ (k = INTERNAL_SERVER_ERROR ∧ ∀ k', code ≠ Some (code_name k')))
  end.
Proof.
  destruct cause as [e|e|code toString]; cbn [getErrorFromUnknown].
  - done.
  - split; [done|]. split; [done|]. intros _ k. apply code_of_property.
  - split; [done|]. split; [|split; [done|intros _ k; apply code_of_property]].
    cbn. by destruct toString as [[|c s]|].
Qed.

(** X23. The [getErrorFromUnknown] next to the status table tests
    [instanceof TRPCError] where the adapter's tests the name. An
    instance of the class is returned as the object it is. What is no
    instance becomes an INTERNAL_SERVER_ERROR without cause, whose
    message is the one of an [Error] and "Unknown error occurred" for
    another value: an [Error] named [TRPCError] that is no instance of
    the class, which the adapter's version returns as it is, loses its
    code here. On another [Error] that is no instance, and whose [code]
    is not the name of an inherited property, the two versions make the
    same error exactly when the adapter's version does not find a tRPC
    error code other than INTERNAL_SERVER_ERROR in that property, which
    the version next to the table never reads. *)
Theorem getErrorFromUnknown_versions (instanceofTRPCError : Thrown → bool)
    (cause : Thrown) :
  let table := getErrorFromUnknown_table instanceofTRPCError cause in
  if instanceofTRPCError cause then table = cause
  else
    match cause with
    | ThrownTRPCError e =>
        getErrorFromUnknown cause = e
        ∧ table = ThrownTRPCError (new_TRPCError INTERNAL_SERVER_ERROR (trpc_message e))
    | ThrownError e =>
        table = ThrownTRPCError (new_TRPCError INTERNAL_SERVER_ERROR (error_message e))
        ∧ (inherited (error_code e) = false →
           (table = ThrownTRPCError (getErrorFromUnknown cause)
            ↔ ∀ k, error_code e = Some (code_name k) → k = INTERNAL_SERVER_ERROR))
    | ThrownValue _ _ =>
        table
        = ThrownTRPCError (new_TRPCError INTERNAL_SERVER_ERROR "Unknown error occurred")
    end.
Proof.
  intros table. subst table. unfold getErrorFromUnknown_table.
  destruct (instanceofTRPCError cause); [done|].
  destruct cause as [e|e|code toString]; [done| |done].
  split; [done|]. intros _.
  pose proof (code_of_property (error_code e)) as Hcode.
  cbn [getErrorFromUnknown]. unfold new_TRPCError. split.
  - intros [= Heq] k Hk. symmetry. rewrite Heq. apply Hcode. by left.
  - intros Hall. do 2 f_equal. symmetry. apply Hcode.
    destruct (TRPC_ERROR_CODES_BY_KEY (default EmptyString (error_code e)))
      as [c|] eqn:Hkey.
    + apply TRPC_ERROR_CODES_BY_KEY_Some in Hkey.
      destruct (error_code e) as [s|] eqn:Hs.
      * cbn in Hkey. subst s. left. by rewrite (Hall c eq_refl).
      * by destruct c.
    + right. split; [done|]. intros k' Hk'. rewrite Hk' in Hkey.
      change (TRPC_ERROR_CODES_BY_KEY (code_name k') = None) in Hkey.
      by rewrite TRPC_ERROR_CODES_BY_KEY_name in Hkey.
Qed.
End ErrorProperties.

(** * The further properties on the sample requests *)

Section FurtherWitnesses.
Import Sample.

(** X2 on [GET /nowhere] with a [next] callback. *)
Lemma next_iff_unmatched_witness :
  let r := handle Cases.opts (Cases.get "/nowhere") true in
  EvNext ∈ trace r
  ∧ completion r = Return CalledNext
  ∧ trace r = [EvGetProcedure "GET" "/nowhere"; EvNext].
Proof.
  destruct (next_iff_unmatched (env:=Sample.env) Cases.opts (Cases.get "/nowhere") true
              (Cases.url_of "/nowhere" EmptyString) eq_refl) as [[_ Hnext] Hthen].
  assert (EvNext ∈ trace (handle Cases.opts (Cases.get "/nowhere") true)) as Hev.
  { apply Hnext. split; reflexivity. }
  split; [exact Hev|]. exact (Hthen Hev).
Defined.

(** X3 on [GET /unauthorized?name=Steve]: one call, and the input of
    the call is the input that [onError] is given. *)
Lemma at_most_one_call_witness :
  let r := handle Cases.opts (Cases.get "/unauthorized?name=Steve") false in
  (filter is_call (trace r) = []
   ∨ filter is_call (trace r) = [EvCall "throwUnauthorized" (var_input (final r))])
  ∧ ∀ error input ctx,
      EvOnError error input ctx ∈ trace r → input = var_input (final r).
Proof.
  exact (at_most_one_call (env:=Sample.env) Cases.opts
           (Cases.get "/unauthorized?name=Steve") false
           (Cases.url_of "/unauthorized" "?name=Steve") eq_refl).
Defined.

(** X4 on [POST /ping/7] with a JSON body: the body and the [id] of
    the path are dropped. *)
Lemma void_input_reads_nothing_witness :
  let r := handle Cases.opts (wire_request "POST" "/ping/7" json steve_mary) false in
  var_input (final r) = JUndefined
  ∧ (∀ d, EvDecode d ∉ trace r)
  ∧ (∀ p input, EvCall p input ∈ trace r → p = "ping" ∧ input = JUndefined).
Proof.
  exact (void_input_reads_nothing (env:=Sample.env) Cases.opts
           (wire_request "POST" "/ping/7" json steve_mary) false
           (Cases.url_of "/ping/7" EmptyString) Cases.ping_entry
           {[ "id" := JStr "7" ]} eq_refl eq_refl eq_refl).
Defined.

(** X5 on [GET /hello?name=Steve]. *)
Lemma success_envelope_witness :
  let r := handle Cases.opts (Cases.get "/hello?name=Steve") false in
  var_data (final r) = greeting "Steve"
  ∧ ∃ res,
      completion r = Return (Sent res)
      ∧ statusCode res = 200
      ∧ body res = Some (OpenApiSuccessResponse (greeting "Steve")).
Proof.
  pose (r0 := reconcile_input (env:=Sample.env) Cases.opts
                (Cases.get "/hello?name=Steve") "GET"
                (Cases.url_of "/hello" "?name=Steve") Cases.getHello_entry ∅
                initial_locals (Cases.looked_up "GET" "/hello")).
  destruct (success_envelope (env:=Sample.env) Cases.opts
              (Cases.get "/hello?name=Steve") false
              (Cases.url_of "/hello" "?name=Steve") Cases.getHello_entry ∅
              (final r0) (trace r0) JUndefined getHello (greeting "Steve")
              (conj eq_refl (conj eq_refl eq_refl)) eq_refl eq_refl eq_refl)
    as (_ & _ & Hdata & res & Hres & Hstatus & Hbody).
  split; [exact Hdata|].
  exists res. split; [exact Hres|]. split; [exact Hstatus|exact Hbody].
Defined.

(** X6 on [GET /hello?name=Steve] when [createContext] throws. *)
Lemma context_failure_witness :
  let r := handle Cases.guarded_opts (Cases.get "/hello?name=Steve") false in
  (∃ res,
     completion r = Return (Sent res)
     ∧ statusCode res = 500
     ∧ body res = Some (OpenApiErrorResponse "no session" INTERNAL_SERVER_ERROR None))
  ∧ ∀ p input, EvCall p input ∉ trace r.
Proof.
  pose (r0 := reconcile_input (env:=Sample.env) Cases.guarded_opts
                (Cases.get "/hello?name=Steve") "GET"
                (Cases.url_of "/hello" "?name=Steve") Cases.getHello_entry ∅
                initial_locals (Cases.looked_up "GET" "/hello")).
  destruct (context_failure (env:=Sample.env) Cases.guarded_opts
              (Cases.get "/hello?name=Steve") false
              (Cases.url_of "/hello" "?name=Steve") Cases.getHello_entry ∅
              (final r0) (trace r0) (ThrownError Cases.no_session)
              (conj eq_refl (conj eq_refl eq_refl)) eq_refl)
    as (Hres & _ & Hcalls).
  split; [|exact Hcalls].
  eexists. split; [exact Hres|]. split; reflexivity.
Defined.

(** X7 on [GET /lost], a procedure the caller has no function for. *)
Lemma missing_procedure_function_witness :
  let r := handle Cases.opts (Cases.get "/lost") false in
  (∀ p input, EvCall p input ∉ trace r)
  ∧ ∃ res,
      completion r = Return (Sent res)
      ∧ statusCode res = 500
      ∧ body res = Some (OpenApiErrorResponse "Procedure not found"
                           INTERNAL_SERVER_ERROR None).
Proof.
  destruct (missing_procedure_function (env:=Sample.env) Cases.opts
              (Cases.get "/lost") false (Cases.url_of "/lost" EmptyString)
              Cases.lost_entry ∅ initial_locals (Cases.looked_up "GET" "/lost")
              JUndefined (conj eq_refl (conj eq_refl eq_refl)) eq_refl eq_refl)
    as (Hcalls & _ & res & Hres & Hstatus & Hbody).
  split; [exact Hcalls|].
  exists res. split; [exact Hres|]. split; [exact Hstatus|exact Hbody].
Defined.

(** X8 on [GET /unauthorized?name=Steve]: the UNAUTHORIZED of the
    procedure is answered with status 401. *)
Lemma procedure_failure_witness :
  let r := handle Cases.opts (Cases.get "/unauthorized?name=Steve") false in
  ∃ res message issues,
    completion r = Return (Sent res)
    ∧ statusCode res = 401
    ∧ body res = Some (OpenApiErrorResponse message UNAUTHORIZED issues).
Proof.
  pose (r0 := reconcile_input (env:=Sample.env) Cases.opts
                (Cases.get "/unauthorized?name=Steve") "GET"
                (Cases.url_of "/unauthorized" "?name=Steve")
                Cases.throwUnauthorized_entry ∅
                initial_locals (Cases.looked_up "GET" "/unauthorized")).
  destruct (procedure_failure (env:=Sample.env) Cases.opts
              (Cases.get "/unauthorized?name=Steve") false
              (Cases.url_of "/unauthorized" "?name=Steve")
              Cases.throwUnauthorized_entry ∅
              (final r0) (trace r0) JUndefined Cases.throwUnauthorized
              (ThrownTRPCError (new_TRPCError UNAUTHORIZED "UNAUTHORIZED"))
              (conj eq_refl (conj eq_refl eq_refl)) eq_refl eq_refl eq_refl)
    as (_ & _ & _ & Hcode).
  exact (Hcode (new_TRPCError UNAUTHORIZED "UNAUTHORIZED") eq_refl).
Defined.

(** X9 on [GET /lost]: the failure is reported once. *)
Lemma report_iff_failure_witness :
  let r := handle Cases.opts (Cases.get "/lost") false in
  match sent_response (completion r) with
  | Some res =>
      if is_error_response res then
        ∃ error message issues,
          body res = Some (OpenApiErrorResponse message (trpc_code error) issues)
          ∧ filter is_report (trace r)
            = [EvOnError error (var_input (final r)) (var_ctx (final r))]
      else filter is_report (trace r) = []
  | None => filter is_report (trace r) = []
  end.
Proof.
  exact (report_iff_failure (env:=Sample.env) Cases.opts (Cases.get "/lost") false
           (Cases.url_of "/lost" EmptyString) eq_refl).
Defined.

(** X10 on [GET /unauthorized?name=Steve], where the procedure throws
    an UNAUTHORIZED. *)
Lemma status_by_body_witness :
  let r := handle Cases.opts (Cases.get "/unauthorized?name=Steve") false in
  ∃ res,
    sent_response (completion r) = Some res
    ∧ ((statusCode res = 200 ∧ ∃ data, body res = Some (OpenApiSuccessResponse data))
       ∨ (statusCode res = 204 ∧ body res = None ∧ "GET" = "HEAD"
          ∧ trace r = [EvGetProcedure "HEAD" "/unauthorized"])
       ∨ (∃ procedure cause l t,
            r = catch_block Cases.opts "/unauthorized" procedure cause l t
            ∧ (own_code cause →
               let error := getErrorFromUnknown cause in
               statusCode res = TRPC_ERROR_CODE_HTTP_STATUS (trpc_code error)
               ∧ 400 ≤ statusCode res ≤ 504
               ∧ ∃ message issues,
                   body res
                   = Some (OpenApiErrorResponse message (trpc_code error) issues)))).
Proof.
  eexists. split; [reflexivity|].
  exact (status_by_body (env:=Sample.env) Cases.opts
           (Cases.get "/unauthorized?name=Steve") false
           (Cases.url_of "/unauthorized" "?name=Steve") _ eq_refl eq_refl eq_refl).
Defined.

(** X11 on [GET /hello] in the router of the cases. *)
Lemma lookup_sound_witness :
  ∃ entry openapi,
    Some Cases.getHello_entry = Some entry
    ∧ (entry_path entry, entry_procedure entry) ∈ router_procedures Cases.router
    ∧ def_openapi (entry_procedure entry) = Some openapi
    ∧ openapi_enabled openapi ≠ Some false
    ∧ def_type (entry_procedure entry) = Some (entry_type entry)
    ∧ entry_type entry ≠ subscription
    ∧ method_name (openapi_method openapi) = "GET"
    ∧ is_Some (path_exec (normalizePath (openapi_path openapi)) "/hello")
    ∧ (∅ : gmap string JsValue)
      = default ∅ (mjoin (path_exec (normalizePath (openapi_path openapi)) "/hello")).
Proof.
  exact (lookup_sound (env:=Sample.env) Cases.router "GET" "/hello"
           {| found_procedure := Some Cases.getHello_entry; found_pathInput := ∅ |}
           eq_refl).
Defined.

(** X13 on the method [get], in lower case. *)
Lemma unknown_method_never_matches_witness :
  createProcedureCache Cases.router "get" "/hello" = None.
Proof.
  apply (unknown_method_never_matches (env:=Sample.env) Cases.router "get" "/hello").
  intros m. destruct m; discriminate.
Defined.

(** X14: a second procedure for [GET /hello], added at the end. *)
Lemma lookup_stable_under_append_witness :
  createProcedureCache
    {| router_procedures :=
         (router_procedures Cases.router
            ++ [("getHelloAgain", procedure_of GET "/hello" query [ZodObject])])%list;
       router_errorFormatter := router_errorFormatter Cases.router;
       router_createCaller := router_createCaller Cases.router |} "GET" "/hello"
  = Some {| found_procedure := Some Cases.getHello_entry; found_pathInput := ∅ |}.
Proof.
  exact (lookup_stable_under_append (env:=Sample.env) Cases.router
           [("getHelloAgain", procedure_of GET "/hello" query [ZodObject])]
           "GET" "/hello" _ eq_refl).
Defined.

(** X16 on a body under [application/json; charset=utf-8]. *)
Lemma body_ignored_unless_known_type_witness :
  let r := createMockNodeHTTPRequest "/hello" Events.charset (Some "/hello") [] in
  trace r = []
  ∧ (∀ cause, completion r = Throw cause →
       lacks_method Events.charset
       ∨ ∃ first text rest,
           split "?" (event_url Events.charset) = first :: text :: rest
           ∧ querystring_parse text = Throw cause)
  ∧ (∀ req, completion r = Return req → req_body req = Some (JObj ∅)).
Proof.
  exact (body_ignored_unless_known_type (env:=Sample.env) "/hello" Events.charset
           (Some "/hello") [] eq_refl).
Defined.

(** X17 on the event for [GET /hello?name=Steve] with the method [get]:
    the mock request is a [GET], and what the node-http handler sends
    for it is returned. *)
Lemma lambda_answers_as_node_handler_witness :
  let req := {| req_method := "GET"; req_url := "/hello"; req_headers := [];
               req_query := JObj {[ "name" := JStr "Steve" ]};
               req_body := Some (JObj ∅); req_stream := EmptyString |} in
  let h := handle (lambda_node_opts Events.opts Events.hello) req false in
  let r := invoke_lambda Events.opts Events.hello in
  trace r = trace h
  ∧ ∃ res, completion h = Return (Sent res) ∧ completion r = Return res.
Proof.
  destruct (lambda_answers_as_node_handler (env:=Sample.env) Events.opts Events.hello
              {| req_method := "GET"; req_url := "/hello"; req_headers := [];
                 req_query := JObj {[ "name" := JStr "Steve" ]};
                 req_body := Some (JObj ∅); req_stream := EmptyString |}
              [] (Cases.url_of "/hello" EmptyString)
              (or_intror eq_refl) eq_refl eq_refl eq_refl)
    as (_ & Htrace & _ & res & Hsent & Hres).
  split; [exact Htrace|].
  exists res. split; [exact Hsent|exact Hres].
Defined.

(** X18 on an event without a method. *)
Lemma event_without_method_witness :
  let r := invoke_lambda Events.opts Events.no_method in
  (∀ ev, ev ∈ trace r → ∃ error, ev = EvOnError error JUndefined JUndefined)
  ∧ ∃ res message,
      completion r = Return res
      ∧ statusCode res = 500
      ∧ body res = Some (OpenApiErrorResponse message INTERNAL_SERVER_ERROR None).
Proof.
  destruct (event_without_method (env:=Sample.env) Events.opts Events.no_method
              (or_introl eq_refl) eq_refl (conj eq_refl eq_refl))
    as (Htrace & res & error & message & Hres & _ & Hstatus & Hbody).
  split; [exact Htrace|].
  exists res, message. split; [exact Hres|]. split; [exact Hstatus|exact Hbody].
Defined.

(** X19 in an environment whose validation rejects the router. *)
Lemma rejected_router_fails_every_event_witness :
  let r := invoke_lambda (env:=Strict.env) Events.opts Events.hello in
  final r = None
  ∧ ∃ res,
      completion r = Return res
      ∧ statusCode res = 500
      ∧ body res
        = Some (OpenApiErrorResponse
                  "[query.getHello] - Input parser expects a Zod validator"
                  INTERNAL_SERVER_ERROR None).
Proof.
  destruct (rejected_router_fails_every_event (env:=Strict.env) Events.opts Events.hello
              Strict.rejection eq_refl eq_refl (or_intror eq_refl))
    as (Hfinal & _ & res & Hres & Hstatus & Hbody).
  split; [exact Hfinal|].
  exists res. split; [exact Hres|]. split; [exact Hstatus|exact Hbody].
Defined.

(** X21 on an event whose path has no leading slash. *)
Lemma unparsable_url_on_lambda_witness :
  let r := invoke_lambda Events.opts Events.relative in
  (∀ method path, EvGetProcedure method path ∉ trace r)
  ∧ ∃ res message,
      completion r = Return res
      ∧ statusCode res = 500
      ∧ body res = Some (OpenApiErrorResponse message INTERNAL_SERVER_ERROR None).
Proof.
  destruct (unparsable_url_on_lambda (env:=Sample.env) Events.opts Events.relative
              {| req_method := "GET"; req_url := "hello"; req_headers := [];
                 req_query := JObj ∅; req_body := Some (JObj ∅);
                 req_stream := EmptyString |} []
              (or_introl eq_refl) eq_refl eq_refl eq_refl)
    as (Hquiet & res & error & message & Hres & _ & Hstatus & Hbody).
  split; [exact Hquiet|].
  exists res, message. split; [exact Hres|]. split; [exact Hstatus|exact Hbody].
Defined.
End FurtherWitnesses.

(** * Properties of the generated schemas *)

Section Traversals.
Import Generator.
Context {A B : Type} (f : A → Completion B).

Lemma map_throwing_Return (l : list A) (bs : list B) :
  map_throwing f l = Return bs ↔ Forall2 (λ a b, f a = Return b) l bs.
Proof.
  revert bs. induction l as [|a l IH]; intros bs; cbn.
  - split.
    + intros [= <-]. constructor.
    + intros ->%Forall2_nil_inv_l. done.
  - destruct (f a) as [b|t] eqn:Hfa.
    + destruct (map_throwing f l) as [bs'|t] eqn:Hl.
      * split.
        -- intros [= <-]. constructor; [done|]. by apply IH.
        -- intros (b' & bs'' & Hb & Hbs & ->)%Forall2_cons_inv_l.
           rewrite Hfa in Hb. injection Hb as <-.
           apply IH in Hbs. by injection Hbs as <-.
      * split; [done|].
        intros (b' & bs'' & _ & Hbs & ->)%Forall2_cons_inv_l.
        by apply IH in Hbs.
    + split; [done|].
      intros (b' & bs'' & Hb & _ & ->)%Forall2_cons_inv_l. congruence.
Qed.

(** The traversal throws what the callback throws at the first element
    it fails on. *)
Lemma map_throwing_Throw (l : list A) (t : Thrown) :
  map_throwing f l = Throw t → ∃ a, a ∈ l ∧ f a = Throw t.
Proof.
  induction l as [|a l IH]; cbn; [done|].
  destruct (f a) as [b|t'] eqn:Hfa.
  - destruct (map_throwing f l) as [bs|t'']; [done|].
    intros [= <-]. destruct (IH eq_refl) as (a' & Hin & Ha').
    exists a'. split; [by apply list_elem_of_further|done].
  - intros [= <-]. exists a. split; [apply list_elem_of_here|done].
Qed.

(** A traversal that returns also returns on the elements that a
    filter keeps, with the results that belong to them. *)
Lemma map_throwing_filter (P : A → bool) (Q : B → bool) (l : list A) (bs : list B) :
  (∀ a b, f a = Return b → Q b = P a) →
  map_throwing f l = Return bs →
  map_throwing f (List.filter P l) = Return (List.filter Q bs).
Proof.
  intros Hcompat. rewrite map_throwing_Return.
  induction 1 as [|a b l bs Hfa _ IH]; [done|].
  cbn. rewrite (Hcompat a b Hfa). destruct (P a); [|done].
  cbn. by rewrite Hfa, IH.
Qed.
End Traversals.

Section GeneratorProperties.
Import Generator.
Context {zod : Zod}.

Lemma includes_spec (l : list string) (s : string) : includes l s = true ↔ s ∈ l.
Proof.
  unfold includes. rewrite existsb_exists. split.
  - intros (x & Hin & ->%String.eqb_eq). by apply list_elem_of_In.
  - intros Hin. exists s. split; [by apply list_elem_of_In|apply String.eqb_refl].
Qed.

Lemma filter_all {X} (l : list X) : List.filter (λ _, true) l = l.
Proof. induction l as [|x l IH]; [done|]. cbn. by rewrite IH. Qed.

(** A key of the shape has its schema. *)
Lemma Map_get_key {V} (key : string) (entries : list (string * V)) :
  key ∈ entries.*1 → is_Some (Map_get String.eqb key entries).
Proof.
  induction entries as [|[k v] entries IH]; cbn.
  - by intros ?%elem_of_nil.
  - intros [->|Hin]%elem_of_cons.
    + rewrite String.eqb_refl. by eexists.
    + destruct (String.eqb key k); [by eexists|by apply IH].
Qed.

(** What the callback of the [map] returns. *)
Lemma parameter_of_Return isRequired pathParameters example shape shapeKey p :
  parameter_of isRequired pathParameters example shape shapeKey = Return p →
  ∃ shapeSchema,
    Map_get String.eqb shapeKey shape = Some shapeSchema
    ∧ (instanceofZodTypeOptional shapeSchema = true →
       includes pathParameters shapeKey = false)
    ∧ param_name p = shapeKey
    ∧ param_in p = (if includes pathParameters shapeKey then "path" else "query")
    ∧ param_required p
      = (includes pathParameters shapeKey
         || (isRequired && negb (isOptional shapeSchema)))%bool
    ∧ param_example p = example_of example shapeKey.
Proof.
  unfold parameter_of.
  destruct (Map_get String.eqb shapeKey shape) as [shapeSchema|]; [|done].
  destruct (instanceofZodTypeOptional shapeSchema) eqn:Hoptional;
    [destruct (includes pathParameters shapeKey) eqn:Hpath; [done|]|];
    intros [= <-]; exists shapeSchema; cbn; rewrite ?Hpath; repeat split;
    first [done | congruence].
Qed.

(** What the callback of the [map] throws. *)
Lemma parameter_of_Throw isRequired pathParameters example shape shapeKey t :
  shapeKey ∈ shape.*1 →
  parameter_of isRequired pathParameters example shape shapeKey = Throw t →
  ∃ shapeSchema,
    Map_get String.eqb shapeKey shape = Some shapeSchema
    ∧ instanceofZodTypeOptional shapeSchema = true
    ∧ includes pathParameters shapeKey = true
    ∧ t = ThrownTRPCError
            (new_TRPCError INTERNAL_SERVER_ERROR
               ("Path parameter: " ++ quoted shapeKey ++ " must not be optional")).
Proof.
  intros [shapeSchema Hschema]%Map_get_key. unfold parameter_of. rewrite Hschema.
  destruct (instanceofZodTypeOptional shapeSchema) eqn:Hoptional; [|by cbn].
  destruct (includes pathParameters shapeKey) eqn:Hpath; [|by cbn].
  intros [= <-]. by exists shapeSchema.
Qed.

(** [getParameterObjects] on an object schema whose path parameters
    are all keys of the shape. *)
Lemma getParameterObjects_object schema pathParameters inType example name :
  instanceofZodType schema = true →
  instanceofZodTypeObject (unwrapZodType schema true) = true →
  (∀ p, p ∈ pathParameters → p ∈ (shape (unwrapZodType schema true)).*1) →
  getParameterObjects schema pathParameters inType example name
  = if (Nat.eqb (length pathParameters) 0
        && instanceofZodTypeLikeVoid (unwrapZodType schema true))%bool
    then Return None
    else match map_throwing
                 (parameter_of (negb (isOptional schema)) pathParameters example
                    (shape (unwrapZodType schema true)))
                 (List.filter (selects inType pathParameters)
                    (shape (unwrapZodType schema true)).*1) with
         | Throw t => Throw t
         | Return parameters => Return (Some parameters)
         end.
Proof.
  intros Hzod Hobject Hkeys. unfold getParameterObjects. rewrite Hzod, Hobject.
  cbn [negb]. destruct (_ && _)%bool; [done|].
  destruct (find _ pathParameters) as [p|] eqn:Hfind; [|done].
  apply find_some in Hfind as [Hin Hmissing].
  apply list_elem_of_In, Hkeys, includes_spec in Hin.
  by rewrite Hin in Hmissing.
Qed.

(** The path parameters of a result are keys of the shape. *)
Lemma getParameterObjects_keys schema pathParameters inType example name ps :
  getParameterObjects schema pathParameters inType example name = Return (Some ps) →
  instanceofZodTypeObject (unwrapZodType schema true) = true →
  instanceofZodType schema = true
  ∧ ∀ p, p ∈ pathParameters → p ∈ (shape (unwrapZodType schema true)).*1.
Proof.
  unfold getParameterObjects. intros Hresult Hobject. rewrite Hobject in Hresult.
  destruct (instanceofZodType schema); [|done]. split; [done|].
  cbn [negb] in Hresult. destruct (_ && _)%bool; [done|].
  destruct (find _ pathParameters) as [p|] eqn:Hfind; [done|].
  intros p Hp. apply includes_spec.
  apply list_elem_of_In in Hp.
  pose proof (find_none _ _ Hfind p Hp) as Hincluded.
  by apply negb_false_iff in Hincluded.
Qed.

(** X24. The parameters that [getParameterObjects] returns for an
    object schema: every path parameter is a key of the shape; the
    names of the parameters are the keys of the shape, in their order,
    that [inType] selects (all of them, those that are path parameters,
    or those that are not); a parameter is in the path exactly when its
    name is a path parameter, and is then required; a query parameter
    of an optional schema is never required. *)
Theorem parameters_of_object schema pathParameters inType example name ps :
  getParameterObjects schema pathParameters inType example name = Return (Some ps) →
  instanceofZodTypeObject (unwrapZodType schema true) = true →
  let shapeKeys := (shape (unwrapZodType schema true)).*1 in
  (∀ p, p ∈ pathParameters → p ∈ shapeKeys)
  ∧ param_name <$> ps = List.filter (selects inType pathParameters) shapeKeys
  ∧ Forall (λ p,
      (param_in p = "path" ∧ param_name p ∈ pathParameters ∧ param_required p = true)
      ∨ (param_in p = "query" ∧ (param_name p ∉ pathParameters)
         ∧ (isOptional schema = true → param_required p = false))) ps.
Proof.
  intros Hresult Hobject shapeKeys. subst shapeKeys.
  destruct (getParameterObjects_keys _ _ _ _ _ _ Hresult Hobject) as [Hzod Hkeys].
  split; [done|].
  rewrite (getParameterObjects_object _ _ _ _ _ Hzod Hobject Hkeys) in Hresult.
  destruct (_ && _)%bool; [done|].
  destruct (map_throwing _ _) as [parameters|t] eqn:Hmap; [|done].
  injection Hresult as ->. apply map_throwing_Return in Hmap.
  split.
  - induction Hmap as [|key p keys ps Hp _ IH]; [done|].
    apply parameter_of_Return in Hp as (_ & _ & _ & Hname & _).
    by rewrite fmap_cons, Hname, IH.
  - induction Hmap as [|key p keys ps Hp _ IH]; constructor; [|done].
    apply parameter_of_Return in Hp as (s & _ & _ & -> & -> & -> & _).
    destruct (includes pathParameters key) eqn:Hpath.
    + left. by apply includes_spec in Hpath.
    + right. split; [done|]. split.
      * intros Hin%includes_spec. congruence.
      * by intros ->.
Qed.

(** X25. The path and the query parameters split the parameters: when
    [getParameterObjects] returns parameters for an object schema with
    [inType] ['all'], then with ['path'] it returns those of them that
    are in the path and with ['query'] those that are in the query,
    each time in the same order and with the same contents. *)
Theorem path_and_query_split_all schema pathParameters example name ps :
  getParameterObjects schema pathParameters in_all example name = Return (Some ps) →
  instanceofZodTypeObject (unwrapZodType schema true) = true →
  getParameterObjects schema pathParameters in_path example name
  = Return (Some (List.filter (λ p, String.eqb (param_in p) "path") ps))
  ∧ getParameterObjects schema pathParameters in_query example name
    = Return (Some (List.filter (λ p, String.eqb (param_in p) "query") ps)).
Proof.
  intros Hresult Hobject.
  destruct (getParameterObjects_keys _ _ _ _ _ _ Hresult Hobject) as [Hzod Hkeys].
  rewrite (getParameterObjects_object _ _ _ _ _ Hzod Hobject Hkeys) in Hresult.
  rewrite !(getParameterObjects_object _ _ _ _ _ Hzod Hobject Hkeys).
  destruct (_ && _)%bool; [done|].
  destruct (map_throwing _ _) as [parameters|t] eqn:Hmap; [|done].
  injection Hresult as ->.
  assert (List.filter (selects in_all pathParameters)
            (shape (unwrapZodType schema true)).*1
          = (shape (unwrapZodType schema true)).*1) as Hall by apply filter_all.
  rewrite Hall in Hmap.
  assert (∀ (P : string → bool) (Q : ParameterObject → bool),
            (∀ key p,
               parameter_of (negb (isOptional schema)) pathParameters example
                 (shape (unwrapZodType schema true)) key = Return p →
               Q p = P key) →
            map_throwing
              (parameter_of (negb (isOptional schema)) pathParameters example
                 (shape (unwrapZodType schema true)))
              (List.filter P (shape (unwrapZodType schema true)).*1)
            = Return (List.filter Q ps)) as Hfilter.
  { intros P Q Hcompat. by apply map_throwing_filter. }
  split.
  - rewrite (Hfilter (selects in_path pathParameters)
               (λ p, String.eqb (param_in p) "path")); [done|].
    intros key p (_ & _ & _ & _ & -> & _)%parameter_of_Return. cbn.
    by destruct (includes pathParameters key).
  - rewrite (Hfilter (selects in_query pathParameters)
               (λ p, String.eqb (param_in p) "query")); [done|].
    intros key p (_ & _ & _ & _ & -> & _)%parameter_of_Return. cbn.
    by destruct (includes pathParameters key).
Qed.

(** X26. An optional path parameter is rejected only when path
    parameters are asked for. For an object schema whose path
    parameters are all keys of the shape, [getParameterObjects] throws
    exactly when [inType] is not ['query'] and the schema of some path
    parameter is optional, and what it throws is an
    INTERNAL_SERVER_ERROR; with ['query'] it always returns. *)
Theorem optional_path_parameter schema pathParameters inType example name :
  instanceofZodType schema = true →
  instanceofZodTypeObject (unwrapZodType schema true) = true →
  (∀ p, p ∈ pathParameters → p ∈ (shape (unwrapZodType schema true)).*1) →
  let optional_in_path :=
    ∃ key shapeSchema,
      key ∈ pathParameters
      ∧ Map_get String.eqb key (shape (unwrapZodType schema true)) = Some shapeSchema
      ∧ instanceofZodTypeOptional shapeSchema = true in
  match getParameterObjects schema pathParameters inType example name with
  | Throw t =>
      inType ≠ in_query ∧ optional_in_path
      ∧ ∃ message, t = ThrownTRPCError (new_TRPCError INTERNAL_SERVER_ERROR message)
  | Return _ => inType = in_query ∨ ¬ optional_in_path
  end.
Proof.
  intros Hzod Hobject Hkeys optional_in_path. subst optional_in_path.
  rewrite (getParameterObjects_object _ _ _ _ _ Hzod Hobject Hkeys).
  destruct (_ && _)%bool eqn:Hvoid.
  { right. intros (key & _ & Hin & _).
    apply andb_true_iff in Hvoid as [Hlength%Nat.eqb_eq _].
    destruct pathParameters; [by apply elem_of_nil in Hin|done]. }
  destruct (map_throwing _ _) as [parameters|t] eqn:Hmap.
  - destruct (decide (inType = in_query)) as [|Hother]; [by left|]. right.
    intros (key & shapeSchema & Hin & Hschema & Hoptional).
    apply map_throwing_Return in Hmap.
    assert (key ∈ List.filter (selects inType pathParameters)
                    (shape (unwrapZodType schema true)).*1) as Hselected.
    { apply list_elem_of_In, filter_In. split; [by apply list_elem_of_In, Hkeys|].
      apply includes_spec in Hin. unfold selects. rewrite Hin. by destruct inType. }
    destruct (list_elem_of_lookup_1 _ _ Hselected) as [i Hi].
    destruct (Forall2_lookup_l _ _ _ _ _ Hmap Hi) as (p & _ & Hp).
    apply parameter_of_Return in Hp as (s & Hs & Hnot & _).
    rewrite Hschema in Hs. injection Hs as <-.
    apply includes_spec in Hin. rewrite (Hnot Hoptional) in Hin. done.
  - apply map_throwing_Throw in Hmap as (key & Hselected & Hthrow).
    apply list_elem_of_In, filter_In in Hselected as [Hkey Hselects].
    apply list_elem_of_In in Hkey.
    apply (parameter_of_Throw _ _ _ _ _ _ Hkey) in Hthrow
      as (s & Hs & Hoptional & Hpath & ->).
    split.
    + intros ->. unfold selects in Hselects. by rewrite Hpath in Hselects.
    + split; [|by eexists]. exists key, s. by apply includes_spec in Hpath.
Qed.

(** X27. The parameter of an array schema: [getParameterObjects]
    returns at most one parameter, named [arrayParameterName]
    (["parameter"] when the argument is left out), with the style
    [form] and [explode]; it is returned in the path, and required,
    for [inType] ['path'] when its name is a path parameter, and in
    the query for ['query'] when it is not. With ['all'] an array
    schema never yields a parameter. *)
Theorem parameter_of_array schema pathParameters inType example name ps :
  getParameterObjects schema pathParameters inType example name = Return (Some ps) →
  instanceofZodTypeObject (unwrapZodType schema true) = false →
  ∃ p,
    ps = [p]
    ∧ instanceofZodTypeArray (unwrapZodType schema true) = true
    ∧ param_name p = default "parameter" name
    ∧ param_style p = Some "form" ∧ param_explode p = Some true
    ∧ ((inType = in_path ∧ param_name p ∈ pathParameters
        ∧ param_in p = "path" ∧ param_required p = true)
       ∨ (inType = in_query ∧ (param_name p ∉ pathParameters)
          ∧ param_in p = "query" ∧ param_required p = negb (isOptional schema))).
Proof.
  unfold getParameterObjects. intros Hresult Hobject. rewrite Hobject in Hresult.
  destruct (instanceofZodType schema); [|done]. cbn [negb] in Hresult.
  destruct (_ && _)%bool; [done|].
  destruct (instanceofZodTypeArray (unwrapZodType schema true)); [|done].
  destruct (String.eqb (default "parameter" name) EmptyString); [done|].
  destruct (includes pathParameters (default "parameter" name)) eqn:Hpath;
    destruct inType; cbn in Hresult; try done;
    destruct (instanceofZodTypeOptional (unwrapZodType schema true)); try done;
    injection Hresult as <-; eexists; (split; [done|]); cbn;
    repeat (split; [done|]).
  - left. by apply includes_spec in Hpath.
  - right. split; [done|]. split; [|done]. intros Hin%includes_spec. congruence.
  - right. split; [done|]. split; [|done]. intros Hin%includes_spec. congruence.
Qed.

(** The keys of [content] are the content types. *)
Lemma content_of_lookup contentTypes media contentType :
  content_of contentTypes media !! contentType
  = if bool_decide (contentType ∈ contentTypes) then Some media else None.
Proof.
  unfold content_of.
  assert (∀ (content : gmap string MediaTypeObject),
            foldl (λ content contentType, <[contentType := media]> content)
              content contentTypes !! contentType
            = if bool_decide (contentType ∈ contentTypes) then Some media
              else content !! contentType) as Hfold.
  { induction contentTypes as [|ct cts IH]; intros content; cbn.
    - by rewrite bool_decide_eq_false_2 by apply not_elem_of_nil.
    - rewrite IH. destruct (decide (contentType ∈ cts)) as [Hin|Hout].
      + rewrite !bool_decide_eq_true_2; [done|by apply list_elem_of_further|done].
      + rewrite (bool_decide_eq_false_2 _ Hout).
        destruct (decide (contentType = ct)) as [->|Hne].
        * rewrite lookup_insert_eq.
          by rewrite bool_decide_eq_true_2 by apply list_elem_of_here.
        * rewrite lookup_insert_ne by done.
          rewrite bool_decide_eq_false_2; [done|].
          intros [?|?]%elem_of_cons; done. }
  rewrite Hfold. by case_bool_decide.
Qed.

(** The example of an object body: the copy of the example without the
    path parameters. *)
Lemma deduped_example (example : JsValue) (pathParameters : list string) :
  value_truthy example = true →
  foldl (λ dedupedExample pathParameter,
           if value_truthy dedupedExample
           then delete_property dedupedExample pathParameter
           else dedupedExample)
    (object_spread [example]) pathParameters
  = JObj (filter (λ entry, entry.1 ∉ pathParameters) (own_properties example)).
Proof.
  intros _. unfold object_spread. cbn [foldl]. rewrite (right_id_L ∅ (∪)).
  assert (∀ props : gmap string JsValue,
            foldl (λ dedupedExample pathParameter,
                     if value_truthy dedupedExample
                     then delete_property dedupedExample pathParameter
                     else dedupedExample)
              (JObj props) pathParameters
            = JObj (filter (λ entry, entry.1 ∉ pathParameters) props)) as Hfold.
  { induction pathParameters as [|p ps IH]; intros props; cbn.
    - f_equal. symmetry. apply map_filter_id. intros ? ? _. apply not_elem_of_nil.
    - rewrite IH. f_equal. apply map_eq. intros key.
      rewrite !map_lookup_filter. destruct (decide (key = p)) as [->|Hne].
      + rewrite lookup_delete_eq. cbn.
        destruct (props !! p); [|done]. cbn.
        rewrite option_guard_False; [done|].
        intros Hout. apply Hout. apply list_elem_of_here.
      + rewrite lookup_delete_ne by done.
        destruct (props !! key); [|done]. cbn.
        destruct (decide (key ∈ ps)) as [Hin|Hout].
        * rewrite !option_guard_False; [done| |]; cbn; intros Hno; apply Hno;
            [by apply list_elem_of_further|done].
        * rewrite !option_guard_True; [done| |]; cbn; [|done].
          intros [?|?]%elem_of_cons; done. }
  apply Hfold.
Qed.

(** X28. The request body that [getRequestBodyObject] returns: it is
    required exactly when the schema is not optional; [content] has one
    entry for each of the content types, and no other, all with the
    same schema and example. For an object schema the example is the
    example it was given when that is falsy, and otherwise a copy of it
    without the path parameters. For an array schema the example is a
    copy of the whole example, in which an array has become an object
    of its items: the items are never adjusted, and keep the path
    parameters they have. *)
Theorem request_body_content schema pathParameters contentTypes example b :
  getRequestBodyObject schema pathParameters contentTypes example = Return (Some b) →
  body_required b = negb (isOptional schema)
  ∧ ∃ media,
      (∀ contentType,
         body_content b !! contentType
         = if bool_decide (contentType ∈ contentTypes) then Some media else None)
      ∧ media_example media
        = if value_truthy example then
            if instanceofZodTypeObject (unwrapZodType schema true)
            then JObj (filter (λ entry, entry.1 ∉ pathParameters)
                         (own_properties example))
            else JObj (own_properties example)
          else example.
Proof.
  unfold getRequestBodyObject.
  destruct (instanceofZodType schema); [|done]. cbn [negb].
  destruct (_ && _)%bool; [done|].
  destruct (instanceofZodTypeObject (unwrapZodType schema true)) eqn:Hobject.
  - cbn [negb andb].
    destruct (_ && _)%bool; [done|]. intros [= <-]. cbn. split; [done|].
    eexists. split; [intros contentType; apply content_of_lookup|]. cbn.
    destruct (value_truthy example) eqn:Htruthy.
    + by apply deduped_example.
    + clear -Htruthy. induction pathParameters as [|p ps IH]; [done|].
      cbn [foldl]. by rewrite Htruthy.
  - cbn [negb andb].
    destruct (instanceofZodTypeArray (unwrapZodType schema true)); [|done].
    cbn [negb].
    assert ((if value_truthy example then object_spread [example] else example)
            = if value_truthy example then JObj (own_properties example) else example)
      as Hcopy.
    { destruct (value_truthy example); [|done].
      unfold object_spread. cbn. by rewrite (right_id_L ∅ (∪)). }
    destruct (instanceofZodTypeObject (element (unwrapZodType schema true))).
    + destruct (_ && _)%bool; [done|]. intros [= <-]. cbn. split; [done|].
      eexists. split; [intros contentType; apply content_of_lookup|]. cbn.
      rewrite Hcopy. destruct (value_truthy example) eqn:Htruthy; [done|].
      by destruct example.
    + intros [= <-]. cbn. split; [done|].
      eexists. split; [intros contentType; apply content_of_lookup|]. cbn.
      exact Hcopy.
Qed.

(** X29. The generator only fails with an INTERNAL_SERVER_ERROR:
    whatever [getParameterObjects], [getRequestBodyObject] and
    [getResponsesObject] throw is a [TRPCError] with that code, and a
    schema that is not a Zod validator makes each of them throw, with
    the message that the input, or the output, parser expects a Zod
    validator. *)
Theorem generator_failures schema pathParameters inType contentTypes example headers name :
  let parameters := getParameterObjects schema pathParameters inType example name in
  let requestBody := getRequestBodyObject schema pathParameters contentTypes example in
  let responses := getResponsesObject schema example headers in
  (∀ t, parameters = Throw t → is_generator_failure parameters)
  ∧ (∀ t, requestBody = Throw t → is_generator_failure requestBody)
  ∧ (∀ t, responses = Throw t → is_generator_failure responses)
  ∧ if instanceofZodType schema then ∃ r, responses = Return r
    else parameters = internal_error "Input parser expects a Zod validator"
         ∧ requestBody = internal_error "Input parser expects a Zod validator"
         ∧ responses = internal_error "Output parser expects a Zod validator".
Proof.
  intros parameters requestBody responses.
  subst parameters requestBody responses. unfold is_generator_failure.
  split; [|split; [|split]].
  - unfold getParameterObjects.
    destruct (instanceofZodType schema); [|by eexists]. cbn [negb].
    destruct (_ && _)%bool; [done|].
    destruct (instanceofZodTypeObject (unwrapZodType schema true)).
    + destruct (find _ pathParameters); [by eexists|].
      destruct (map_throwing _ _) as [ps|t'] eqn:Hmap; [done|]. intros t _.
      apply map_throwing_Throw in Hmap as (key & Hselected & Hthrow).
      apply list_elem_of_In, filter_In in Hselected as [Hkey _].
      apply list_elem_of_In in Hkey.
      apply (parameter_of_Throw _ _ _ _ _ _ Hkey) in Hthrow as (_ & _ & _ & _ & ->).
      by eexists.
    + destruct (instanceofZodTypeArray (unwrapZodType schema true)); [|by eexists].
      destruct (String.eqb _ EmptyString); [by eexists|].
      destruct (includes pathParameters _), inType; cbn; try done;
        destruct (instanceofZodTypeOptional _); try done; by eexists.
  - unfold getRequestBodyObject.
    destruct (instanceofZodType schema); [|by eexists]. cbn [negb].
    destruct (_ && _)%bool; [done|].
    destruct (instanceofZodTypeObject (unwrapZodType schema true)); cbn [negb andb].
    + by destruct (_ && _)%bool.
    + destruct (instanceofZodTypeArray (unwrapZodType schema true)); [|by eexists].
      cbn [negb].
      destruct (instanceofZodTypeObject (element _)); [|done].
      by destruct (_ && _)%bool.
  - unfold getResponsesObject.
    destruct (instanceofZodType schema); [done|by eexists].
  - unfold getParameterObjects, getRequestBodyObject, getResponsesObject.
    destruct (instanceofZodType schema); [by eexists|done].
Qed.
End GeneratorProperties.

(** * The properties of the generated schemas on sample schemas *)

Section GeneratorWitnesses.
Import Generator.

(** X24 on the user schema with the path parameter [id]. *)
Lemma parameters_of_object_witness :
  ∃ ps,
    getParameterObjects (zod:=sketch) user ["id"] in_all user_example None
      = Return (Some ps)
    ∧ param_name <$> ps = ["id"; "name"; "nick"]
    ∧ Forall (λ p,
        (param_in p = "path" ∧ param_name p ∈ ["id"] ∧ param_required p = true)
        ∨ (param_in p = "query" ∧ (param_name p ∉ ["id"])
           ∧ (isOptional (Zod:=sketch) user = true → param_required p = false))) ps.
Proof.
  eexists. split; [reflexivity|].
  exact (proj2 (parameters_of_object (zod:=sketch) user ["id"] in_all user_example None
                  _ eq_refl eq_refl)).
Defined.

(** X25 on the same schema: [id] is the path parameter, [name] and
    [nick] are the query parameters. *)
Lemma path_and_query_split_all_witness :
  ∃ path_parameters query_parameters,
    getParameterObjects (zod:=sketch) user ["id"] in_path user_example None
      = Return (Some path_parameters)
    ∧ getParameterObjects (zod:=sketch) user ["id"] in_query user_example None
      = Return (Some query_parameters)
    ∧ param_name <$> path_parameters = ["id"]
    ∧ param_name <$> query_parameters = ["name"; "nick"].
Proof.
  destruct (path_and_query_split_all (zod:=sketch) user ["id"] user_example None
              _ eq_refl eq_refl) as [Hpath Hquery].
  eexists _, _. split; [exact Hpath|]. split; [exact Hquery|]. split; reflexivity.
Defined.

(** X26 on a schema whose path parameter [id] is optional. *)
Lemma optional_path_parameter_witness :
  let optional_in_path :=
    ∃ key shapeSchema,
      key ∈ ["id"]
      ∧ Map_get String.eqb key
          (shape (Zod:=sketch) (unwrapZodType (Zod:=sketch) loose_user true))
        = Some shapeSchema
      ∧ instanceofZodTypeOptional (Zod:=sketch) shapeSchema = true in
  match getParameterObjects (zod:=sketch) loose_user ["id"] in_path JUndefined None with
  | Throw t =>
      in_path ≠ in_query ∧ optional_in_path
      ∧ ∃ message, t = ThrownTRPCError (new_TRPCError INTERNAL_SERVER_ERROR message)
  | Return _ => in_path = in_query ∨ ¬ optional_in_path
  end.
Proof.
  apply (optional_path_parameter (zod:=sketch) loose_user ["id"] in_path JUndefined None
           eq_refl eq_refl).
  intros p Hp. apply list_elem_of_singleton in Hp. rewrite Hp. apply list_elem_of_here.
Defined.

(** X27 on an array of strings named [ids]. *)
Lemma parameter_of_array_witness :
  ∃ p,
    getParameterObjects (zod:=sketch) (ZArray ZString) [] in_query JUndefined (Some "ids")
      = Return (Some [p])
    ∧ param_name p = "ids" ∧ param_in p = "query" ∧ param_required p = true
    ∧ param_style p = Some "form" ∧ param_explode p = Some true.
Proof.
  destruct (parameter_of_array (zod:=sketch) (ZArray ZString) [] in_query JUndefined
              (Some "ids") _ eq_refl eq_refl)
    as (p & Hps & _ & Hname & Hstyle & Hexplode & Hin).
  exists p. split; [by rewrite <- Hps|].
  injection Hps as <-. repeat split.
Defined.

(** X28 on the user schema: the [id] of the example is removed. *)
Lemma request_body_content_witness :
  ∃ b media,
    getRequestBodyObject (zod:=sketch) user ["id"] ["application/json"] user_example
      = Return (Some b)
    ∧ body_required b = true
    ∧ body_content b !! "application/json" = Some media
    ∧ body_content b !! "text/plain" = None
    ∧ media_example media = JObj {[ "name" := JStr "Steve" ]}.
Proof.
  destruct (request_body_content (zod:=sketch) user ["id"] ["application/json"]
              user_example _ eq_refl) as (Hrequired & media & Hcontent & Hexample).
  eexists _, media. split; [reflexivity|]. split; [exact Hrequired|].
  split; [exact (Hcontent "application/json")|].
  split; [exact (Hcontent "text/plain")|].
  rewrite Hexample. vm_compute. reflexivity.
Defined.
End GeneratorWitnesses.
